(** * The playbook orchestrator of lib/ansible/playbook/__init__.py

    A shallow embedding of [PlayBook.run] and the methods it drives
    ([_run_play], [_do_setup_step], [_run_task], [_run_task_internal],
    [_async_poll], [_flag_handler]) as programs of a state-and-exception
    monad over the fields of the [PlayBook] object, followed by the
    properties of the orchestrator stated in the specification. *)

From stdpp Require Import gmap strings list fin_maps.
From Stdlib Require Import ZArith.

(** ** Data carried by results *)

Definition host := string.

(** Scalar values found in result dictionaries and in facts. *)
Inductive value :=
| VNone
| VBool (b : bool)
| VInt (z : Z)
| VStr (s : string).

(** Python truth value of a scalar. *)
Definition truthy (v : value) : bool :=
  match v with
  | VNone => false
  | VBool b => b
  | VInt z => negb (z =? 0)%Z
  | VStr s => negb (String.eqb s "")
  end.

Abbreviation facts := (gmap string value).
Abbreviation variables := (gmap string value).

(** The per-host result dictionary: the keys the orchestrator reads or
    writes, each one optional. *)
Module Result.
Record t := Make {
  changed : option value;
  failed : option value;
  rc : option value;
  msg : option value;
  ansible_facts : option facts;
}.

(** [result.get(key, False)] followed by a truth test. *)
Definition get_truthy (field : option value) : bool :=
  truthy (default (VBool false) field).
End Result.

(** What a Runner or a Poller hands back:
    [{ 'contacted' : host -> result, 'dark' : host -> reason }]. *)
Module Results.
Record t := Make {
  contacted : gmap host Result.t;
  dark : gmap host Result.t;
}.

(** [results['contacted'][host] = r] *)
Definition set_contacted (host0 : host) (r : Result.t) (results : t) : t :=
  {| contacted := <[host0 := r]> (contacted results); dark := dark results |}.
End Results.

(** ** The inventory view *)

Module Inventory.
(** Modelled from the spec: the Inventory class is not part of this file.
    The spec gives it a restriction stack: [restrict_to] pushes a subset,
    [lift_restriction] pops it, and [list_hosts] lists the hosts that match
    a pattern and pass every stacked filter.  [get_hosts] is the host
    database: the hosts that match a pattern when nothing is restricted. *)
Record t := Make {
  get_hosts : string -> list host;
  restriction : list (list host);
}.

(** Modelled from the spec: [restrict_to(hosts)] pushes a restriction. *)
Definition restrict_to (hosts : list host) (inv : t) : t :=
  {| get_hosts := get_hosts inv; restriction := hosts :: restriction inv |}.

(** Modelled from the spec: [lift_restriction()] pops the last restriction. *)
Definition lift_restriction (inv : t) : t :=
  {| get_hosts := get_hosts inv; restriction := tail (restriction inv) |}.

(** Modelled from the spec: a host passes when every stacked restriction
    lists it. *)
Definition allowed (inv : t) (h : host) : bool :=
  forallb (fun r => bool_decide (h ∈ r)) (restriction inv).

(** Modelled from the spec: [list_hosts(pattern)], the hosts that match the
    pattern and pass the restrictions; the pattern defaults to ["all"]. *)
Definition list_hosts (inv : t) (pattern : string) : list host :=
  List.filter (allowed inv) (get_hosts inv pattern).

(** Modelled from the spec: the depth of the restriction stack. *)
Definition depth (inv : t) : nat := length (restriction inv).
End Inventory.

(** ** Plays, tasks and handlers *)

(** The play-level defaults a task reads through its [play] back-reference. *)
Record PlayView := {
  hosts : string;
  remote_user : string;
  remote_port : Z;
  transport : string;
  sudo : bool;
  sudo_user : string;
}.

(** Tasks and handlers share one shape; [notified_by] is the only field the
    orchestrator mutates. *)
Module Task.
Record t := Make {
  name : string;
  module_name : string;
  module_args : string;
  module_vars : variables;
  notify : list string;
  only_if : string;
  async_seconds : Z;
  async_poll_interval : Z;
  notified_by : list host;
  play : PlayView;
}.

Definition set_notified_by (nb : list host) (x : t) : t :=
  {| name := name x; module_name := module_name x;
     module_args := module_args x; module_vars := module_vars x;
     notify := notify x; only_if := only_if x;
     async_seconds := async_seconds x;
     async_poll_interval := async_poll_interval x;
     notified_by := nb;
     play := play x |}.

(** [x.notified_by.append(host)] *)
Definition append_notified_by (h : host) (x : t) : t :=
  set_notified_by (notified_by x ++ [h]) x.
End Task.

Module Play.
Record t := Make {
  name : string;
  view : PlayView;
  vars : variables;
  vars_files : list string;
  tasks : list Task.t;
  handlers : list Task.t;
}.

Definition set_handlers (hs : list Task.t) (p : t) : t :=
  {| name := name p; view := view p; vars := vars p;
     vars_files := vars_files p; tasks := tasks p; handlers := hs |}.

Definition set_vars (v : variables) (p : t) : t :=
  {| name := name p; view := view p; vars := v;
     vars_files := vars_files p; tasks := tasks p;
     handlers := handlers p |}.
End Play.

(** ** The Runner object *)

(** Arguments of a module invocation: a task passes a string, the setup step
    passes the play's variables. *)
Inductive module_args :=
| ArgsString (s : string)
| ArgsVars (v : variables).

(** The arguments [ansible.runner.Runner] is constructed with.  The
    construction-time options of the playbook (forks, timeout, module path,
    passwords, key file, basedir, debug) never change during a run and are
    left to the oracle that stands for the Runner.  [inventory] and
    [setup_cache] are the shared objects as they are when the Runner starts;
    [module_vars] and [conditional] are [None] where the caller leaves them
    to the constructor's defaults. *)
Module Runner.
Record t := Make {
  pattern : string;
  inventory : Inventory.t;
  module_name : string;
  module_args : module_args;
  module_vars : option variables;
  setup_cache : gmap host facts;
  conditional : option string;
  view : PlayView;
}.
End Runner.

(** How the ledger counts one contacted result. *)
Inductive status := st_failed | st_skipped | st_changed | st_ok.

Global Instance status_eq_dec : EqDecision status.
Proof. solve_decision. Defined.

(** ** The collaborators outside this file

    The Runner, the Poller, the template engine, [Play.update_vars_files]
    and the ledger's reading of a result are external.  They are taken as an
    arbitrary implementation of this interface; [World] is whatever state of
    the outside world they depend on and change. *)
Class Collaborators := {
  World : Type;
  Poller : Type;
  (** [Runner(...).run()] *)
  Runner_run : Runner.t -> World -> Results.t * World;
  (** [Runner(...).run_async(seconds)] *)
  Runner_run_async : Runner.t -> Z -> World -> (Results.t * Poller) * World;
  (** [poller.wait(seconds, interval)]; the poller is updated in place *)
  Poller_wait : Poller -> Z -> Z -> World -> (Results.t * Poller) * World;
  (** [poller.hosts_to_poll] *)
  hosts_to_poll : Poller -> list host;
  (** [utils.template(text, vars)] *)
  template : string -> variables -> string;
  (** [play.update_vars_files(hosts)]: the play's variables afterwards *)
  update_vars_files :
    Play.t -> list host -> gmap host facts -> World -> variables * World;
  (** the ledger's classification of a contacted result *)
  classify : Result.t -> status;
}.

(** ** The Stats ledger *)

Module Stats.
(** Modelled from the spec: the ledger class is not part of this file.  The
    spec gives it per-host counters (ok, changed, failures, dark, skipped),
    the set [processed] of every host that appeared in a folded result, and
    [failures] and [dark] double as the membership sets the orchestrator
    tests.  [compute] folds a result set in; a setup-phase fold counts
    neither ok nor changed but still records failures and dark hosts. *)
Record t := Make {
  processed : gset host;
  failures : gmap host nat;
  ok : gmap host nat;
  dark : gmap host nat;
  changed : gmap host nat;
  skipped : gmap host nat;
}.

Definition empty : t :=
  {| processed := ∅; failures := ∅; ok := ∅; dark := ∅;
     changed := ∅; skipped := ∅ |}.

(** Modelled from the spec: add one to the counter of every host whose
    result satisfies [P]. *)
Definition bump (P : Result.t -> bool) (rs : gmap host Result.t)
    (counter : gmap host nat) : gmap host nat :=
  merge (fun r n =>
           match r with
           | Some v => if P v then Some (S (default 0 n)) else n
           | None => n
           end) rs counter.

Section Compute.
Context `{Collaborators}.

Definition is_status (st : status) (v : Result.t) : bool :=
  bool_decide (classify v = st).

(** Modelled from the spec: [compute(results, setup)] folds a result set
    into the counters and the membership sets; every host of the result set
    becomes a processed host; hosts are never removed. *)
Definition compute (results : Results.t) (setup : bool) (s : t) : t :=
  let c := Results.contacted results in
  {| processed := processed s ∪ dom c ∪ dom (Results.dark results);
     failures := bump (is_status st_failed) c (failures s);
     ok := if setup then ok s
           else bump (fun v => is_status st_changed v || is_status st_ok v)
                  c (ok s);
     dark := bump (fun _ => true) (Results.dark results) (dark s);
     changed := if setup then changed s
                else bump (is_status st_changed) c (changed s);
     skipped := bump (is_status st_skipped) c (skipped s) |}.
End Compute.

Record summary := Summary {
  s_ok : nat;
  s_changed : nat;
  s_failed : nat;
  s_unreachable : nat;
}.

(** Modelled from the spec: [summarize(host)], the counts of one host. *)
Definition summarize (s : t) (h : host) : summary :=
  {| s_ok := default 0 (ok s !! h);
     s_changed := default 0 (changed s !! h);
     s_failed := default 0 (failures s !! h);
     s_unreachable := default 0 (dark s !! h) |}.

(** Modelled from the spec: [h in stats.failures] and [h in stats.dark],
    membership in the two exclusion sets. *)
Definition in_failures (s : t) (h : host) : bool :=
  bool_decide (is_Some (failures s !! h)).

Definition in_dark (s : t) (h : host) : bool :=
  bool_decide (is_Some (dark s !! h)).
End Stats.

Arguments Stats.compute : simpl never.
Arguments Stats.bump : simpl never.
Arguments Stats.in_failures : simpl never.
Arguments Stats.in_dark : simpl never.
Arguments Stats.summarize : simpl never.
Arguments Inventory.list_hosts : simpl never.
Arguments Inventory.allowed : simpl never.

(** ** Calls on the collaborators

    Every call the orchestrator makes on a callback sink, the inventory, the
    Runner, the Poller, the play or the ledger, in the order it makes them. *)
Inductive event :=
| on_start
| on_play_start (name : string)
| on_setup_primary
| on_setup_secondary
| on_task_start (name : string) (is_handler : bool)
| on_notify (h : host) (name : string)
| on_failed (h : host) (reason : Result.t)
| restrict_to (hosts : list host)
| lift_restriction
| play_update_vars_files (hosts : list host)
| runner_run (runner : Runner.t)
| runner_run_async (runner : Runner.t) (seconds : Z)
| poller_wait (seconds interval : Z)
| stats_compute (results : Results.t) (setup : bool).

(** The two exceptions raised in this file: [errors.AnsibleError] by
    [_flag_handler] and [KeyError] by the subscript [SETUP_CACHE[host]]. *)
Inductive exn :=
| AnsibleError (msg : string)
| KeyError (key : host).

Inductive outcome (A : Type) :=
| Return (a : A)
| Raise (e : exn).
Arguments Return {A} a.
Arguments Raise {A} e.

Declare Scope prog_scope.
Delimit Scope prog_scope with prog.

Section Orchestrator.
Context `{Collaborators}.

(** ** The PlayBook object: the fields that change during a run *)
Record PlayBook := {
  inventory : Inventory.t;
  SETUP_CACHE : gmap host facts;
  stats : Stats.t;
  world : World;
  calls : list event;
}.

Definition set_inventory (inv : Inventory.t) (self : PlayBook) : PlayBook :=
  {| inventory := inv; SETUP_CACHE := SETUP_CACHE self; stats := stats self;
     world := world self; calls := calls self |}.

Definition set_SETUP_CACHE (c : gmap host facts) (self : PlayBook) : PlayBook :=
  {| inventory := inventory self; SETUP_CACHE := c; stats := stats self;
     world := world self; calls := calls self |}.

Definition set_stats (st : Stats.t) (self : PlayBook) : PlayBook :=
  {| inventory := inventory self; SETUP_CACHE := SETUP_CACHE self; stats := st;
     world := world self; calls := calls self |}.

Definition set_world (w : World) (self : PlayBook) : PlayBook :=
  {| inventory := inventory self; SETUP_CACHE := SETUP_CACHE self;
     stats := stats self; world := w; calls := calls self |}.

Definition record_all (es : list event) (self : PlayBook) : PlayBook :=
  {| inventory := inventory self; SETUP_CACHE := SETUP_CACHE self;
     stats := stats self; world := world self; calls := calls self ++ es |}.

Definition record (e : event) (self : PlayBook) : PlayBook :=
  record_all [e] self.

(** ** Programs: state passing with exceptions

    An exception leaves the object as it was when it was raised. *)
Definition M (A : Type) : Type := PlayBook -> outcome A * PlayBook.

Definition ret {A} (a : A) : M A := fun self => (Return a, self).

Definition raise {A} (e : exn) : M A := fun self => (Raise e, self).

Definition bind {A B} (m : M A) (f : A -> M B) : M B :=
  fun self =>
    match m self with
    | (Return a, self') => f a self'
    | (Raise e, self') => (Raise e, self')
    end.

Definition get : M PlayBook := fun self => (Return self, self).

Definition modify (f : PlayBook -> PlayBook) : M unit :=
  fun self => (Return tt, f self).

Notation "'let*' x ':=' m 'in' k" := (bind m (fun x => k))
  (at level 10, x pattern, m at level 100, k at level 200) : prog_scope.
Notation "m '>>' k" := (bind m (fun _ => k))
  (at level 100, k at level 200, right associativity) : prog_scope.

Local Open Scope prog_scope.

(** [for x in l: acc = f(acc, x)], stopping at the first exception. *)
Fixpoint foldM {A B} (f : B -> A -> M B) (l : list A) (acc : B) : M B :=
  match l with
  | [] => ret acc
  | x :: l' => let* acc' := f acc x in foldM f l' acc'
  end.

(** [for x in l: f(x)] *)
Definition forM_ {A} (l : list A) (f : A -> M unit) : M unit :=
  foldM (fun _ x => f x) l tt.

(** *** Calls *)

Definition call (e : event) : M unit := modify (record e).

Definition inventory_restrict_to (hs : list host) : M unit :=
  call (restrict_to hs) >>
  modify (fun self =>
            set_inventory (Inventory.restrict_to hs (inventory self)) self).

Definition inventory_lift_restriction : M unit :=
  call lift_restriction >>
  modify (fun self =>
            set_inventory (Inventory.lift_restriction (inventory self)) self).

Definition stats_do_compute (results : Results.t) (setup : bool) : M unit :=
  call (stats_compute results setup) >>
  modify (fun self =>
            set_stats (Stats.compute results setup (stats self)) self).

Definition do_runner_run (runner : Runner.t) : M Results.t :=
  call (runner_run runner) >>
  fun self =>
    let '(results, w) := Runner_run runner (world self) in
    (Return results, set_world w self).

Definition do_runner_run_async (runner : Runner.t) (seconds : Z)
  : M (Results.t * Poller) :=
  call (runner_run_async runner seconds) >>
  fun self =>
    let '(rp, w) := Runner_run_async runner seconds (world self) in
    (Return rp, set_world w self).

Definition do_poller_wait (poller : Poller) (seconds interval : Z)
  : M (Results.t * Poller) :=
  call (poller_wait seconds interval) >>
  fun self =>
    let '(rp, w) := Poller_wait poller seconds interval (world self) in
    (Return rp, set_world w self).

(** ** The methods of PlayBook *)

(** [{ 'failed' : 1, 'rc' : None, 'msg' : 'timed out' }] *)
Definition timed_out : Result.t :=
  {| Result.changed := None; Result.failed := Some (VInt 1);
     Result.rc := Some VNone; Result.msg := Some (VStr "timed out");
     Result.ansible_facts := None |}.

(** mark a host that is still listed as started as failed (lines 146-148) *)
Definition fail_timed_out (results : Results.t) (host0 : host)
  : M Results.t :=
  let reason := timed_out in
  call (on_failed host0 reason) >>
  ret (Results.set_contacted host0 reason results).

(** launch an async job, if poll_interval is set, wait for completion *)
Definition _async_poll (poller : Poller)
    (async_seconds async_poll_interval : Z) : M Results.t :=
  let* (results, poller) :=
    do_poller_wait poller async_seconds async_poll_interval in
  foldM fail_timed_out (hosts_to_poll poller) results.

(** the working set of a task (line 157):
    [[ h for h in self.inventory.list_hosts()
       if (h not in self.stats.failures) and (h not in self.stats.dark) ]] *)
Definition task_hosts (self : PlayBook) : list host :=
  List.filter (fun h => negb (Stats.in_failures (stats self) h)
                        && negb (Stats.in_dark (stats self) h))
              (Inventory.list_hosts (inventory self) "all").

(** the Runner of a task (lines 160-171) *)
Definition task_runner (task : Task.t) (self : PlayBook) : Runner.t :=
  {| Runner.pattern := hosts (Task.play task);
     Runner.inventory := inventory self;
     Runner.module_name := Task.module_name task;
     Runner.module_args := ArgsString (Task.module_args task);
     Runner.module_vars := Some (Task.module_vars task);
     Runner.setup_cache := SETUP_CACHE self;
     Runner.conditional := Some (Task.only_if task);
     Runner.view := Task.play task |}.

(** run a particular module step in a playbook *)
Definition _run_task_internal (task : Task.t) : M Results.t :=
  let* self := get in
  let hosts0 := task_hosts self in
  inventory_restrict_to hosts0 >>
  let* self := get in
  let runner := task_runner task self in
  let* results :=
    if (Task.async_seconds task =? 0)%Z then do_runner_run runner
    else
      let* (results, poller) :=
        do_runner_run_async runner (Task.async_seconds task) in
      stats_do_compute results false >>
      if (0 <? Task.async_poll_interval task)%Z then
        (* if not polling, playbook requested fire and forget, so don't poll *)
        _async_poll poller (Task.async_seconds task)
                    (Task.async_poll_interval task)
      else ret results in
  inventory_lift_restriction >>
  ret results.

(** the body of the loop of [_flag_handler] (lines 225-228); [acc] is
    [found] and the handlers already visited, as they are now *)
Definition flag_one (handler_name : string) (host0 : host)
    (acc : bool * list Task.t) (x : Task.t) : M (bool * list Task.t) :=
  let '(found, seen) := acc in
  if String.eqb handler_name (Task.name x) then
    call (on_notify host0 (Task.name x)) >>
    ret (true, seen ++ [Task.append_notified_by host0 x])
  else ret (found, seen ++ [x]).

(** if a task has any notify elements, flag handlers for run at end of
    execution cycle for hosts that have indicated changes have been made.
    The handler objects are updated in place; the list returned is the list
    of the same objects afterwards. *)
Definition _flag_handler (handlers : list Task.t) (handler_name : string)
    (host0 : host) : M (list Task.t) :=
  let* (found, handlers') :=
    foldM (flag_one handler_name host0) handlers (false, []) in
  if negb found then
    raise (AnsibleError
             (String.append "change handler ("
                (String.append handler_name ") is not defined")))
  else ret handlers'.

(** [self.SETUP_CACHE[host][k] = v]: the subscript [SETUP_CACHE[host]] raises
    KeyError when the host has no entry. *)
Definition cache_setitem (host0 : host) (k : string) (v : value) : M unit :=
  fun self =>
    match SETUP_CACHE self !! host0 with
    | Some d =>
        (Return tt,
         set_SETUP_CACHE (<[host0 := <[k := v]> d]> (SETUP_CACHE self)) self)
    | None => (Raise (KeyError host0), self)
    end.

(** the facts of one contacted host go into its cache entry
    (lines 197-199) *)
Definition merge_host (hr : host * Result.t) : M unit :=
  let '(host0, result) := hr in
  match Result.ansible_facts result with
  | Some fs => forM_ (map_to_list fs) (fun kv => cache_setitem host0 kv.1 kv.2)
  | None => ret tt
  end.

(** add facts to the global setup cache (lines 196-199).  Python leaves the
    order in which a dict is iterated open; here it is that of
    [map_to_list]. *)
Definition merge_facts (results : Results.t) : M unit :=
  forM_ (map_to_list (Results.contacted results)) merge_host.

(** flag the handler a task names, for one host (line 212) *)
Definition notify_one (task : Task.t) (host0 : host) (play : Play.t)
    (handler_name : string) : M Play.t :=
  let* hs :=
    _flag_handler (Play.handlers play)
      (template handler_name (Task.module_vars task)) host0 in
  ret (Play.set_handlers hs play).

(** a contacted host that reports a change notifies (lines 210-212) *)
Definition notify_host (task : Task.t) (play : Play.t)
    (hr : host * Result.t) : M Play.t :=
  let '(host0, result) := hr in
  if Result.get_truthy (Result.changed result) then
    foldM (notify_one task host0) (Task.notify task) play
  else ret play.

(** flag which notify handlers need to be run (lines 208-212).  The hosts
    are taken in the order of [map_to_list], one of the orders in which
    Python may iterate the dict. *)
Definition flag_handlers (play : Play.t) (task : Task.t)
    (results : Results.t) : M Play.t :=
  if (0 <? length (Task.notify task))%nat then
    foldM (notify_host task) (map_to_list (Results.contacted results)) play
  else ret play.

(** run a single task in the playbook.  The result is the play with its
    handlers as flagged by this task. *)
Definition _run_task (play : Play.t) (task : Task.t) (is_handler : bool)
  : M Play.t :=
  call (on_task_start (Task.name task) is_handler) >>
  let* results := _run_task_internal task in
  merge_facts results >>
  stats_do_compute results false >>
  flag_handlers play task results.

(** [self.SETUP_CACHE[host] = result['ansible_facts']] (lines 271-272).  An
    entry is the facts as a value: no two entries are one object, and no
    entry is an object of a result. *)
Definition load_host (hr : host * Result.t) : M unit :=
  let '(host0, result) := hr in
  match Result.ansible_facts result with
  | Some fs =>
      modify (fun self =>
                set_SETUP_CACHE (<[host0 := fs]> (SETUP_CACHE self)) self)
  | None => ret tt
  end.

(** now for each result, load into the setup cache (lines 270-272) *)
Definition load_facts (setup_ok : gmap host Result.t) : M unit :=
  forM_ (map_to_list setup_ok) load_host.

(** the working set of a setup step (lines 248-249):
    [[ h for h in self.inventory.list_hosts(play.hosts)
       if not (h in self.stats.failures or h in self.stats.dark) ]] *)
Definition setup_hosts (play : Play.t) (self : PlayBook) : list host :=
  List.filter (fun h => negb (Stats.in_failures (stats self) h
                              || Stats.in_dark (stats self) h))
              (Inventory.list_hosts (inventory self) (hosts (Play.view play))).

(** the Runner of a setup step (lines 254-259) *)
Definition setup_runner (play : Play.t) (self : PlayBook) : Runner.t :=
  {| Runner.pattern := hosts (Play.view play);
     Runner.inventory := inventory self;
     Runner.module_name := "setup";
     Runner.module_args := ArgsVars (Play.vars play);
     Runner.module_vars := None;
     Runner.setup_cache := SETUP_CACHE self;
     Runner.conditional := None;
     Runner.view := Play.view play |}.

(** [play.update_vars_files(hosts)] *)
Definition do_update_vars_files (play : Play.t) (hs : list host) : M Play.t :=
  call (play_update_vars_files hs) >>
  fun self =>
    let '(v, w) := update_vars_files play hs (SETUP_CACHE self) (world self) in
    (Return (Play.set_vars v play), set_world w self).

(** push variables down to the systems and get variables+facts back up *)
Definition _do_setup_step (play : Play.t) (vars_files : option (list string))
  : M (Play.t * Results.t) :=
  let* play :=
    match vars_files with
    | Some _ =>
        call on_setup_secondary >>
        let* self := get in
        do_update_vars_files play
          (Inventory.list_hosts (inventory self) (hosts (Play.view play)))
    | None => call on_setup_primary >> ret play
    end in
  let* self := get in
  let host_list := setup_hosts play self in
  inventory_restrict_to host_list >>
  let* self := get in
  let* setup_results := do_runner_run (setup_runner play self) in
  stats_do_compute setup_results true >>
  inventory_lift_restriction >>
  let setup_ok := Results.contacted setup_results in
  match vars_files with
  | None =>
      (* first pass only or we'll erase good work *)
      load_facts setup_ok
  | Some _ => ret tt
  end >>
  ret (play, setup_results).

(** run all the top level tasks (lines 290-291) *)
Definition run_tasks (play : Play.t) : M Play.t :=
  foldM (fun play task => _run_task play task false) (Play.tasks play) play.

(** one turn of the notify loop (lines 295-298) on the handler at position
    [i] of [play.handlers()], read as it is when its turn comes *)
Definition run_handler (play : Play.t) (i : nat) : M Play.t :=
  match Play.handlers play !! i with
  | Some handler =>
      if (0 <? length (Task.notified_by handler))%nat then
        inventory_restrict_to (Task.notified_by handler) >>
        let* play := _run_task play handler true in
        inventory_lift_restriction >>
        ret play
      else ret play
  | None => ret play
  end.

(** run notify actions (lines 294-298) *)
Definition run_handlers (play : Play.t) : M Play.t :=
  foldM run_handler (seq 0 (length (Play.handlers play))) play.

(** run a list of tasks for a given pattern, in order *)
Definition _run_play (play : Play.t) : M unit :=
  call (on_play_start (Play.name play)) >>
  let* (play, rc) := _do_setup_step play None in
  let* (play, rc) :=
    if negb (bool_decide (Play.vars_files play = [])) then
      _do_setup_step play (Some (Play.vars_files play))
    else ret (play, rc) in
  let* play := run_tasks play in
  let* play := run_handlers play in
  ret tt.

(** summarize the results (lines 131-134) *)
Definition summarize_all (st : Stats.t) : gmap host Stats.summary :=
  foldl (fun results h => <[h := Stats.summarize st h]> results) ∅
        (elements (Stats.processed st)).

(** run all patterns in the playbook.  [playbook] is the list of the plays
    as [Play(self, play_ds)] builds them. *)
Definition run (playbook : list Play.t) : M (gmap host Stats.summary) :=
  call on_start >>
  forM_ playbook
    (fun play => modify (set_SETUP_CACHE ∅) >> _run_play play) >>
  let* self := get in
  ret (summarize_all (stats self)).

End Orchestrator.

(** * Vocabulary of the statements *)

Section Vocabulary.
Context `{Collaborators}.

(** [handler_name == x.name] *)
Definition named (handler_name : string) (x : Task.t) : bool :=
  String.eqb handler_name (Task.name x).

(** a handler after [host0] flagged the handlers called [handler_name] *)
Definition flagged (handler_name : string) (host0 : host) (x : Task.t)
  : Task.t :=
  if named handler_name x then Task.append_notified_by host0 x else x.

(** the [on_notify] callbacks of one [_flag_handler] call *)
Definition notifications (handler_name : string) (host0 : host)
    (handlers : list Task.t) : list event :=
  map (fun x => on_notify host0 (Task.name x))
      (List.filter (named handler_name) handlers).

Definition undefined_handler (handler_name : string) : exn :=
  AnsibleError
    (String.append "change handler ("
       (String.append handler_name ") is not defined")).

(** the results of a poll once every host of [pending] is marked *)
Definition with_timeouts (results : Results.t) (pending : list host)
  : Results.t :=
  foldl (fun r h => Results.set_contacted h timed_out r) results pending.

Definition timeouts (pending : list host) : list event :=
  map (fun h => on_failed h timed_out) pending.

(** the playbook object once [self.inventory.restrict_to(hs)] is done *)
Definition restricted (hs : list host) (self : PlayBook) : PlayBook :=
  set_inventory (Inventory.restrict_to hs (inventory self))
                (record (restrict_to hs) self).

(** the Runner a task is dispatched with *)
Definition dispatch_runner (task : Task.t) (self : PlayBook) : Runner.t :=
  task_runner task (restricted (task_hosts self) self).

(** what [runner.run()], [runner.run_async()] and [poller.wait()] answer when
    [task] is dispatched from [self] *)
Definition ran (task : Task.t) (self : PlayBook) : Results.t * World :=
  Runner_run (dispatch_runner task self) (world self).

Definition launched (task : Task.t) (self : PlayBook)
  : (Results.t * Poller) * World :=
  Runner_run_async (dispatch_runner task self) (Task.async_seconds task)
                   (world self).

Definition polled (task : Task.t) (self : PlayBook)
  : (Results.t * Poller) * World :=
  Poller_wait (launched task self).1.2 (Task.async_seconds task)
              (Task.async_poll_interval task) (launched task self).2.

(** the hosts still listed in [poller.hosts_to_poll] when the wait returns *)
Definition pending (task : Task.t) (self : PlayBook) : list host :=
  hosts_to_poll (polled task self).1.2.

(** the playbook object with a new ledger, a new outside world and more
    calls; the inventory and the setup cache are those of [self] *)
Definition moved_on (self : PlayBook) (st : Stats.t) (w : World)
    (es : list event) : PlayBook :=
  {| inventory := inventory self; SETUP_CACHE := SETUP_CACHE self;
     stats := st; world := w; calls := calls self ++ es |}.

(** [on_failed] callbacks for [h] among some calls *)
Definition is_on_failed (h : host) (e : event) : bool :=
  match e with
  | on_failed h' _ => bool_decide (h' = h)
  | _ => false
  end.

Definition count_on_failed (h : host) (es : list event) : nat :=
  length (List.filter (is_on_failed h) es).

(** how many times a list of hosts lists [h] *)
Definition count_listed (h : host) (l : list host) : nat :=
  length (List.filter (fun x => bool_decide (x = h)) l).

(** the calls a program adds to those already made *)
Definition new_calls {A} (m : M A) (self : PlayBook) : list event :=
  drop (length (calls self)) (calls (m self).2).

(** one turn of the loop of lines 270-272 on the cache *)
Definition load_step (cache : gmap host facts) (hr : host * Result.t)
  : gmap host facts :=
  match Result.ansible_facts hr.2 with
  | Some fs => <[hr.1 := fs]> cache
  | None => cache
  end.

(** the cache once the facts of [setup_ok] are loaded *)
Definition loaded (setup_ok : gmap host Result.t) (cache : gmap host facts)
  : gmap host facts :=
  foldl load_step cache (map_to_list setup_ok).

(** the facts a result set carries for a host, if any *)
Definition facts_of (rs : gmap host Result.t) (h : host) : option facts :=
  rs !! h ≫= Result.ansible_facts.

(** the playbook object at the primary and at the secondary setup step of
    [play], when the Runner is built *)
Definition at_primary (play : Play.t) (self : PlayBook) : PlayBook :=
  let self1 := record on_setup_primary self in
  restricted (setup_hosts play self1) self1.

Definition updated_vars (play : Play.t) (self : PlayBook) : variables * World :=
  update_vars_files play
    (Inventory.list_hosts (inventory self) (hosts (Play.view play)))
    (SETUP_CACHE self) (world self).

Definition at_secondary (play : Play.t) (self : PlayBook) : PlayBook :=
  let hs := Inventory.list_hosts (inventory self) (hosts (Play.view play)) in
  let self1 :=
    set_world (updated_vars play self).2
      (record_all [on_setup_secondary; play_update_vars_files hs] self) in
  restricted (setup_hosts play self1) self1.

(** only the contents of cache entries differ between two states of the
    playbook object: same hosts in the cache, everything else equal *)
Definition same_but_entries (self self' : PlayBook) : Prop :=
  inventory self' = inventory self
  /\ stats self' = stats self
  /\ world self' = world self
  /\ calls self' = calls self
  /\ dom (SETUP_CACHE self') = dom (SETUP_CACHE self).

(** a contacted host whose non-empty facts have no cache entry to go to *)
Definition needs_entry (cache : gmap host facts) (hr : host * Result.t)
  : Prop :=
  cache !! hr.1 = None
  /\ exists fs, Result.ansible_facts hr.2 = Some fs /\ fs <> ∅.

(** Hoare triples: from a state that satisfies [P], the program ends in a
    state that satisfies [Q] at its result when it returns and [E] when it
    raises. *)
Definition hoare {A} (P : PlayBook -> Prop) (m : M A)
    (Q : A -> PlayBook -> Prop) (E : exn -> PlayBook -> Prop) : Prop :=
  forall self, P self ->
    match m self with
    | (Return a, self') => Q a self'
    | (Raise e, self') => E e self'
    end.

(** the program adds calls, all of them in the class [P], to those made *)
Definition emits {A} (P : event -> Prop) (m : M A) : Prop :=
  forall self, exists es,
    calls (m self).2 = calls self ++ es /\ Forall P es.

(** the calls a task or a handler ([is_handler]) may make *)
Definition task_event (is_handler : bool) (e : event) : Prop :=
  match e with
  | on_task_start _ b => b = is_handler
  | restrict_to _ | lift_restriction | runner_run _ | runner_run_async _ _
  | poller_wait _ _ | stats_compute _ _ | on_failed _ _ | on_notify _ _ =>
      True
  | _ => False
  end.

Definition is_on_notify (e : event) : Prop :=
  match e with on_notify _ _ => True | _ => False end.

(** the playbook object once [self.stats.compute(results)] is done *)
Definition folded (results : Results.t) (setup : bool) (self : PlayBook)
  : PlayBook :=
  set_stats (Stats.compute results setup (stats self))
            (record (stats_compute results setup) self).

(** the playbook object once [self.inventory.lift_restriction()] is done *)
Definition lifted (self : PlayBook) : PlayBook :=
  set_inventory (Inventory.lift_restriction (inventory self))
                (record lift_restriction self).

(** the folds into the ledger and the waits on a Poller among some calls *)
Definition is_fold (e : event) : bool :=
  match e with stats_compute _ _ => true | _ => false end.

Definition is_wait (e : event) : bool :=
  match e with poller_wait _ _ => true | _ => false end.

(** a handler that was notified some more; a play whose handlers were *)
Definition grows (x x' : Task.t) : Prop :=
  exists extra, x' = Task.set_notified_by (Task.notified_by x ++ extra) x.

Definition play_grows (play play' : Play.t) : Prop :=
  exists hs,
    play' = Play.set_handlers hs play /\ Forall2 grows (Play.handlers play) hs.

(** the state is [self0] with more calls, all of them [on_notify] *)
Definition notified_since (self0 self : PlayBook) : Prop :=
  exists es, self = record_all es self0 /\ Forall is_on_notify es.

(** what flagging handlers does to the play and to the playbook object,
    when it returns and when it raises *)
Definition flag_post (play0 : Play.t) (self0 : PlayBook) (play : Play.t)
    (self : PlayBook) : Prop :=
  play_grows play0 play /\ notified_since self0 self.

Definition flag_exn (self0 : PlayBook) (e : exn) (self : PlayBook) : Prop :=
  (exists n, e = undefined_handler n) /\ notified_since self0 self.

(** [h in stats.failures or h in stats.dark] *)
Definition excluded (st : Stats.t) (h : host) : Prop :=
  Stats.in_failures st h = true \/ Stats.in_dark st h = true.

(** the Runner a call dispatches, and the hosts the Runner finds listed for
    its pattern in the inventory it is given *)
Definition dispatch_of (e : event) : option Runner.t :=
  match e with
  | runner_run r | runner_run_async r _ => Some r
  | _ => None
  end.

Definition dispatch_set (r : Runner.t) : list host :=
  Inventory.list_hosts (Runner.inventory r) (Runner.pattern r).

(** the ledger after the folds among some calls *)
Definition replay1 (st : Stats.t) (e : event) : Stats.t :=
  match e with
  | stats_compute results setup => Stats.compute results setup st
  | _ => st
  end.

Definition replay (st : Stats.t) (es : list event) : Stats.t :=
  foldl replay1 st es.

(** the working set a Runner is dispatched with: the restriction pushed last
    on the inventory it is given *)
Definition working_set (r : Runner.t) : option (list host) :=
  head (Inventory.restriction (Runner.inventory r)).

(** the hosts the inventory listed when the working set of [r] was computed:
    a setup step lists the hosts of the play's pattern, a task lists all *)
Definition listing_pattern (r : Runner.t) : string :=
  match Runner.module_args r with
  | ArgsVars _ => Runner.pattern r
  | ArgsString _ => "all"
  end.

Definition listing (r : Runner.t) : list host :=
  Inventory.list_hosts (Inventory.lift_restriction (Runner.inventory r))
                       (listing_pattern r).

(** the hosts of a list that are neither in failures nor in dark *)
Definition eligible (st : Stats.t) (l : list host) : list host :=
  List.filter (fun h => negb (Stats.in_failures st h)
                        && negb (Stats.in_dark st h)) l.

(** every dispatch among [es] is made with the working set the ledger
    allows when the dispatch is made, the ledger being [st] before the first
    call *)
Fixpoint guarded (st : Stats.t) (es : list event) : Prop :=
  match es with
  | [] => True
  | e :: es' =>
      (forall r, dispatch_of e = Some r ->
                 working_set r = Some (eligible st (listing r)))
      /\ guarded (replay1 st e) es'
  end.

(** the calls since [self0] are guarded and account for the ledger *)
Definition exclusion_inv (self0 self : PlayBook) : Prop :=
  exists es,
    calls self = calls self0 ++ es
    /\ guarded (stats self0) es
    /\ stats self = replay (stats self0) es.

(** the restriction stack is [inv]'s; it is [inv]'s, or [inv]'s with one more
    restriction pushed *)
Definition stack_is (inv : Inventory.t) (self : PlayBook) : Prop :=
  inventory self = inv.

Definition stack_left (inv : Inventory.t) (self : PlayBook) : Prop :=
  inventory self = inv
  \/ exists nb, inventory self = Inventory.restrict_to nb inv.

(** [r] is the Runner of a primary setup step among the calls [es]: the
    calls of the step are [on_setup_primary], the restriction, the Runner *)
Definition is_primary_setup (es : list event) (r : Runner.t) : Prop :=
  exists es1 ws es2,
    es = es1 ++ on_setup_primary :: restrict_to ws :: runner_run r :: es2.

(** reading calls from left to right: is the last [on_setup_primary] still
    waiting for its Runner, and which cache did the Runner of each
    [on_setup_primary] get *)
Fixpoint armed_after (armed : bool) (es : list event) : bool :=
  match es with
  | [] => armed
  | on_setup_primary :: es' => armed_after true es'
  | runner_run _ :: es' => armed_after false es'
  | _ :: es' => armed_after armed es'
  end.

Fixpoint primary_caches (armed : bool) (es : list event)
  : list (gmap host facts) :=
  match es with
  | [] => []
  | on_setup_primary :: es' => primary_caches true es'
  | runner_run r :: es' =>
      if armed then Runner.setup_cache r :: primary_caches false es'
      else primary_caches false es'
  | _ :: es' => primary_caches armed es'
  end.

(** since [self0], every primary setup got the empty cache and none waits *)
Definition primary_inv (self0 self : PlayBook) : Prop :=
  exists es,
    calls self = calls self0 ++ es
    /\ Forall (fun c => c = ∅) (primary_caches false es)
    /\ armed_after false es = false.

Definition not_primary (e : event) : Prop := e <> on_setup_primary.

(** [_run_play] up to and including the last task (lines 280-291) *)
Definition before_handlers (play : Play.t) : M Play.t :=
  bind (call (on_play_start (Play.name play))) (fun _ =>
  bind (_do_setup_step play None) (fun pr =>
  bind (if negb (bool_decide (Play.vars_files pr.1 = [])) then
          _do_setup_step pr.1 (Some (Play.vars_files pr.1))
        else ret pr) (fun pr' =>
  run_tasks pr'.1))).

(** The handler phase in the words of the specification: for each handler
    of the play, in declaration order, from position [i] on: if its
    [notified_by] is non-empty, restrict the inventory to [notified_by], run
    the handler as a task with [is_handler = true], lift the restriction.
    The last argument is how the phase ends; an exception of a handler's
    task ends it there. *)
Inductive handlers_run
  : nat -> Play.t -> PlayBook -> outcome Play.t * PlayBook -> Prop :=
| handlers_done i play self :
    Play.handlers play !! i = None ->
    handlers_run i play self (Return play, self)
| handlers_skip i play self handler out :
    Play.handlers play !! i = Some handler ->
    Task.notified_by handler = [] ->
    handlers_run (S i) play self out ->
    handlers_run i play self out
| handlers_fire i play self handler play' self' out :
    Play.handlers play !! i = Some handler ->
    Task.notified_by handler <> [] ->
    _run_task play handler true
      (restricted (Task.notified_by handler) self) = (Return play', self') ->
    handlers_run (S i) play' (lifted self') out ->
    handlers_run i play self out
| handlers_abort i play self handler e self' :
    Play.handlers play !! i = Some handler ->
    Task.notified_by handler <> [] ->
    _run_task play handler true
      (restricted (Task.notified_by handler) self) = (Raise e, self') ->
    handlers_run i play self (Raise e, self').

Definition not_handler_start (e : event) : Prop :=
  match e with on_task_start _ true => False | _ => True end.

(** no contacted host of [results] carries non-empty facts without having
    an entry in [cache] *)
Definition no_new_facts (cache : gmap host facts) (results : Results.t)
  : Prop :=
  forall h r, Results.contacted results !! h = Some r ->
              ~ needs_entry cache (h, r).

(** every handler name a task notifies, once templated, is the name of a
    handler of the play; a play all of whose tasks and handlers notify
    defined handlers only *)
Definition defined_in (play : Play.t) (task : Task.t) : Prop :=
  forall n, n ∈ Task.notify task ->
    existsb (named (template n (Task.module_vars task)))
            (Play.handlers play) = true.

Definition notify_defined (play : Play.t) : Prop :=
  forall task, task ∈ Play.tasks play ++ Play.handlers play ->
               defined_in play task.

(** the Runner of a task returns facts, other than empty ones, only for hosts
    that have an entry in the setup cache it is given, and a Poller returns
    none *)
Definition facts_for_cached : Prop :=
  (forall r w s, Runner.module_args r = ArgsString s ->
     no_new_facts (Runner.setup_cache r) (Runner_run r w).1)
  /\ (forall r secs w s, Runner.module_args r = ArgsString s ->
        no_new_facts (Runner.setup_cache r) (Runner_run_async r secs w).1.1)
  /\ (forall p secs interval w,
        no_new_facts ∅ (Poller_wait p secs interval w).1.1).

(** the program returns, with a result that satisfies [Q] *)
Definition returns {A} (m : M A) (Q : A -> Prop) : Prop :=
  forall self, exists a self', m self = (Return a, self') /\ Q a.

(** a ledger in which every host in failures or dark is a processed host *)
Definition ledger_ok (st : Stats.t) : Prop :=
  forall h, excluded st h -> h ∈ Stats.processed st.

(** C2 as the specification words it: no wait on a Poller, and the launch
    results folded into the ledger exactly once *)
Definition folded_once (play : Play.t) (task : Task.t) (is_handler : bool)
    (self : PlayBook) : Prop :=
  let initial :=
    (launched task
       (record (on_task_start (Task.name task) is_handler) self)).1.1 in
  let es := new_calls (_run_task play task is_handler) self in
  List.filter is_wait es = []
  /\ List.filter is_fold es = [stats_compute initial false].

(** C5 as the specification words it: every host still listed by the Poller
    is contacted in the results with the timed-out result, and [on_failed]
    is called exactly once for it *)
Definition timed_out_once (task : Task.t) (self : PlayBook) : Prop :=
  forall h, h ∈ pending task self ->
    exists results self',
      _run_task_internal task self = (Return results, self')
      /\ Results.contacted results !! h =
         Some {| Result.changed := None; Result.failed := Some (VInt 1);
                 Result.rc := Some VNone;
                 Result.msg := Some (VStr "timed out");
                 Result.ansible_facts := None |}
      /\ count_on_failed h (new_calls (_run_task_internal task) self) = 1.

(** C9 as the specification words it: whichever way the run ends, every
    restriction pushed has been lifted *)
Definition lifted_on_every_exit (playbook : list Play.t) (self : PlayBook)
  : Prop :=
  inventory (run playbook self).2 = inventory self.

(** C10 as the specification words it: a contacted host whose result
    contains [ansible_facts] and that has no cache entry makes the merge
    raise KeyError *)
Definition raises_without_entry (play : Play.t) (task : Task.t)
    (is_handler : bool) (self : PlayBook) : Prop :=
  forall results self1 h r,
    _run_task_internal task
      (record (on_task_start (Task.name task) is_handler) self)
    = (Return results, self1) ->
    Results.contacted results !! h = Some r ->
    is_Some (Result.ansible_facts r) ->
    SETUP_CACHE self !! h = None ->
    exists h' self',
      _run_task play task is_handler self = (Raise (KeyError h'), self').

(** a triple with one assertion throughout *)
Definition keeps {A} (I : PlayBook -> Prop) (m : M A) : Prop :=
  hoare I m (fun _ => I) (fun _ => I).

End Vocabulary.

(** * Views of the calls and of the cache *)

Section Views.
Context `{Collaborators}.

(** the program only adds calls to those already made *)
Definition appends {A} (m : M A) : Prop := emits (fun _ => True) m.

(** the plays started and the tasks or handlers started among some calls *)
Definition play_start (e : event) : option string :=
  match e with on_play_start n => Some n | _ => None end.

Definition task_start (is_handler : bool) (e : event) : option string :=
  match e with
  | on_task_start n b => if Bool.eqb b is_handler then Some n else None
  | _ => None
  end.

(** the callbacks that announce a setup step, the Runners started with the
    variables of a play as arguments, the setup-phase folds *)
Definition is_setup_mark (e : event) : bool :=
  match e with on_setup_primary | on_setup_secondary => true | _ => false end.

Definition takes_vars (r : Runner.t) : bool :=
  match Runner.module_args r with
  | ArgsVars _ => true
  | ArgsString _ => false
  end.

Definition setup_dispatches (es : list event) : list Runner.t :=
  List.filter takes_vars (omap dispatch_of es).

Definition is_setup_fold (e : event) : bool :=
  match e with stats_compute _ true => true | _ => false end.

(** the calls of a task or a handler after its [on_task_start] *)
Definition task_call (e : event) : Prop :=
  match e with
  | runner_run r | runner_run_async r _ =>
      exists s, Runner.module_args r = ArgsString s
  | stats_compute _ setup => setup = false
  | restrict_to _ | lift_restriction | poller_wait _ _ | on_failed _ _
  | on_notify _ _ => True
  | _ => False
  end.

(** the calls of a setup step *)
Definition setup_call (e : event) : Prop :=
  match e with
  | runner_run r => exists v, Runner.module_args r = ArgsVars v
  | stats_compute _ setup => setup = true
  | on_setup_primary | on_setup_secondary | play_update_vars_files _
  | restrict_to _ | lift_restriction => True
  | _ => False
  end.

(** the calls [_run_task_internal] makes on [task] from [self] (lines
    157-182), and the results it returns (lines 173-180) *)
Definition dispatch_calls (task : Task.t) (self : PlayBook) : list event :=
  restrict_to (task_hosts self)
  :: (if (Task.async_seconds task =? 0)%Z then
        [runner_run (dispatch_runner task self)]
      else
        runner_run_async (dispatch_runner task self) (Task.async_seconds task)
        :: stats_compute (launched task self).1.1 false
        :: (if (0 <? Task.async_poll_interval task)%Z then
              poller_wait (Task.async_seconds task)
                          (Task.async_poll_interval task)
              :: timeouts (pending task self)
            else []))
  ++ [lift_restriction].

Definition dispatch_results (task : Task.t) (self : PlayBook) : Results.t :=
  if (Task.async_seconds task =? 0)%Z then (ran task self).1
  else if (0 <? Task.async_poll_interval task)%Z then
    with_timeouts (polled task self).1.1 (pending task self)
  else (launched task self).1.1.

(** the playbook object when a task is dispatched: [on_task_start] is done *)
Definition started (task : Task.t) (is_handler : bool) (self : PlayBook)
  : PlayBook :=
  record (on_task_start (Task.name task) is_handler) self.

(** one turn of the loop of lines 196-199 on the cache, for a host that has
    an entry: the facts overwrite the entry key by key *)
Definition merge_step (cache : gmap host facts) (hr : host * Result.t)
  : gmap host facts :=
  match Result.ansible_facts hr.2, cache !! hr.1 with
  | Some fs, Some d => <[hr.1 := fs ∪ d]> cache
  | _, _ => cache
  end.

(** the cache once the facts of [contacted] are merged *)
Definition merged (contacted : gmap host Result.t) (cache : gmap host facts)
  : gmap host facts :=
  foldl merge_step cache (map_to_list contacted).

(** from [cache] to [cache'] no host is added or removed and no key of an
    entry is deleted *)
Definition entries_grow (cache cache' : gmap host facts) : Prop :=
  forall h,
    match cache !! h with
    | Some d => exists d', cache' !! h = Some d' /\ dom d ⊆ dom d'
    | None => cache' !! h = None
    end.

(** a handler that [extra] notified after those that already had *)
Definition appended (extra : list host) (x : Task.t) : Task.t :=
  Task.set_notified_by (Task.notified_by x ++ extra) x.

(** how many of the names [names], once templated, are the name of [x] *)
Definition times_named (vs : variables) (names : list string) (x : Task.t)
  : nat :=
  length (List.filter (fun n => named (template n vs) x) names).

(** the contacted hosts that report a change, in the order of iteration
    (lines 209-210) *)
Definition reports_change (hr : host * Result.t) : bool :=
  Result.get_truthy (Result.changed hr.2).

Definition changed_hosts (results : Results.t) : list host :=
  (List.filter reports_change (map_to_list (Results.contacted results))).*1.

(** the hosts that the results of [task] add to the [notified_by] of the
    handler [x]: every host that reports a change, once for each entry of
    [task.notify] that names [x] *)
Definition notifiers (task : Task.t) (hs : list host) (x : Task.t)
  : list host :=
  flat_map
    (fun h => replicate
                (times_named (Task.module_vars task) (Task.notify task) x) h)
    hs.

(** the play once the results of [task] have flagged its handlers *)
Definition notified (task : Task.t) (results : Results.t) (play : Play.t)
  : Play.t :=
  Play.set_handlers
    (map (fun x => appended (notifiers task (changed_hosts results) x) x)
         (Play.handlers play))
    play.

(** the handler name [n] of a task, once templated, is defined in the play *)
Definition handler_defined (play : Play.t) (task : Task.t) (n : string)
  : Prop :=
  existsb (named (template n (Task.module_vars task))) (Play.handlers play)
  = true.

(** the results of the primary setup step of [play] run from [self] *)
Definition primary_results (play : Play.t) (self : PlayBook) : Results.t :=
  (Runner_run (setup_runner play (at_primary play self)) (world self)).1.

(** the calls of the primary and of the secondary setup step of [play] run
    from [self] (lines 242-263) *)
Definition primary_calls (play : Play.t) (self : PlayBook) : list event :=
  [on_setup_primary;
   restrict_to (setup_hosts play self);
   runner_run (setup_runner play (at_primary play self));
   stats_compute (primary_results play self) true;
   lift_restriction].

Definition secondary_calls (play : Play.t) (self : PlayBook) : list event :=
  let play' := Play.set_vars (updated_vars play self).1 play in
  let r := setup_runner play' (at_secondary play self) in
  [on_setup_secondary;
   play_update_vars_files
     (Inventory.list_hosts (inventory self) (hosts (Play.view play)));
   restrict_to (setup_hosts play self);
   runner_run r;
   stats_compute (Runner_run r (updated_vars play self).2).1 true;
   lift_restriction].

(** the playbook object after the primary setup step of a play (line 283);
    the play and the playbook object when its first task starts (line 290);
    the calls of its setup steps *)
Definition after_primary (play : Play.t) (self : PlayBook) : PlayBook :=
  (_do_setup_step play None
     (record (on_play_start (Play.name play)) self)).2.

Definition tasks_start (play : Play.t) (self : PlayBook)
  : Play.t * PlayBook :=
  let self1 := after_primary play self in
  if bool_decide (Play.vars_files play = []) then (play, self1)
  else (Play.set_vars (updated_vars play self1).1 play,
        (_do_setup_step play (Some (Play.vars_files play)) self1).2).

Definition setup_calls (play : Play.t) (self : PlayBook) : list event :=
  primary_calls play (record (on_play_start (Play.name play)) self)
  ++ if bool_decide (Play.vars_files play = []) then []
     else secondary_calls play (after_primary play self).

(** the [on_failed] callbacks among some calls, whatever the host *)
Definition is_failed_callback (e : event) : bool :=
  match e with on_failed _ _ => true | _ => false end.

(** no host has notified the handler *)
Definition unnotified (x : Task.t) : Prop := Task.notified_by x = [].

(** a call of a task or a handler, its [on_task_start] included *)
Definition task_trace (e : event) : Prop :=
  match e with
  | on_task_start _ _ => True
  | _ => task_call e
  end.

(** the variables of the play once [update_vars_files] is done in its
    secondary setup step *)
Definition secondary_vars (play : Play.t) (self : PlayBook) : variables :=
  (updated_vars play (after_primary play self)).1.

(** [x'] is the handler [x] but for its [notified_by] *)
Definition same_but_notified_by (x x' : Task.t) : Prop :=
  Task.name x' = Task.name x
  /\ Task.module_name x' = Task.module_name x
  /\ Task.module_args x' = Task.module_args x
  /\ Task.module_vars x' = Task.module_vars x
  /\ Task.notify x' = Task.notify x
  /\ Task.only_if x' = Task.only_if x
  /\ Task.async_seconds x' = Task.async_seconds x
  /\ Task.async_poll_interval x' = Task.async_poll_interval x
  /\ Task.play x' = Task.play x.

(** how many times the results of [task] make [h] notify the handler [x]:
    once for each entry of [task.notify] that names [x] when the result of
    [h] has a truthy [changed], never otherwise *)
Definition notifications_due (task : Task.t) (results : Results.t)
    (x : Task.t) (h : host) : nat :=
  match Results.contacted results !! h with
  | Some r =>
      if Result.get_truthy (Result.changed r)
      then times_named (Task.module_vars task) (Task.notify task) x
      else 0
  | None => 0
  end.

(** *** When a task raises

    The two places of this file that raise: the subscript of line 199, when
    a contacted host brings non-empty facts and has no cache entry, and
    line 230, when a host reports a change and the task notifies a name
    that no handler of the play has. *)
Definition lacks_entry (cache : gmap host facts) (hr : host * Result.t)
  : bool :=
  bool_decide (cache !! hr.1 = None)
  && match Result.ansible_facts hr.2 with
     | Some fs => negb (bool_decide (fs = ∅))
     | None => false
     end.

Definition merge_stops (cache : gmap host facts) (results : Results.t)
  : bool :=
  existsb (lacks_entry cache) (map_to_list (Results.contacted results)).

Definition names_defined (play : Play.t) (task : Task.t) : bool :=
  forallb
    (fun n => existsb (named (template n (Task.module_vars task)))
                      (Play.handlers play))
    (Task.notify task).

Definition notify_stops (play : Play.t) (task : Task.t)
    (results : Results.t) : bool :=
  existsb reports_change (map_to_list (Results.contacted results))
  && negb (names_defined play task).

Definition task_stops (play : Play.t) (task : Task.t) (is_handler : bool)
    (self : PlayBook) : bool :=
  let results := dispatch_results task (started task is_handler self) in
  merge_stops (SETUP_CACHE self) results || notify_stops play task results.

(** does some task of [l], when its turn comes, meet one of the two; the
    same for the handlers at the positions [l], for a play and for the
    plays of a run *)
Fixpoint tasks_stop (l : list Task.t) (play : Play.t) (self : PlayBook)
  : bool :=
  match l with
  | [] => false
  | task :: l' =>
      task_stops play task false self
      || match _run_task play task false self with
         | (Return play', self') => tasks_stop l' play' self'
         | (Raise _, _) => false
         end
  end.

Definition handler_stops (play : Play.t) (i : nat) (self : PlayBook) : bool :=
  match Play.handlers play !! i with
  | Some handler =>
      if (0 <? length (Task.notified_by handler))%nat then
        task_stops play handler true
                   (restricted (Task.notified_by handler) self)
      else false
  | None => false
  end.

Fixpoint handlers_stop (l : list nat) (play : Play.t) (self : PlayBook)
  : bool :=
  match l with
  | [] => false
  | i :: l' =>
      handler_stops play i self
      || match run_handler play i self with
         | (Return play', self') => handlers_stop l' play' self'
         | (Raise _, _) => false
         end
  end.

Definition play_stops (play : Play.t) (self : PlayBook) : bool :=
  let start := tasks_start play self in
  tasks_stop (Play.tasks start.1) start.1 start.2
  || match run_tasks start.1 start.2 with
     | (Return play', self') =>
         handlers_stop (seq 0 (length (Play.handlers play'))) play' self'
     | (Raise _, _) => false
     end.

Fixpoint run_stops (playbook : list Play.t) (self : PlayBook) : bool :=
  match playbook with
  | [] => false
  | play :: rest =>
      play_stops play (set_SETUP_CACHE ∅ self)
      || match _run_play play (set_SETUP_CACHE ∅ self) with
         | (Return _, self') => run_stops rest self'
         | (Raise _, _) => false
         end
  end.

(** the exceptions of the two places *)
Definition stopped (e : exn) : Prop :=
  (exists h, e = KeyError h) \/ exists n, e = undefined_handler n.

(** what decides the two: the facts a result carries and whether it reports
    a change; [failed], [rc] and [msg] are not read *)
Definition signs (r : Result.t) : option facts * bool :=
  (Result.ansible_facts r, Result.get_truthy (Result.changed r)).

End Views.

Arguments dispatch_calls : simpl never.
Arguments dispatch_results : simpl never.
Arguments primary_calls : simpl never.
Arguments secondary_calls : simpl never.

(** * A concrete fleet

    Collaborators and playbooks to run the orchestrator on: three hosts, of
    which [h3] is unreachable; modules that report a change, fail on [h2],
    return facts or return nothing. *)

Module Demo.

Definition ok_result : Result.t :=
  {| Result.changed := None; Result.failed := None; Result.rc := None;
     Result.msg := None; Result.ansible_facts := None |}.

Definition with_facts (fs : facts) : Result.t :=
  {| Result.changed := None; Result.failed := None; Result.rc := None;
     Result.msg := None; Result.ansible_facts := Some fs |}.

Definition module_result (strict : bool) (r : Runner.t) (h : host)
  : Result.t :=
  let m := Runner.module_name r in
  if String.eqb m "setup" then
    match Runner.module_args r with
    | ArgsVars v =>
        if bool_decide (is_Some (v !! "gather"))
        then with_facts {["ansible_os" := VStr "linux"]}
        else ok_result
    | ArgsString _ => ok_result
    end
  else if String.eqb m "touch" then
    {| Result.changed := Some (VBool true); Result.failed := None;
       Result.rc := None; Result.msg := None; Result.ansible_facts := None |}
  else if String.eqb m "fail_h2" then
    if String.eqb h "h2" then
      {| Result.changed := None; Result.failed := Some (VInt 1);
         Result.rc := None; Result.msg := None;
         Result.ansible_facts := None |}
    else ok_result
  else if String.eqb m "facts" then
    if strict && bool_decide (Runner.setup_cache r !! h = None)
    then ok_result
    else with_facts {["k" := VInt 1]}
  else if String.eqb m "nofacts" then with_facts ∅
  else ok_result.

Definition reachable (h : host) : bool := negb (String.eqb h "h3").

Definition listed (r : Runner.t) : list host :=
  Inventory.list_hosts (Runner.inventory r) (Runner.pattern r).

Definition results_of (strict : bool) (r : Runner.t) : Results.t :=
  {| Results.contacted :=
       list_to_map (map (fun h => (h, module_result strict r h))
                        (List.filter reachable (listed r)));
     Results.dark :=
       list_to_map (map (fun h => (h, ok_result))
                        (List.filter (fun h => negb (reachable h))
                                     (listed r))) |}.

Definition count_as (r : Result.t) : status :=
  if Result.get_truthy (Result.failed r) then st_failed
  else if Result.get_truthy (Result.changed r) then st_changed
  else st_ok.

Definition collab (strict : bool) : Collaborators :=
  {| World := unit;
     Poller := list host;
     Runner_run r w := (results_of strict r, w);
     Runner_run_async r secs w :=
       ((results_of strict r, List.filter reachable (listed r)), w);
     Poller_wait p secs interval w :=
       (({| Results.contacted := ∅; Results.dark := ∅ |}, p), w);
     hosts_to_poll p := p;
     template text vs := text;
     update_vars_files p hs cache w := (Play.vars p, w);
     classify := count_as |}.

Definition view : PlayView :=
  {| hosts := "all"; remote_user := "root"; remote_port := 22;
     transport := "paramiko"; sudo := false; sudo_user := "root" |}.

Definition task (name module : string) (notify : list string)
    (async_seconds async_poll_interval : Z) : Task.t :=
  {| Task.name := name; Task.module_name := module; Task.module_args := "";
     Task.module_vars := ∅; Task.notify := notify; Task.only_if := "True";
     Task.async_seconds := async_seconds;
     Task.async_poll_interval := async_poll_interval;
     Task.notified_by := []; Task.play := view |}.

Definition play (vs : variables) (tasks handlers : list Task.t) : Play.t :=
  {| Play.name := "demo"; Play.view := view; Play.vars := vs;
     Play.vars_files := []; Play.tasks := tasks; Play.handlers := handlers |}.

Definition gather : variables := {["gather" := VBool true]}.

Definition inventory0 : Inventory.t :=
  {| Inventory.get_hosts := fun _ => ["h1"; "h2"; "h3"];
     Inventory.restriction := [] |}.

Definition strict : Collaborators := collab true.
Definition lax : Collaborators := collab false.

Definition start (c : Collaborators) (w : @World c) : @PlayBook c :=
  {| inventory := inventory0; SETUP_CACHE := ∅; stats := Stats.empty;
     world := w; calls := [] |}.

Definition start_strict : @PlayBook strict := start strict tt.
Definition start_lax : @PlayBook lax := start lax tt.

Definition forget : Task.t := task "background" "touch" [] 10 0.
Definition slow : Task.t := task "slow" "touch" [] 10 2.
Definition report : Task.t := task "report" "facts" [] 0 0.
Definition probe : Task.t := task "probe" "nofacts" [] 0 0.

Definition bad_play : Play.t :=
  play gather [task "t1" "touch" ["restart"] 0 0]
       [task "restart" "touch" ["restart-xyz"] 0 0].

Definition probe_play : Play.t := play ∅ [probe] [].
Definition report_play : Play.t := play ∅ [report] [].

Definition async_play : Play.t := play gather [forget; slow] [].

Definition main_play : Play.t :=
  play gather
    [task "t1" "touch" ["restart"] 0 0; task "t2" "fail_h2" [] 0 0;
     task "t3" "ping" [] 0 0]
    [task "restart" "touch" [] 0 0].

Section Strict.
#[local] Existing Instance strict.

(** the playbook object when the first task of [async_play] starts *)
Definition ready : PlayBook :=
  (before_handlers (play gather [] []) (record on_start start_strict)).2.

(** the calls of a run of [main_play] twice; the Runner of the handler of
    the first play and the Runner of the primary setup of the second *)
Definition log := new_calls (run [main_play; main_play]) start_strict.

Definition linux : gmap host facts :=
  {["h1" := {["ansible_os" := VStr "linux"]};
    "h2" := {["ansible_os" := VStr "linux"]}]}.

Definition restart_runner : Runner.t :=
  {| Runner.pattern := "all";
     Runner.inventory :=
       {| Inventory.get_hosts := fun _ => ["h1"; "h2"; "h3"];
          Inventory.restriction := [["h1"]; ["h1"; "h2"]] |};
     Runner.module_name := "touch";
     Runner.module_args := ArgsString "";
     Runner.module_vars := Some ∅;
     Runner.setup_cache := linux;
     Runner.conditional := Some "True";
     Runner.view := view |}.

Definition second_setup_runner : Runner.t :=
  {| Runner.pattern := "all";
     Runner.inventory :=
       {| Inventory.get_hosts := fun _ => ["h1"; "h2"; "h3"];
          Inventory.restriction := [["h1"]] |};
     Runner.module_name := "setup";
     Runner.module_args := ArgsVars gather;
     Runner.module_vars := None;
     Runner.setup_cache := ∅;
     Runner.conditional := None;
     Runner.view := view |}.

End Strict.

Section Lax.
#[local] Existing Instance lax.

(** the playbook object when the task of [probe_play], or of [report_play],
    starts: the setup step returned no facts, the cache has no entry *)
Definition bare : PlayBook :=
  (before_handlers (play ∅ [] []) (record on_start start_lax)).2.

Definition dispatched (t : Task.t) : outcome Results.t * PlayBook :=
  _run_task_internal t (record (on_task_start (Task.name t) false) bare).

Definition reported : Results.t :=
  match (dispatched report).1 with
  | Return results => results
  | Raise _ => {| Results.contacted := ∅; Results.dark := ∅ |}
  end.

End Lax.

End Demo.

(** * More cases on the fleet *)

Module Cases.

Definition touch : Task.t := Demo.task "t1" "touch" ["restart"] 0 0.
Definition restart : Task.t := Demo.task "restart" "touch" [] 0 0.

(** the handler [restart] once [h1] and [h2] have notified it *)
Definition notified_restart : Task.t :=
  Task.set_notified_by ["h1"; "h2"] restart.

Definition handler_play : Play.t :=
  Demo.play Demo.gather [] [notified_restart].

Definition idle_play : Play.t := Demo.play Demo.gather [] [restart].

(** a task that notifies a handler no play defines *)
Definition dangling : Task.t :=
  Demo.task "restart" "touch" ["restart-xyz"] 0 0.

(** collaborators like the careful ones, but for a Poller that lists every
    host it still waits for twice *)
Definition stuttering : Collaborators :=
  {| World := unit;
     Poller := list host;
     Runner_run r w := (Demo.results_of true r, w);
     Runner_run_async r secs w :=
       ((Demo.results_of true r,
         List.filter Demo.reachable (Demo.listed r)), w);
     Poller_wait p secs interval w :=
       (({| Results.contacted := ∅; Results.dark := ∅ |}, p), w);
     hosts_to_poll p := p ++ p;
     template text vs := text;
     update_vars_files p hs cache w := (Play.vars p, w);
     classify := Demo.count_as |}.

(** a play whose first task fails on [h2] and whose second reports a fact *)
Definition report_after_failure : Play.t :=
  Demo.play Demo.gather [Demo.task "t2" "fail_h2" [] 0 0; Demo.report] [].

(** an inventory of [h2] and [h3] only *)
Definition small_inventory : Inventory.t :=
  {| Inventory.get_hosts := fun _ => ["h2"; "h3"];
     Inventory.restriction := [] |}.

Section Strict.
#[local] Existing Instance Demo.strict.

(** the playbook object after a run of [main_play] on the small inventory:
    [h2] has failed and [h3] is unreachable *)
Definition stranded : PlayBook :=
  (run [Demo.main_play]
     {| inventory := small_inventory; SETUP_CACHE := ∅;
        stats := Stats.empty; world := tt; calls := [] |}).2.

(** what the task [report] is answered when it is dispatched from [ready] *)
Definition facts_reported : Results.t :=
  dispatch_results Demo.report (started Demo.report false Demo.ready).

End Strict.

End Cases.

(** * Properties *)

Section Properties.
Context `{Collaborators}.

(** ** Bookkeeping *)

Lemma record_all_nil self : record_all [] self = self.
Proof. destruct self. unfold record_all. simpl. by rewrite app_nil_r. Qed.

Lemma record_all_app es1 es2 self :
  record_all es2 (record_all es1 self) = record_all (es1 ++ es2) self.
Proof. unfold record_all. simpl. by rewrite app_assoc. Qed.

Lemma record_all_cons e es self :
  record_all es (record e self) = record_all (e :: es) self.
Proof. unfold record. by rewrite record_all_app. Qed.

Lemma new_calls_eq {A} (m : M A) self es :
  calls (m self).2 = calls self ++ es -> new_calls m self = es.
Proof. unfold new_calls. intros ->. by rewrite drop_app_length. Qed.

(** ** Rules for triples *)

Lemma hoare_ret {A} (a : A) (Q : A -> PlayBook -> Prop) E :
  hoare (Q a) (ret a) Q E.
Proof. by intros self HP. Qed.

Lemma hoare_bind {A B} P (m : M A) (f : A -> M B) R Q E :
  hoare P m R E ->
  (forall a, hoare (R a) (f a) Q E) ->
  hoare P (bind m f) Q E.
Proof.
  intros Hm Hf self HP. unfold bind. specialize (Hm self HP).
  destruct (m self) as [[a|e] self']; [|done].
  by apply Hf.
Qed.

Lemma hoare_conseq {A} (P P' : PlayBook -> Prop) (m : M A)
    (Q Q' : A -> PlayBook -> Prop) (E E' : exn -> PlayBook -> Prop) :
  hoare P' m Q' E' ->
  (forall self, P self -> P' self) ->
  (forall a self, Q' a self -> Q a self) ->
  (forall e self, E' e self -> E e self) ->
  hoare P m Q E.
Proof.
  intros Hm HP HQ HE self Hself. specialize (Hm self (HP self Hself)).
  destruct (m self) as [[a|e] self']; auto.
Qed.

Lemma hoare_foldM {A B} (I : B -> PlayBook -> Prop) (f : B -> A -> M B) E l :
  (forall acc x, x ∈ l -> hoare (I acc) (f acc x) I E) ->
  forall acc, hoare (I acc) (foldM f l acc) I E.
Proof.
  induction l as [|x l IH]; intros Hf acc; simpl.
  - apply hoare_ret.
  - eapply hoare_bind.
    + apply Hf. left.
    + intros acc'. apply IH. intros acc'' y Hy. apply Hf. by right.
Qed.

(** ** Rules for calls *)

Lemma emits_ret {A} P (a : A) : emits P (ret a).
Proof. intros self. exists []. simpl. by rewrite app_nil_r. Qed.

Lemma emits_get P : emits P get.
Proof. intros self. exists []. simpl. by rewrite app_nil_r. Qed.

Lemma emits_call (P : event -> Prop) e : P e -> emits P (call e).
Proof. intros He self. exists [e]. simpl. split; [done|]. by constructor. Qed.

Lemma emits_quiet {A} P (m : M A) :
  (forall self, calls (m self).2 = calls self) -> emits P m.
Proof. intros Hm self. exists []. rewrite Hm. by rewrite app_nil_r. Qed.

Lemma emits_bind {A B} P (m : M A) (f : A -> M B) :
  emits P m -> (forall a, emits P (f a)) -> emits P (bind m f).
Proof.
  intros Hm Hf self. unfold bind.
  destruct (Hm self) as (es & Hes & HP).
  destruct (m self) as [[a|e] self']; simpl in *.
  - destruct (Hf a self') as (es' & Hes' & HP').
    exists (es ++ es'). rewrite Hes', Hes, app_assoc.
    split; [done|]. by apply Forall_app.
  - by exists es.
Qed.

Lemma emits_foldM {A B} P (f : B -> A -> M B) l :
  (forall acc x, emits P (f acc x)) -> forall acc, emits P (foldM f l acc).
Proof.
  intros Hf. induction l as [|x l IH]; intros acc; simpl.
  - apply emits_ret.
  - apply emits_bind; [apply Hf|apply IH].
Qed.

Lemma emits_impl {A} (P P' : event -> Prop) (m : M A) :
  (forall e, P e -> P' e) -> emits P m -> emits P' m.
Proof.
  intros HPP Hm self. destruct (Hm self) as (es & Hes & HP).
  exists es. split; [done|]. by eapply Forall_impl.
Qed.

Lemma emits_new_calls {A} P (m : M A) self :
  emits P m ->
  calls (m self).2 = calls self ++ new_calls m self
  /\ Forall P (new_calls m self).
Proof.
  intros Hm. destruct (Hm self) as (es & Hes & HP).
  by rewrite (new_calls_eq m self es Hes).
Qed.

(** ** Handler flagging *)

Lemma flag_loop handler_name host0 handlers :
  forall found seen self,
    foldM (flag_one handler_name host0) handlers (found, seen) self =
    (Return (found || existsb (named handler_name) handlers,
             seen ++ map (flagged handler_name host0) handlers),
     record_all (notifications handler_name host0 handlers) self).
Proof.
  induction handlers as [|x handlers IH]; intros found seen self.
  - simpl. by rewrite orb_false_r, app_nil_r, record_all_nil.
  - simpl. unfold bind, notifications, flagged, named in *. simpl.
    destruct (String.eqb handler_name (Task.name x)) eqn:Hx; simpl.
    + unfold call, modify, ret. rewrite IH. simpl.
      rewrite record_all_cons, <- app_assoc, orb_true_r. done.
    + unfold ret. rewrite IH. rewrite <- app_assoc. done.
Qed.

Lemma flag_handler_eq handlers handler_name host0 self :
  _flag_handler handlers handler_name host0 self =
  if existsb (named handler_name) handlers then
    (Return (map (flagged handler_name host0) handlers),
     record_all (notifications handler_name host0 handlers) self)
  else (Raise (undefined_handler handler_name), self).
Proof.
  unfold _flag_handler, bind. rewrite flag_loop. simpl.
  destruct (existsb (named handler_name) handlers) eqn:Hex; simpl.
  - done.
  - unfold raise, undefined_handler, notifications.
    assert (List.filter (named handler_name) handlers = []) as ->.
    { clear -Hex. induction handlers as [|x l IH]; simpl in *; [done|].
      apply orb_false_iff in Hex as [-> Hl]. auto. }
    simpl. by rewrite record_all_nil.
Qed.

(** C6. [_flag_handler] scans the handlers in order.  When some handler has
    the name, it returns normally the same handlers in the same order, each
    with every field as it was but for [notified_by]: a handler with that
    name has the host appended at the end of its [notified_by], the others
    have theirs unchanged.  The calls made are one [on_notify(host, name)]
    per matching handler, in list order.  When no handler has that name it
    raises the AnsibleError "change handler (X) is not defined" and leaves
    the playbook object, its ledger included, as it was: no host is counted
    as failed. *)
Theorem flag_handler_spec handlers handler_name host0 self :
  _flag_handler handlers handler_name host0 self =
  if existsb (fun x => String.eqb handler_name (Task.name x)) handlers then
    (Return
       (map (fun x =>
               {| Task.name := Task.name x;
                  Task.module_name := Task.module_name x;
                  Task.module_args := Task.module_args x;
                  Task.module_vars := Task.module_vars x;
                  Task.notify := Task.notify x;
                  Task.only_if := Task.only_if x;
                  Task.async_seconds := Task.async_seconds x;
                  Task.async_poll_interval := Task.async_poll_interval x;
                  Task.notified_by :=
                    if String.eqb handler_name (Task.name x)
                    then Task.notified_by x ++ [host0]
                    else Task.notified_by x;
                  Task.play := Task.play x |})
            handlers),
     record_all
       (map (fun x => on_notify host0 (Task.name x))
            (List.filter (fun x => String.eqb handler_name (Task.name x))
                         handlers))
       self)
  else
    (Raise (AnsibleError
              (String.append "change handler ("
                 (String.append handler_name ") is not defined"))),
     self).
Proof.
  rewrite flag_handler_eq.
  change (existsb (fun x => String.eqb handler_name (Task.name x)) handlers)
    with (existsb (named handler_name) handlers).
  destruct (existsb (named handler_name) handlers); [|done].
  f_equal. f_equal. apply map_ext. intros x. unfold flagged, named.
  destruct (String.eqb handler_name (Task.name x)); by destruct x.
Qed.

(** ** Dispatch *)

Lemma lift_restrict_to hs inv :
  Inventory.lift_restriction (Inventory.restrict_to hs inv) = inv.
Proof. by destruct inv. Qed.

Lemma poll_loop pending0 :
  forall results self,
    foldM fail_timed_out pending0 results self =
    (Return (with_timeouts results pending0),
     record_all (timeouts pending0) self).
Proof.
  induction pending0 as [|h l IH]; intros results self; simpl.
  - by rewrite record_all_nil.
  - unfold bind, fail_timed_out, call, modify, ret, bind. simpl.
    rewrite IH. by rewrite record_all_cons.
Qed.

Lemma with_timeouts_contacted pending0 :
  forall results h,
    Results.contacted (with_timeouts results pending0) !! h =
    if bool_decide (h ∈ pending0) then Some timed_out
    else Results.contacted results !! h.
Proof.
  unfold with_timeouts.
  induction pending0 as [|x l IH]; intros results h; simpl.
  - done.
  - rewrite IH. simpl.
    destruct (decide (h ∈ l)) as [Hl|Hl].
    + rewrite !bool_decide_eq_true_2; [done| |done]. by right.
    + rewrite (bool_decide_eq_false_2 _ Hl).
      destruct (decide (x = h)) as [->|Hx].
      * rewrite lookup_insert_eq. rewrite bool_decide_eq_true_2; [done|left].
      * rewrite lookup_insert_ne by done.
        rewrite bool_decide_eq_false_2; [done|].
        intros [->|?]%elem_of_cons; done.
Qed.

Lemma async_poll_eq poller secs interval self :
  _async_poll poller secs interval self =
  let pw := Poller_wait poller secs interval (world self) in
  (Return (with_timeouts pw.1.1 (hosts_to_poll pw.1.2)),
   record_all (timeouts (hosts_to_poll pw.1.2))
     (set_world pw.2 (record (poller_wait secs interval) self))).
Proof.
  unfold _async_poll, do_poller_wait, bind, call, modify. simpl.
  destruct (Poller_wait poller secs interval (world self))
    as [[results poller'] w] eqn:Hw.
  simpl. by rewrite poll_loop.
Qed.

(** The three ways through [_run_task_internal]. *)
Lemma run_task_internal_sync task self :
  Task.async_seconds task = 0%Z ->
  _run_task_internal task self =
  (Return (ran task self).1,
   moved_on self (stats self) (ran task self).2
     [restrict_to (task_hosts self);
      runner_run (dispatch_runner task self);
      lift_restriction]).
Proof.
  intros Hs. unfold _run_task_internal, bind, get, inventory_restrict_to,
    inventory_lift_restriction, do_runner_run, call, modify, bind, ret.
  simpl. rewrite Hs. simpl.
  unfold ran, dispatch_runner, restricted, moved_on.
  destruct (Runner_run _ _) as [results w] eqn:Hr. simpl.
  destruct self; simpl in *. unfold record_all, set_inventory. simpl.
  rewrite <- !app_assoc. simpl. by rewrite lift_restrict_to.
Qed.

Lemma run_task_internal_forget task self :
  Task.async_seconds task <> 0%Z ->
  (Task.async_poll_interval task <= 0)%Z ->
  _run_task_internal task self =
  (Return (launched task self).1.1,
   moved_on self
     (Stats.compute (launched task self).1.1 false (stats self))
     (launched task self).2
     [restrict_to (task_hosts self);
      runner_run_async (dispatch_runner task self) (Task.async_seconds task);
      stats_compute (launched task self).1.1 false;
      lift_restriction]).
Proof.
  intros Hs Hi. apply Z.eqb_neq in Hs. apply Z.ltb_ge in Hi.
  unfold _run_task_internal, bind, get, inventory_restrict_to,
    inventory_lift_restriction, do_runner_run_async, stats_do_compute,
    call, modify, bind, ret.
  simpl. rewrite Hs. simpl.
  unfold launched, dispatch_runner, restricted, moved_on.
  destruct (Runner_run_async _ _ _) as [[results poller] w] eqn:Hr. simpl.
  rewrite Hi. simpl.
  destruct self; simpl in *. unfold record_all, set_inventory. simpl.
  rewrite <- !app_assoc. simpl. by rewrite lift_restrict_to.
Qed.

Lemma run_task_internal_polled task self :
  Task.async_seconds task <> 0%Z ->
  (0 < Task.async_poll_interval task)%Z ->
  _run_task_internal task self =
  (Return (with_timeouts (polled task self).1.1 (pending task self)),
   moved_on self
     (Stats.compute (launched task self).1.1 false (stats self))
     (polled task self).2
     ([restrict_to (task_hosts self);
       runner_run_async (dispatch_runner task self) (Task.async_seconds task);
       stats_compute (launched task self).1.1 false;
       poller_wait (Task.async_seconds task) (Task.async_poll_interval task)]
      ++ timeouts (pending task self) ++ [lift_restriction])).
Proof.
  intros Hs Hi. apply Z.eqb_neq in Hs. apply Z.ltb_lt in Hi.
  unfold _run_task_internal, bind, get, inventory_restrict_to,
    inventory_lift_restriction, do_runner_run_async, stats_do_compute,
    call, modify, bind, ret.
  simpl. rewrite Hs. simpl.
  unfold pending, polled, launched, dispatch_runner, restricted, moved_on.
  destruct (Runner_run_async _ _ _) as [[results poller] w] eqn:Hr. simpl.
  rewrite Hi. rewrite async_poll_eq. simpl.
  destruct (Poller_wait _ _ _ _) as [[results' poller'] w'] eqn:Hw. simpl.
  destruct self; simpl in *. unfold record_all, set_inventory. simpl.
  rewrite <- !app_assoc. simpl. by rewrite lift_restrict_to.
Qed.

Lemma count_on_failed_timeouts h pending0 :
  NoDup pending0 -> h ∈ pending0 ->
  count_on_failed h (timeouts pending0) = 1.
Proof.
  unfold count_on_failed, timeouts.
  induction 1 as [|x l Hx Hl IH]; intros Hin; [by apply elem_of_nil in Hin|].
  simpl. destruct (decide (x = h)) as [->|Hne].
  - rewrite bool_decide_eq_true_2 by done. simpl. f_equal.
    clear -Hx. induction l as [|y l IH]; simpl; [done|].
    rewrite bool_decide_eq_false_2.
    + apply IH. intros ?. apply Hx. by right.
    + intros ->. apply Hx. left.
  - rewrite bool_decide_eq_false_2 by done. apply IH.
    apply elem_of_cons in Hin as [->|]; done.
Qed.

Lemma count_on_failed_listed h pending0 :
  count_on_failed h (timeouts pending0) = count_listed h pending0.
Proof.
  unfold count_on_failed, count_listed, timeouts.
  induction pending0 as [|x l IH]; simpl; [done|].
  destruct (bool_decide (x = h)); simpl; by rewrite IH.
Qed.

Lemma filter_on_failed_timeouts h pending0 :
  List.filter (is_on_failed h) (timeouts pending0) =
  replicate (count_listed h pending0) (on_failed h timed_out).
Proof.
  unfold timeouts, count_listed.
  induction pending0 as [|x l IH]; [done|]. simpl.
  destruct (bool_decide (x = h)) eqn:Hx; [|done].
  apply bool_decide_eq_true in Hx as ->. simpl. by rewrite IH.
Qed.

Lemma count_listed_NoDup h (l : list host) :
  NoDup l -> h ∈ l -> count_listed h l = 1.
Proof.
  intros Hnd Hin.
  rewrite <- (count_on_failed_listed h l).
  by apply count_on_failed_timeouts.
Qed.

(** C5 (as the code has it). An async task that is polled returns normally,
    and each host [h] still listed in [poller.hosts_to_poll] when the wait
    returns is contacted in the results the dispatch returns, with the result
    [{failed: 1, rc: None, msg: "timed out"}].  The calls of the dispatch are
    the restriction, the launch, the fold of the launch results, the wait,
    one [on_failed] with that result per entry of the list, in the order of
    the list, and the lift.  So [on_failed] is called for [h] once for each
    time the Poller lists it: exactly once when the list has no host twice,
    more than once otherwise. *)
Theorem async_timeout_recorded task self h :
  Task.async_seconds task <> 0%Z ->
  (0 < Task.async_poll_interval task)%Z ->
  h ∈ pending task self ->
  let reason :=
    {| Result.changed := None; Result.failed := Some (VInt 1);
       Result.rc := Some VNone; Result.msg := Some (VStr "timed out");
       Result.ansible_facts := None |} in
  exists results self',
    _run_task_internal task self = (Return results, self')
    /\ Results.contacted results !! h = Some reason
    /\ new_calls (_run_task_internal task) self =
       [restrict_to (task_hosts self);
        runner_run_async (dispatch_runner task self)
                         (Task.async_seconds task);
        stats_compute (launched task self).1.1 false;
        poller_wait (Task.async_seconds task)
                    (Task.async_poll_interval task)]
       ++ map (fun h' => on_failed h' reason) (pending task self)
       ++ [lift_restriction]
    /\ List.filter (is_on_failed h)
                   (new_calls (_run_task_internal task) self)
       = replicate (count_listed h (pending task self)) (on_failed h reason)
    /\ (NoDup (pending task self) ->
        List.filter (is_on_failed h)
                    (new_calls (_run_task_internal task) self)
        = [on_failed h reason]).
Proof.
  intros Hs Hi Hin reason.
  pose proof (run_task_internal_polled task self Hs Hi) as Heq.
  eexists _, _. split; [exact Heq|].
  assert (new_calls (_run_task_internal task) self =
          [restrict_to (task_hosts self);
           runner_run_async (dispatch_runner task self)
                            (Task.async_seconds task);
           stats_compute (launched task self).1.1 false;
           poller_wait (Task.async_seconds task)
                       (Task.async_poll_interval task)]
          ++ timeouts (pending task self) ++ [lift_restriction]) as Hnew.
  { apply new_calls_eq. by rewrite Heq. }
  assert (List.filter (is_on_failed h)
                      (new_calls (_run_task_internal task) self)
          = replicate (count_listed h (pending task self))
                      (on_failed h reason)) as Hfilter.
  { rewrite Hnew. simpl. rewrite List.filter_app. simpl.
    rewrite app_nil_r. apply filter_on_failed_timeouts. }
  split; [|split; [exact Hnew|split; [exact Hfilter|]]].
  - rewrite with_timeouts_contacted. by rewrite bool_decide_eq_true_2.
  - intros Hnd. rewrite Hfilter. by rewrite count_listed_NoDup.
Qed.

(** ** The setup step *)

Lemma load_loop l :
  forall self,
    forM_ l load_host self =
    (Return tt, set_SETUP_CACHE (foldl load_step (SETUP_CACHE self) l) self).
Proof.
  unfold forM_.
  induction l as [|[h r] l IH]; intros self; simpl.
  - by destruct self.
  - unfold bind, load_host, load_step. simpl.
    destruct (Result.ansible_facts r); unfold modify, ret; rewrite IH;
      by destruct self.
Qed.

Lemma foldl_load_step_lookup (l : list (host * Result.t)) :
  NoDup l.*1 ->
  forall (cache : gmap host facts) (h : host),
    foldl load_step cache l !! h =
    match (list_to_map l : gmap host Result.t) !! h ≫= Result.ansible_facts
    with
    | Some fs => Some fs
    | None => cache !! h
    end.
Proof.
  induction l as [|[k r] l IH]; intros Hnd cache h; simpl; [done|].
  apply NoDup_cons in Hnd as [Hk Hnd]. rewrite (IH Hnd).
  destruct (decide (k = h)) as [->|Hne].
  - rewrite lookup_insert_eq. simpl.
    rewrite (not_elem_of_list_to_map_1 _ _ Hk). simpl.
    unfold load_step. simpl. destruct (Result.ansible_facts r); [|done].
    by rewrite lookup_insert_eq.
  - rewrite lookup_insert_ne by done.
    destruct (list_to_map l !! h ≫= Result.ansible_facts); [done|].
    unfold load_step. simpl. destruct (Result.ansible_facts r); [|done].
    by rewrite lookup_insert_ne.
Qed.

Lemma lookup_loaded setup_ok cache h :
  loaded setup_ok cache !! h =
  match facts_of setup_ok h with
  | Some fs => Some fs
  | None => cache !! h
  end.
Proof.
  unfold loaded, facts_of.
  rewrite foldl_load_step_lookup by apply NoDup_fst_map_to_list.
  by rewrite list_to_map_to_list.
Qed.

Lemma do_setup_step_primary play self :
  let out := Runner_run (setup_runner play (at_primary play self))
                        (world self) in
  _do_setup_step play None self =
  (Return (play, out.1),
   {| inventory := inventory self;
      SETUP_CACHE := loaded (Results.contacted out.1) (SETUP_CACHE self);
      stats := Stats.compute out.1 true (stats self);
      world := out.2;
      calls := calls self ++
        [on_setup_primary;
         restrict_to (setup_hosts play self);
         runner_run (setup_runner play (at_primary play self));
         stats_compute out.1 true;
         lift_restriction] |}).
Proof.
  unfold _do_setup_step, bind, get, inventory_restrict_to,
    inventory_lift_restriction, do_runner_run, stats_do_compute,
    call, modify, bind, ret. simpl.
  unfold at_primary, restricted. simpl.
  destruct (Runner_run _ _) as [results w] eqn:Hr. simpl.
  unfold load_facts. rewrite load_loop. simpl.
  unfold loaded, set_SETUP_CACHE, setup_hosts. simpl.
  rewrite lift_restrict_to, <- !app_assoc. done.
Qed.

Lemma do_setup_step_secondary play vars_files self :
  let play' := Play.set_vars (updated_vars play self).1 play in
  let out := Runner_run (setup_runner play' (at_secondary play self))
                        (updated_vars play self).2 in
  _do_setup_step play (Some vars_files) self =
  (Return (play', out.1),
   {| inventory := inventory self;
      SETUP_CACHE := SETUP_CACHE self;
      stats := Stats.compute out.1 true (stats self);
      world := out.2;
      calls := calls self ++
        [on_setup_secondary;
         play_update_vars_files
           (Inventory.list_hosts (inventory self) (hosts (Play.view play)));
         restrict_to (setup_hosts play self);
         runner_run (setup_runner play' (at_secondary play self));
         stats_compute out.1 true;
         lift_restriction] |}).
Proof.
  destruct self as [inv cache st w cs].
  cbv [_do_setup_step do_update_vars_files bind get
    inventory_restrict_to inventory_lift_restriction do_runner_run
    stats_do_compute call modify ret at_secondary updated_vars restricted
    set_inventory set_stats set_world record record_all
    inventory SETUP_CACHE stats world calls setup_hosts].
  destruct (update_vars_files _ _ _ _) as [v w0] eqn:Hu.
  cbv [fst snd Play.set_vars Play.view].
  destruct (Runner_run _ _) as [results w'] eqn:Hr.
  by rewrite lift_restrict_to, <- !app_assoc.
Qed.

(** C4. The primary setup step returns normally and leaves in the cache, for
    each contacted host whose result carries [ansible_facts], exactly that
    map; the entry of any other host is as it was.  The secondary setup step
    leaves the whole cache as it was. *)
Theorem setup_step_cache play self :
  (let results :=
     (Runner_run (setup_runner play (at_primary play self)) (world self)).1 in
   (_do_setup_step play None self).1 = Return (play, results)
   /\ forall h,
       SETUP_CACHE (_do_setup_step play None self).2 !! h =
       match facts_of (Results.contacted results) h with
       | Some fs => Some fs
       | None => SETUP_CACHE self !! h
       end)
  /\ (forall vars_files,
        SETUP_CACHE (_do_setup_step play (Some vars_files) self).2 =
        SETUP_CACHE self).
Proof.
  split.
  - rewrite do_setup_step_primary. simpl. split; [done|].
    intros h. apply lookup_loaded.
  - intros vars_files. by rewrite do_setup_step_secondary.
Qed.

(** ** The fact merge of a task *)

Lemma same_but_entries_refl self : same_but_entries self self.
Proof. by unfold same_but_entries. Qed.

Lemma same_but_entries_trans s1 s2 s3 :
  same_but_entries s1 s2 -> same_but_entries s2 s3 -> same_but_entries s1 s3.
Proof.
  unfold same_but_entries. intros (?&?&?&?&?) (?&?&?&?&?).
  repeat split; congruence.
Qed.

Lemma cache_setitem_present host0 k v d self :
  SETUP_CACHE self !! host0 = Some d ->
  exists self',
    cache_setitem host0 k v self = (Return tt, self')
    /\ same_but_entries self self'.
Proof.
  intros Hd. unfold cache_setitem. rewrite Hd. eexists. split; [done|].
  unfold same_but_entries. simpl. repeat split; try done.
  rewrite dom_insert_L. apply elem_of_dom_2 in Hd.
  apply subseteq_union_1_L. by apply singleton_subseteq_l.
Qed.

Lemma merge_entry_loop host0 (l : list (string * value)) :
  forall self,
    let out := forM_ l (fun kv => cache_setitem host0 kv.1 kv.2) self in
    match SETUP_CACHE self !! host0, l with
    | None, _ :: _ => out = (Raise (KeyError host0), self)
    | _, _ => out.1 = Return tt /\ same_but_entries self out.2
    end.
Proof.
  unfold forM_.
  induction l as [|[k v] l IH]; intros self; simpl.
  - destruct (SETUP_CACHE self !! host0);
      (split; [done|apply same_but_entries_refl]).
  - destruct (SETUP_CACHE self !! host0) as [d|] eqn:Hd.
    + destruct (cache_setitem_present host0 k v d self Hd)
        as (self' & Heq & Hsame).
      unfold bind. simpl. rewrite Heq.
      assert (is_Some (SETUP_CACHE self' !! host0)) as [d' Hd'].
      { apply elem_of_dom. destruct Hsame as (_&_&_&_&->).
        by apply elem_of_dom. }
      specialize (IH self'). simpl in IH. rewrite Hd' in IH.
      assert (let out := foldM
                (fun (_ : ()) (x : string * value) =>
                   cache_setitem host0 x.1 x.2) l () self' in
              out.1 = Return () /\ same_but_entries self' out.2) as [H1 H2].
      { by destruct l. }
      split; [done|]. by eapply same_but_entries_trans.
    + unfold bind, cache_setitem. simpl. by rewrite Hd.
Qed.

Lemma merge_host_spec hr self :
  let out := merge_host hr self in
  (needs_entry (SETUP_CACHE self) hr ->
   out = (Raise (KeyError hr.1), self))
  /\ (~ needs_entry (SETUP_CACHE self) hr ->
      out.1 = Return tt /\ same_but_entries self out.2).
Proof.
  destruct hr as [h r]. unfold merge_host, needs_entry. simpl.
  destruct (Result.ansible_facts r) as [fs|] eqn:Hf.
  - pose proof (merge_entry_loop h (map_to_list fs) self) as Hloop.
    simpl in Hloop.
    destruct (SETUP_CACHE self !! h) as [d|] eqn:Hd.
    + split; [by intros [? _]|]. intros _.
      by destruct (map_to_list fs).
    + destruct (map_to_list fs) as [|kv l] eqn:Hl.
      * apply map_to_list_empty_iff in Hl as ->.
        split; [by intros (_ & fs' & [= <-] & ?)|done].
      * split; [done|]. intros Hn. exfalso. apply Hn. split; [done|].
        exists fs. split; [done|]. intros ->.
        by rewrite map_to_list_empty in Hl.
  - split; [by intros (_ & fs & ? & _)|].
    intros _. split; [done|apply same_but_entries_refl].
Qed.

Lemma needs_entry_same self self' hr :
  same_but_entries self self' ->
  needs_entry (SETUP_CACHE self') hr <-> needs_entry (SETUP_CACHE self) hr.
Proof.
  intros (_&_&_&_&Hdom). unfold needs_entry.
  rewrite <- !not_elem_of_dom, Hdom. done.
Qed.

Lemma classic_needs hr self :
  needs_entry (SETUP_CACHE self) hr \/ ~ needs_entry (SETUP_CACHE self) hr.
Proof.
  unfold needs_entry.
  destruct (SETUP_CACHE self !! hr.1); [right; by intros [? _]|].
  destruct (Result.ansible_facts hr.2) as [fs|];
    [|right; by intros (_ & ? & ? & _)].
  destruct (decide (fs = ∅)) as [->|Hne].
  - right. by intros (_ & ? & [= <-] & ?).
  - left. split; [done|]. by exists fs.
Qed.

Lemma merge_loop l :
  forall self,
    let out := forM_ l merge_host self in
    same_but_entries self out.2
    /\ (Exists (needs_entry (SETUP_CACHE self)) l ->
        exists h, out.1 = Raise (KeyError h) /\ SETUP_CACHE self !! h = None)
    /\ (Forall (fun hr => ~ needs_entry (SETUP_CACHE self) hr) l ->
        out.1 = Return tt).
Proof.
  unfold forM_.
  induction l as [|hr l IH]; intros self; simpl.
  - split; [apply same_but_entries_refl|].
    split; [by intros ?%Exists_nil|done].
  - unfold bind.
    destruct (merge_host_spec hr self) as [Hbad Hgood]. simpl in *.
    destruct (classic_needs hr self) as [Hn|Hn].
    + rewrite (Hbad Hn). split; [apply same_but_entries_refl|].
      split.
      * intros _. exists hr.1. split; [done|apply Hn].
      * intros Hall. apply Forall_cons in Hall as [Hhr _]. done.
    + destruct (Hgood Hn) as [Hret Hsame].
      destruct (merge_host hr self) as [[[]|e] self'] eqn:Hm;
        simpl in *; [|done].
      destruct (IH self') as (Hsame' & Hex & Hall).
      split; [by eapply same_but_entries_trans|].
      split.
      * intros [?|Hl]%Exists_cons; [done|].
        destruct Hex as (h & Hh & Hnone).
        { eapply Exists_impl; [exact Hl|]. intros x Hx.
          by apply (needs_entry_same self self'). }
        exists h. split; [done|].
        apply not_elem_of_dom. destruct Hsame as (_&_&_&_&<-).
        by apply not_elem_of_dom.
      * intros [_ Hl]%Forall_cons. apply Hall.
        eapply Forall_impl; [exact Hl|]. intros x Hx Hx'. apply Hx.
        by apply (needs_entry_same self self').
Qed.

(** ** A task *)

Lemma run_task_eq play task is_handler self :
  _run_task play task is_handler self =
  match _run_task_internal task
          (record (on_task_start (Task.name task) is_handler) self) with
  | (Return results, self1) =>
      match merge_facts results self1 with
      | (Return _, self2) =>
          flag_handlers play task results (folded results false self2)
      | (Raise e, self2) => (Raise e, self2)
      end
  | (Raise e, self1) => (Raise e, self1)
  end.
Proof.
  unfold _run_task, bind, call, modify. simpl.
  destruct (_run_task_internal _ _) as [[results|e] self1]; [|done].
  destruct (merge_facts results self1) as [[[]|e] self2]; done.
Qed.

Lemma run_handler_eq play i self :
  run_handler play i self =
  match Play.handlers play !! i with
  | Some handler =>
      match Task.notified_by handler with
      | [] => (Return play, self)
      | _ :: _ =>
          match _run_task play handler true
                  (restricted (Task.notified_by handler) self) with
          | (Return play', self') => (Return play', lifted self')
          | (Raise e, self') => (Raise e, self')
          end
      end
  | None => (Return play, self)
  end.
Proof.
  unfold run_handler.
  destruct (Play.handlers play !! i) as [handler|]; [|done].
  destruct (Task.notified_by handler) as [|h0 nb] eqn:Hnb; simpl; [done|].
  unfold bind, inventory_restrict_to, inventory_lift_restriction, call,
    modify, bind, ret. simpl.
  unfold restricted.
  by destruct (_run_task _ _ _ _) as [[play'|e] self'].
Qed.

Lemma emits_restrict_to (P : event -> Prop) hs :
  P (restrict_to hs) -> emits P (inventory_restrict_to hs).
Proof.
  intros HP. apply emits_bind; [by apply emits_call|].
  intros _. by apply emits_quiet.
Qed.

Lemma emits_lift_restriction (P : event -> Prop) :
  P lift_restriction -> emits P inventory_lift_restriction.
Proof.
  intros HP. apply emits_bind; [by apply emits_call|].
  intros _. by apply emits_quiet.
Qed.

Lemma emits_compute (P : event -> Prop) results setup :
  P (stats_compute results setup) -> emits P (stats_do_compute results setup).
Proof.
  intros HP. apply emits_bind; [by apply emits_call|].
  intros _. by apply emits_quiet.
Qed.

Lemma emits_runner_run (P : event -> Prop) runner :
  P (runner_run runner) -> emits P (do_runner_run runner).
Proof.
  intros HP. apply emits_bind; [by apply emits_call|].
  intros _. apply emits_quiet. intros self.
  by destruct (Runner_run _ _).
Qed.

Lemma emits_runner_run_async (P : event -> Prop) runner secs :
  P (runner_run_async runner secs) -> emits P (do_runner_run_async runner secs).
Proof.
  intros HP. apply emits_bind; [by apply emits_call|].
  intros _. apply emits_quiet. intros self.
  by destruct (Runner_run_async _ _ _).
Qed.

Lemma emits_poller_wait (P : event -> Prop) poller secs interval :
  P (poller_wait secs interval) ->
  emits P (do_poller_wait poller secs interval).
Proof.
  intros HP. apply emits_bind; [by apply emits_call|].
  intros _. apply emits_quiet. intros self.
  by destruct (Poller_wait _ _ _ _).
Qed.

Lemma emits_async_poll (P : event -> Prop) poller secs interval :
  P (poller_wait secs interval) ->
  (forall h r, P (on_failed h r)) ->
  emits P (_async_poll poller secs interval).
Proof.
  intros HP1 HP2. apply emits_bind; [by apply emits_poller_wait|].
  intros [results poller']. apply emits_foldM. intros acc h.
  apply emits_bind; [by apply emits_call|]. intros _. apply emits_ret.
Qed.

Lemma emits_run_task_internal is_handler task :
  emits (task_event is_handler) (_run_task_internal task).
Proof.
  apply emits_bind; [apply emits_get|]. intros self.
  apply emits_bind; [by apply emits_restrict_to|]. intros _.
  apply emits_bind; [apply emits_get|]. intros self'.
  apply emits_bind.
  - destruct (Task.async_seconds task =? 0)%Z.
    + by apply emits_runner_run.
    + apply emits_bind; [by apply emits_runner_run_async|].
      intros [results poller].
      apply emits_bind; [by apply emits_compute|]. intros _.
      destruct (0 <? Task.async_poll_interval task)%Z.
      * by apply emits_async_poll.
      * apply emits_ret.
  - intros results.
    apply emits_bind; [by apply emits_lift_restriction|]. intros _.
    apply emits_ret.
Qed.

Lemma emits_merge_facts P results : emits P (merge_facts results).
Proof.
  apply emits_quiet. intros self. unfold merge_facts.
  by destruct (merge_loop (map_to_list (Results.contacted results)) self)
    as [(_&_&_&Hcalls&_) _].
Qed.

Lemma emits_flag_handler (P : event -> Prop) handlers handler_name host0 :
  (forall h n, P (on_notify h n)) ->
  emits P (_flag_handler handlers handler_name host0).
Proof.
  intros HP self. rewrite flag_handler_eq.
  destruct (existsb _ _).
  - eexists. split; [done|]. unfold notifications.
    apply Forall_map. by apply Forall_true.
  - exists []. simpl. by rewrite app_nil_r.
Qed.

Lemma emits_flag_handlers (P : event -> Prop) play task results :
  (forall h n, P (on_notify h n)) ->
  emits P (flag_handlers play task results).
Proof.
  intros HP. unfold flag_handlers.
  destruct (0 <? length (Task.notify task))%nat; [|apply emits_ret].
  apply emits_foldM. intros acc [h r]. simpl.
  destruct (Result.get_truthy _); [|apply emits_ret].
  apply emits_foldM. intros acc' n.
  apply emits_bind; [by apply emits_flag_handler|].
  intros hs. apply emits_ret.
Qed.

Lemma emits_run_task play task is_handler :
  emits (task_event is_handler) (_run_task play task is_handler).
Proof.
  apply emits_bind; [by apply emits_call|]. intros _.
  apply emits_bind; [apply emits_run_task_internal|]. intros results.
  apply emits_bind; [apply emits_merge_facts|]. intros _.
  apply emits_bind; [by apply emits_compute|]. intros _.
  by apply emits_flag_handlers.
Qed.

Lemma grows_refl x : grows x x.
Proof. exists []. rewrite app_nil_r. by destruct x. Qed.

Lemma grows_trans x y z : grows x y -> grows y z -> grows x z.
Proof.
  intros [e1 ->] [e2 ->]. exists (e1 ++ e2). simpl.
  unfold Task.set_notified_by. simpl. by rewrite app_assoc.
Qed.

Lemma grows_flagged handler_name host0 x :
  grows x (flagged handler_name host0 x).
Proof.
  unfold flagged. destruct (named _ _); [|apply grows_refl].
  by exists [host0].
Qed.

Lemma play_grows_refl play : play_grows play play.
Proof.
  exists (Play.handlers play). split; [by destruct play|].
  apply Forall2_same_length_lookup_2; [done|].
  intros i x y Hx Hy. rewrite Hx in Hy. injection Hy as <-. apply grows_refl.
Qed.

Lemma play_grows_trans p1 p2 p3 :
  play_grows p1 p2 -> play_grows p2 p3 -> play_grows p1 p3.
Proof.
  intros (hs2 & -> & H12) (hs3 & -> & H23). simpl in *.
  exists hs3. split; [done|].
  eapply Forall2_trans; [|exact H12|exact H23].
  apply grows_trans.
Qed.

Lemma notified_since_refl self : notified_since self self.
Proof. exists []. by rewrite record_all_nil. Qed.

Lemma notified_since_trans s1 s2 s3 :
  notified_since s1 s2 -> notified_since s2 s3 -> notified_since s1 s3.
Proof.
  intros (es1 & -> & H1) (es2 & -> & H2). exists (es1 ++ es2).
  rewrite record_all_app. split; [done|]. by apply Forall_app.
Qed.

Lemma hoare_notify_one play0 self0 task host0 play handler_name :
  hoare (flag_post play0 self0 play)
        (notify_one task host0 play handler_name)
        (flag_post play0 self0) (flag_exn self0).
Proof.
  intros self [Hplay Hself]. unfold notify_one, bind.
  rewrite flag_handler_eq.
  destruct (existsb _ _); simpl.
  - split.
    + eapply play_grows_trans; [exact Hplay|].
      eexists. split; [done|].
      apply Forall2_fmap_r, Forall2_same_length_lookup_2; [done|].
      intros i x y Hx Hy. rewrite Hx in Hy. injection Hy as <-.
      apply grows_flagged.
    + eapply notified_since_trans; [exact Hself|].
      eexists. split; [done|]. unfold notifications.
      apply Forall_map. by apply Forall_true.
  - split; [by eexists|done].
Qed.

Lemma hoare_notify_host play0 self0 task play hr :
  hoare (flag_post play0 self0 play) (notify_host task play hr)
        (flag_post play0 self0) (flag_exn self0).
Proof.
  destruct hr as [host0 r]. unfold notify_host.
  destruct (Result.get_truthy _); [|apply hoare_ret].
  apply (hoare_foldM (flag_post play0 self0)).
  intros acc n _. apply hoare_notify_one.
Qed.

Lemma hoare_flag_handlers play task results self0 :
  hoare (fun self => self = self0) (flag_handlers play task results)
        (flag_post play self0) (flag_exn self0).
Proof.
  eapply hoare_conseq with (P' := flag_post play self0 play);
    [|intros self ->; split;
       [apply play_grows_refl|apply notified_since_refl]|done..].
  unfold flag_handlers.
  destruct (0 <? length (Task.notify task))%nat; [|apply hoare_ret].
  apply (hoare_foldM (flag_post play self0)).
  intros acc hr _. apply hoare_notify_host.
Qed.

Lemma merge_facts_outcome results self :
  exists self',
    same_but_entries self self'
    /\ (merge_facts results self = (Return tt, self')
        \/ exists h, merge_facts results self = (Raise (KeyError h), self')
                     /\ SETUP_CACHE self !! h = None).
Proof.
  unfold merge_facts.
  pose proof (merge_loop (map_to_list (Results.contacted results)) self)
    as (Hsame & Hex & Hall).
  simpl in *.
  destruct (forM_ _ merge_host self) as [out self'] eqn:Hout. simpl in *.
  exists self'. split; [done|].
  assert (Exists (needs_entry (SETUP_CACHE self))
            (map_to_list (Results.contacted results))
          \/ Forall (fun hr => ~ needs_entry (SETUP_CACHE self) hr)
               (map_to_list (Results.contacted results))) as [Hyes|Hno].
  { generalize (map_to_list (Results.contacted results)).
    induction l as [|hr l [IH|IH]].
    - right. constructor.
    - left. by right.
    - destruct (classic_needs hr self); [left; by left|right; by constructor].
  }
  - right. destruct (Hex Hyes) as (h & -> & Hh). by exists h.
  - left. rewrite (Hall Hno). done.
Qed.

Lemma filter_none {X} (f : X -> bool) (P : X -> Prop) l :
  (forall x, P x -> f x = false) -> Forall P l -> List.filter f l = [].
Proof.
  intros Hf. induction 1 as [|x l Hx Hl IH]; simpl; [done|].
  by rewrite (Hf x Hx).
Qed.

(** C2 (as the code has it). A task with [async_seconds] not zero and no
    poll interval makes no call on a Poller, and the launch results are the
    only results folded into the ledger.  They are folded once by the
    dispatch, right after the launch, and once more by [_run_task] after the
    fact merge: twice in all, and once only when the fact merge raises
    KeyError before the second fold. *)
Theorem fire_and_forget_folds play task is_handler self :
  Task.async_seconds task <> 0%Z ->
  (Task.async_poll_interval task <= 0)%Z ->
  let initial :=
    (launched task
       (record (on_task_start (Task.name task) is_handler) self)).1.1 in
  let es := new_calls (_run_task play task is_handler) self in
  List.filter is_wait es = []
  /\ List.filter is_fold es =
     match (_run_task play task is_handler self).1 with
     | Raise (KeyError _) => [stats_compute initial false]
     | _ => [stats_compute initial false; stats_compute initial false]
     end.
Proof.
  intros Hs Hi. simpl.
  set (self0 := record (on_task_start (Task.name task) is_handler) self).
  set (initial := (launched task self0).1.1).
  unfold new_calls. rewrite run_task_eq. fold self0.
  rewrite (run_task_internal_forget task self0 Hs Hi). fold initial.
  set (self1 := moved_on self0 _ _ _).
  destruct (merge_facts_outcome initial self1)
    as (self2 & (_&_&_&Hcalls&_) & [Hm|(h & Hm & _)]); rewrite Hm.
  - pose proof (emits_flag_handlers is_on_notify play task initial
                  (fun _ _ => I) (folded initial false self2))
      as (es & Hes & Hnotify).
    destruct (flag_handlers _ _ _ _) as [out self3] eqn:Hfl. simpl in *.
    rewrite Hes, Hcalls. simpl. rewrite <- !app_assoc.
    rewrite drop_app_length. simpl.
    rewrite (filter_none is_wait is_on_notify es),
      (filter_none is_fold is_on_notify es);
      [|by intros []..|done|by intros []|done].
    split; [done|].
    pose proof (hoare_flag_handlers play task initial _
                  (folded initial false self2) eq_refl) as Hflag.
    rewrite Hfl in Hflag.
    destruct out as [?|e]; [done|]. by destruct Hflag as [[n ->] _].
  - simpl. rewrite Hcalls. simpl. rewrite <- !app_assoc.
    rewrite drop_app_length. done.
Qed.

(** ** Host exclusion *)

Lemma keeps_ret {A} I (a : A) : keeps I (ret a).
Proof. by intros self HI. Qed.

Lemma keeps_bind {A B} I (m : M A) (f : A -> M B) :
  keeps I m -> (forall a, keeps I (f a)) -> keeps I (bind m f).
Proof. intros Hm Hf. eapply hoare_bind; [exact Hm|exact Hf]. Qed.

Lemma keeps_foldM {A B} I (f : B -> A -> M B) l acc :
  (forall acc x, keeps I (f acc x)) -> keeps I (foldM f l acc).
Proof.
  intros Hf. apply (hoare_foldM (fun _ => I)). intros acc' x _. apply Hf.
Qed.

Lemma keeps_step {A} (I : PlayBook -> Prop) (m : M A) :
  (forall self, I self -> I (m self).2) -> keeps I m.
Proof.
  intros Hm self HI. specialize (Hm self HI).
  by destruct (m self) as [[a|e] self'].
Qed.

Lemma lookup_bump P rs counter h :
  Stats.bump P rs counter !! h =
  match rs !! h with
  | Some v => if P v then Some (S (default 0 (counter !! h)))
              else counter !! h
  | None => counter !! h
  end.
Proof.
  unfold Stats.bump. rewrite lookup_merge.
  destruct (rs !! h) as [v|], (counter !! h); simpl; done.
Qed.

Lemma excluded_compute results setup st h :
  excluded st h -> excluded (Stats.compute results setup st) h.
Proof.
  unfold excluded, Stats.in_failures, Stats.in_dark, Stats.compute. simpl.
  rewrite !bool_decide_eq_true, !lookup_bump.
  intros [[n Hn]|[n Hn]]; [left|right]; rewrite Hn.
  - destruct (Results.contacted results !! h) as [v|]; [|by eexists].
    destruct (Stats.is_status _ _); by eexists.
  - destruct (Results.dark results !! h); by eexists.
Qed.

Lemma replay_app st es1 es2 :
  replay st (es1 ++ es2) = replay (replay st es1) es2.
Proof. apply foldl_app. Qed.

Lemma excluded_replay st es h : excluded st h -> excluded (replay st es) h.
Proof.
  revert st. induction es as [|e es IH]; intros st Hst; [done|].
  simpl. apply IH. destruct e; simpl; try done. by apply excluded_compute.
Qed.

Lemma guarded_app st es1 es2 :
  guarded st (es1 ++ es2) <-> guarded st es1 /\ guarded (replay st es1) es2.
Proof.
  revert st. induction es1 as [|e es1 IH]; intros st; simpl.
  - tauto.
  - rewrite IH. tauto.
Qed.

Lemma guarded_quiet st es :
  Forall (fun e => dispatch_of e = None) es -> guarded st es.
Proof.
  intros Hes. revert st. induction Hes as [|e es He _ IH]; intros st; simpl.
  - done.
  - split; [|apply IH]. intros r Hr. congruence.
Qed.

Lemma replay_quiet st es :
  Forall (fun e => is_fold e = false) es -> replay st es = st.
Proof.
  intros Hes. revert st. induction Hes as [|e es He _ IH]; intros st; simpl.
  - done.
  - unfold replay in IH. rewrite <- (IH st) at 2. by destruct e.
Qed.

Lemma exclusion_inv_refl self : exclusion_inv self self.
Proof. exists []. by rewrite app_nil_r. Qed.

Lemma exclusion_inv_step self0 self self' es :
  exclusion_inv self0 self ->
  calls self' = calls self ++ es ->
  guarded (stats self) es ->
  stats self' = replay (stats self) es ->
  exclusion_inv self0 self'.
Proof.
  intros (es0 & Hcalls & Hg & Hst) Hcalls' Hg' Hst'.
  exists (es0 ++ es). rewrite Hcalls', Hcalls, app_assoc. split; [done|].
  rewrite guarded_app, replay_app, <- Hst. done.
Qed.

Lemma list_hosts_restricted hs inv pattern h :
  h ∈ Inventory.list_hosts (Inventory.restrict_to hs inv) pattern -> h ∈ hs.
Proof.
  unfold Inventory.list_hosts, Inventory.allowed. simpl.
  rewrite list_elem_of_In, filter_In.
  intros [_ [Hh _]%andb_true_iff]. by apply bool_decide_eq_true in Hh.
Qed.

Lemma eligible_spec st l h :
  h ∈ eligible st l <-> h ∈ l /\ ~ excluded st h.
Proof.
  unfold eligible, excluded.
  rewrite !list_elem_of_In, filter_In, andb_true_iff, !negb_true_iff.
  destruct (Stats.in_failures _ _), (Stats.in_dark _ _); intuition congruence.
Qed.

Lemma setup_hosts_eligible play self :
  setup_hosts play self =
  eligible (stats self)
    (Inventory.list_hosts (inventory self) (hosts (Play.view play))).
Proof.
  unfold setup_hosts, eligible. apply filter_ext. intros h.
  by destruct (Stats.in_failures _ _), (Stats.in_dark _ _).
Qed.

Lemma dispatch_runner_guarded task self :
  working_set (dispatch_runner task self) =
  Some (eligible (stats self) (listing (dispatch_runner task self))).
Proof.
  unfold working_set, listing, listing_pattern, dispatch_runner. simpl.
  by rewrite lift_restrict_to.
Qed.

Lemma setup_runner_guarded play play' self :
  Play.view play' = Play.view play ->
  let r := setup_runner play' (restricted (setup_hosts play self) self) in
  working_set r = Some (eligible (stats self) (listing r)).
Proof.
  intros Hview. unfold working_set, listing, listing_pattern. simpl.
  by rewrite lift_restrict_to, Hview, setup_hosts_eligible.
Qed.

Lemma working_set_dispatch r ws h :
  working_set r = Some ws -> h ∈ dispatch_set r -> h ∈ ws.
Proof.
  unfold working_set, dispatch_set. destruct r as [? [gh stack] ? ? ? ? ? ?].
  simpl. destruct stack as [|top stack]; intros [= <-] Hin.
  by apply (list_hosts_restricted _ {| Inventory.get_hosts := gh;
                                       Inventory.restriction := stack |})
    in Hin.
Qed.

Lemma timeouts_quiet pending0 :
  Forall (fun e => dispatch_of e = None /\ is_fold e = false)
         (timeouts pending0).
Proof. unfold timeouts. apply Forall_map. by apply Forall_true. Qed.

Lemma keeps_run_task_internal self0 task :
  keeps (exclusion_inv self0) (_run_task_internal task).
Proof.
  apply keeps_step. intros self HI.
  destruct (decide (Task.async_seconds task = 0%Z)) as [Hs|Hs].
  - rewrite (run_task_internal_sync task self Hs).
    eapply exclusion_inv_step; [exact HI|done| |done].
    simpl. repeat split; try by intros ? [=].
    intros r [= <-]. apply dispatch_runner_guarded.
  - destruct (decide (0 < Task.async_poll_interval task)%Z) as [Hi|Hi].
    + rewrite (run_task_internal_polled task self Hs Hi).
      eapply exclusion_inv_step; [exact HI|done| |].
      * simpl. repeat split; try by intros ? [=].
        { intros r [= <-]. apply dispatch_runner_guarded. }
        apply guarded_quiet, Forall_app. split.
        -- eapply Forall_impl; [apply timeouts_quiet|]. by intros ? [? _].
        -- by repeat constructor.
      * simpl. symmetry. apply replay_quiet, Forall_app. split.
        -- eapply Forall_impl; [apply timeouts_quiet|]. by intros ? [_ ?].
        -- by repeat constructor.
    + rewrite (run_task_internal_forget task self Hs) by lia.
      eapply exclusion_inv_step; [exact HI|done| |done].
      simpl. repeat split; try by intros ? [=].
      intros r [= <-]. apply dispatch_runner_guarded.
Qed.

Lemma keeps_quiet {A} self0 (m : M A) :
  (forall self, calls (m self).2 = calls self
                /\ stats (m self).2 = stats self) ->
  keeps (exclusion_inv self0) m.
Proof.
  intros Hm. apply keeps_step. intros self HI. destruct (Hm self) as [Hc Hs].
  eapply (exclusion_inv_step _ _ _ []); [exact HI|by rewrite app_nil_r|done..].
Qed.

Lemma keeps_call_quiet self0 e :
  dispatch_of e = None -> is_fold e = false ->
  keeps (exclusion_inv self0) (call e).
Proof.
  intros Hd Hf. apply keeps_step. intros self HI.
  eapply (exclusion_inv_step _ _ _ [e]); [exact HI|done| |].
  - simpl. split; [|done]. intros r. congruence.
  - simpl. by destruct e.
Qed.

Lemma keeps_merge_facts self0 results :
  keeps (exclusion_inv self0) (merge_facts results).
Proof.
  apply keeps_quiet. intros self.
  destruct (merge_facts_outcome results self)
    as (self' & (_&Hst&_&Hc&_) & [->|(h & -> & _)]); done.
Qed.

Lemma keeps_compute self0 results setup :
  keeps (exclusion_inv self0) (stats_do_compute results setup).
Proof.
  apply keeps_step. intros self HI.
  eapply (exclusion_inv_step _ _ _ [stats_compute results setup]);
    [exact HI|done| |done].
  simpl. split; [|done]. by intros ? [=].
Qed.

Lemma keeps_flag_handlers self0 play task results :
  keeps (exclusion_inv self0) (flag_handlers play task results).
Proof.
  apply keeps_step. intros self HI.
  pose proof (hoare_flag_handlers play task results self self eq_refl) as Hf.
  assert (notified_since self (flag_handlers play task results self).2)
    as (es & -> & Hes).
  { destruct (flag_handlers _ _ _ _) as [[?|?] ?]; apply Hf. }
  eapply exclusion_inv_step; [exact HI|done| |].
  - apply guarded_quiet. eapply Forall_impl; [exact Hes|]. by intros [].
  - simpl. symmetry. apply replay_quiet.
    eapply Forall_impl; [exact Hes|]. by intros [].
Qed.

Lemma keeps_run_task self0 play task is_handler :
  keeps (exclusion_inv self0) (_run_task play task is_handler).
Proof.
  apply keeps_bind; [by apply keeps_call_quiet|]. intros _.
  apply keeps_bind; [apply keeps_run_task_internal|]. intros results.
  apply keeps_bind; [apply keeps_merge_facts|]. intros _.
  apply keeps_bind; [apply keeps_compute|]. intros _.
  apply keeps_flag_handlers.
Qed.

Lemma keeps_do_setup_step self0 play vars_files :
  keeps (exclusion_inv self0) (_do_setup_step play vars_files).
Proof.
  apply keeps_step. intros self HI. destruct vars_files as [vf|].
  - rewrite do_setup_step_secondary. simpl.
    eapply exclusion_inv_step; [exact HI|done| |done].
    simpl. repeat split; try by intros ? [=].
    intros r [= <-]. unfold at_secondary.
    match goal with
    | |- context [restricted _ ?s1] =>
        exact (setup_runner_guarded play _ s1 eq_refl)
    end.
  - rewrite do_setup_step_primary. simpl.
    eapply exclusion_inv_step; [exact HI|done| |done].
    simpl. repeat split; try by intros ? [=].
    intros r [= <-]. unfold at_primary.
    match goal with
    | |- context [restricted _ ?s1] =>
        exact (setup_runner_guarded play _ s1 eq_refl)
    end.
Qed.

Lemma keeps_restrict_to self0 hs :
  keeps (exclusion_inv self0) (inventory_restrict_to hs).
Proof.
  apply keeps_bind; [by apply keeps_call_quiet|]. intros _.
  by apply keeps_quiet.
Qed.

Lemma keeps_lift_restriction self0 :
  keeps (exclusion_inv self0) inventory_lift_restriction.
Proof.
  apply keeps_bind; [by apply keeps_call_quiet|]. intros _.
  by apply keeps_quiet.
Qed.

Lemma keeps_run_handler self0 play i :
  keeps (exclusion_inv self0) (run_handler play i).
Proof.
  unfold run_handler.
  destruct (Play.handlers play !! i) as [handler|]; [|apply keeps_ret].
  destruct (0 <? _)%nat; [|apply keeps_ret].
  apply keeps_bind; [apply keeps_restrict_to|]. intros _.
  apply keeps_bind; [apply keeps_run_task|]. intros play'.
  apply keeps_bind; [apply keeps_lift_restriction|]. intros _.
  apply keeps_ret.
Qed.

Lemma keeps_run_play self0 play :
  keeps (exclusion_inv self0) (_run_play play).
Proof.
  apply keeps_bind; [by apply keeps_call_quiet|]. intros _.
  apply keeps_bind; [apply keeps_do_setup_step|]. intros [play1 rc].
  apply keeps_bind.
  { destruct (negb _); [apply keeps_do_setup_step|apply keeps_ret]. }
  intros [play2 rc2].
  apply keeps_bind; [apply keeps_foldM; intros; apply keeps_run_task|].
  intros play3.
  apply keeps_bind; [apply keeps_foldM; intros; apply keeps_run_handler|].
  intros play4. apply keeps_ret.
Qed.

Lemma keeps_run self0 playbook :
  keeps (exclusion_inv self0) (run playbook).
Proof.
  apply keeps_bind; [by apply keeps_call_quiet|]. intros _.
  apply keeps_bind.
  { apply keeps_foldM. intros _ play.
    apply keeps_bind; [by apply keeps_quiet|]. intros _.
    apply keeps_run_play. }
  intros _. apply keeps_bind; [by apply keeps_quiet|]. intros self.
  apply keeps_ret.
Qed.

(** C1. Take any dispatch of a run, made by a task, a handler or a setup
    step: a call [e] that starts the Runner [r], after the calls [es1].  The
    ledger then is the ledger of the start with the folds of [es1] applied.
    The working set pushed for [r] is the list of hosts the inventory listed
    (for the play's pattern in a setup step, for all hosts in a task), minus
    the hosts in [failures] and minus the hosts in [dark] of that ledger.
    Consequently a host that was in [failures] or [dark] at any earlier
    point of the run is not among the hosts [r] is dispatched to.  The ledger
    at the end of the run is the ledger of the start with all folds of the
    run applied. *)
Theorem working_set_excludes_failed playbook self es1 e es2 r :
  new_calls (run playbook) self = es1 ++ e :: es2 ->
  dispatch_of e = Some r ->
  working_set r = Some (eligible (replay (stats self) es1) (listing r))
  /\ (forall h es0 es0',
        es1 = es0 ++ es0' ->
        excluded (replay (stats self) es0) h ->
        h ∉ dispatch_set r)
  /\ stats (run playbook self).2 =
     replay (stats self) (new_calls (run playbook) self).
Proof.
  intros Hnew He.
  pose proof (keeps_run self playbook self (exclusion_inv_refl self)) as HI.
  assert (exclusion_inv self (run playbook self).2) as (es & Hes & Hg & Hst).
  { by destruct (run playbook self) as [[?|?] ?]. }
  rewrite (new_calls_eq _ _ _ Hes) in *. subst es.
  apply guarded_app in Hg as [_ [Hws _]]. specialize (Hws r He).
  split; [done|]. split; [|done].
  intros h es0 es0' -> Hex Hin.
  apply (working_set_dispatch _ _ _ Hws), eligible_spec in Hin as [_ Hin].
  apply Hin. rewrite replay_app. by apply excluded_replay.
Qed.

(** ** The restriction stack *)

Lemma run_task_internal_frame task self :
  exists results st w es,
    _run_task_internal task self = (Return results, moved_on self st w es).
Proof.
  destruct (decide (Task.async_seconds task = 0%Z)) as [Hs|Hs].
  - rewrite (run_task_internal_sync task self Hs). by eexists _, _, _, _.
  - destruct (decide (0 < Task.async_poll_interval task)%Z) as [Hi|Hi].
    + rewrite (run_task_internal_polled task self Hs Hi).
      by eexists _, _, _, _.
    + rewrite (run_task_internal_forget task self Hs) by lia.
      by eexists _, _, _, _.
Qed.

Lemma run_task_inventory play task is_handler self :
  inventory (_run_task play task is_handler self).2 = inventory self.
Proof.
  rewrite run_task_eq.
  destruct (run_task_internal_frame task
              (record (on_task_start (Task.name task) is_handler) self))
    as (results & st & w & es & ->).
  destruct (merge_facts_outcome results (moved_on
              (record (on_task_start (Task.name task) is_handler) self)
              st w es))
    as (self2 & (Hinv&_) & [->|(h & -> & _)]); [|done].
  pose proof (hoare_flag_handlers play task results _
                (folded results false self2) eq_refl) as Hf.
  destruct (flag_handlers _ _ _ _) as [[play'|e] self3];
    destruct Hf as [_ (es' & -> & _)]; done.
Qed.

Lemma do_setup_step_inventory play vars_files self :
  inventory (_do_setup_step play vars_files self).2 = inventory self.
Proof.
  destruct vars_files as [vf|].
  - by rewrite do_setup_step_secondary.
  - by rewrite do_setup_step_primary.
Qed.

Lemma hoare_run_handler_stack inv play i :
  hoare (stack_is inv) (run_handler play i)
        (fun _ => stack_is inv) (fun _ => stack_left inv).
Proof.
  intros self Hinv. rewrite run_handler_eq.
  destruct (Play.handlers play !! i) as [handler|]; [|done].
  destruct (Task.notified_by handler) as [|h0 nb]; [done|].
  pose proof (run_task_inventory play handler true
                (restricted (h0 :: nb) self)) as Hrun.
  destruct (_run_task _ _ _ _) as [[play'|e] self']; simpl in *.
  - unfold stack_is, lifted in *. simpl. rewrite Hrun, Hinv.
    apply lift_restrict_to.
  - right. exists (h0 :: nb). unfold stack_is in Hinv. by rewrite Hrun, Hinv.
Qed.

Lemma hoare_run_play_stack inv play :
  hoare (stack_is inv) (_run_play play)
        (fun _ => stack_is inv) (fun _ => stack_left inv).
Proof.
  assert (forall {A} (m : M A),
            (forall self, inventory (m self).2 = inventory self) ->
            hoare (stack_is inv) m (fun _ => stack_is inv)
                  (fun _ => stack_left inv)) as Hframe.
  { intros A m Hm self Hinv. specialize (Hm self).
    destruct (m self) as [[a|e] self']; simpl in *;
      [|left]; unfold stack_is in *; congruence. }
  eapply hoare_bind; [by apply Hframe|]. intros ?.
  eapply hoare_bind; [apply Hframe, do_setup_step_inventory|].
  intros [play1 rc].
  eapply hoare_bind.
  { destruct (negb _); [apply Hframe, do_setup_step_inventory|].
    apply (hoare_ret _ (fun _ => stack_is inv)). }
  intros [play2 rc2].
  eapply hoare_bind.
  { apply (hoare_foldM (fun _ => stack_is inv)). intros acc task _.
    apply Hframe, run_task_inventory. }
  intros play3.
  eapply hoare_bind.
  { apply (hoare_foldM (fun _ => stack_is inv)). intros acc i _.
    apply hoare_run_handler_stack. }
  intros play4. apply (hoare_ret _ (fun _ => stack_is inv)).
Qed.

Lemma hoare_run_stack inv playbook :
  hoare (stack_is inv) (run playbook)
        (fun _ => stack_is inv) (fun _ => stack_left inv).
Proof.
  eapply hoare_bind with (R := fun _ => stack_is inv); [by intros ? ?|].
  intros ?.
  eapply hoare_bind.
  { apply (hoare_foldM (fun _ => stack_is inv)). intros ? play ?.
    eapply hoare_bind with (R := fun _ => stack_is inv); [by intros ? ?|].
    intros ?. apply hoare_run_play_stack. }
  intros ?.
  eapply hoare_bind with (R := fun _ => stack_is inv); [by intros ? ?|].
  intros self. apply (hoare_ret _ (fun _ => stack_is inv)).
Qed.

(** C9 (as the code has it). A dispatch, a setup step, a task, a play and a
    run that return normally leave the restriction stack as they found it:
    on these paths every push is followed by its lift, and the depth at
    every play boundary reached is the depth at the start of the run.
    Nothing is stated of a path that ends by an exception: the lifts are
    plain statements after the calls, nothing protects them, and the run of
    [bad_play] ends with a restriction still pushed. *)
Theorem restriction_balance :
  (forall task self results self',
     _run_task_internal task self = (Return results, self') ->
     inventory self' = inventory self)
  /\ (forall play vars_files self out self',
        _do_setup_step play vars_files self = (Return out, self') ->
        inventory self' = inventory self)
  /\ (forall play task is_handler self play' self',
        _run_task play task is_handler self = (Return play', self') ->
        inventory self' = inventory self)
  /\ (forall play self self',
        _run_play play self = (Return tt, self') ->
        inventory self' = inventory self)
  /\ (forall playbook self results self',
        run playbook self = (Return results, self') ->
        inventory self' = inventory self).
Proof.
  split; [|split; [|split; [|split]]].
  - intros task self results self' Hrun.
    destruct (run_task_internal_frame task self)
      as (results0 & st & w & es & Heq).
    rewrite Heq in Hrun. by injection Hrun as _ <-.
  - intros play vars_files self out self' Hrun.
    pose proof (do_setup_step_inventory play vars_files self) as Hinv.
    by rewrite Hrun in Hinv.
  - intros play task is_handler self play' self' Hrun.
    pose proof (run_task_inventory play task is_handler self) as Hinv.
    by rewrite Hrun in Hinv.
  - intros play self self' Hrun.
    pose proof (hoare_run_play_stack (inventory self) play self eq_refl)
      as Hinv.
    by rewrite Hrun in Hinv.
  - intros playbook self results self' Hrun.
    pose proof (hoare_run_stack (inventory self) playbook self eq_refl)
      as Hinv.
    by rewrite Hrun in Hinv.
Qed.

(** ** The cache at a primary setup *)

Lemma armed_after_app a es1 es2 :
  armed_after a (es1 ++ es2) = armed_after (armed_after a es1) es2.
Proof.
  revert a. induction es1 as [|e es1 IH]; intros a; [done|].
  destruct e; simpl; apply IH.
Qed.

Lemma primary_caches_app a es1 es2 :
  primary_caches a (es1 ++ es2) =
  primary_caches a es1 ++ primary_caches (armed_after a es1) es2.
Proof.
  revert a. induction es1 as [|e es1 IH]; intros a; [done|].
  destruct e; simpl; try apply IH.
  destruct a; simpl; by rewrite IH.
Qed.

Lemma not_primary_quiet es :
  Forall not_primary es ->
  armed_after false es = false /\ primary_caches false es = [].
Proof.
  induction 1 as [|e es He _ [IH1 IH2]]; [done|].
  destruct e; simpl; done.
Qed.

Lemma primary_setup_cache es r :
  is_primary_setup es r ->
  forall a, Runner.setup_cache r ∈ primary_caches a es.
Proof.
  intros (es1 & ws & es2 & ->).
  induction es1 as [|e es1 IH]; intros a; simpl.
  - left.
  - destruct e; simpl; try apply IH.
    destruct a; [right|]; apply IH.
Qed.

Lemma primary_inv_refl self : primary_inv self self.
Proof. exists []. by rewrite app_nil_r. Qed.

Lemma primary_inv_step self0 self self' es :
  primary_inv self0 self ->
  calls self' = calls self ++ es ->
  Forall (fun c => c = ∅) (primary_caches false es) ->
  armed_after false es = false ->
  primary_inv self0 self'.
Proof.
  intros (es0 & Hcalls & Hc & Ha) Hcalls' Hc' Ha'.
  exists (es0 ++ es). rewrite Hcalls', Hcalls, app_assoc. split; [done|].
  rewrite primary_caches_app, armed_after_app, Ha.
  split; [by apply Forall_app|done].
Qed.

Lemma keeps_primary_emits {A} self0 (m : M A) :
  emits not_primary m -> keeps (primary_inv self0) m.
Proof.
  intros Hm. apply keeps_step. intros self HI.
  destruct (Hm self) as (es & Hes & Hq).
  apply not_primary_quiet in Hq as [Ha Hc].
  eapply primary_inv_step; [exact HI|exact Hes| |done]. by rewrite Hc.
Qed.

Lemma emits_run_handler play i :
  emits (task_event true) (run_handler play i).
Proof.
  unfold run_handler.
  destruct (Play.handlers play !! i) as [handler|]; [|apply emits_ret].
  destruct (0 <? _)%nat; [|apply emits_ret].
  apply emits_bind; [by apply emits_restrict_to|]. intros _.
  apply emits_bind; [apply emits_run_task|]. intros play'.
  apply emits_bind; [by apply emits_lift_restriction|]. intros _.
  apply emits_ret.
Qed.

Lemma emits_run_tasks play : emits (task_event false) (run_tasks play).
Proof. apply emits_foldM. intros acc task. apply emits_run_task. Qed.

Lemma emits_run_handlers play : emits (task_event true) (run_handlers play).
Proof. apply emits_foldM. intros acc i. apply emits_run_handler. Qed.

Lemma task_event_not_primary b e : task_event b e -> not_primary e.
Proof. by destruct e. Qed.

Lemma hoare_primary_setup self0 play :
  hoare (fun self => primary_inv self0 self /\ SETUP_CACHE self = ∅)
        (_do_setup_step play None)
        (fun _ => primary_inv self0) (fun _ => primary_inv self0).
Proof.
  intros self [HI Hcache]. rewrite do_setup_step_primary. simpl.
  eapply primary_inv_step; [exact HI|done| |done].
  simpl. by repeat constructor.
Qed.

Lemma keeps_secondary_setup self0 play vf :
  keeps (primary_inv self0) (_do_setup_step play (Some vf)).
Proof.
  apply keeps_step. intros self HI. rewrite do_setup_step_secondary. simpl.
  eapply primary_inv_step; [exact HI|done| |done].
  simpl. by repeat constructor.
Qed.

Lemma hoare_run_play_primary self0 play :
  hoare (fun self => primary_inv self0 self /\ SETUP_CACHE self = ∅)
        (_run_play play)
        (fun _ => primary_inv self0) (fun _ => primary_inv self0).
Proof.
  eapply hoare_bind
    with (R := fun _ self => primary_inv self0 self /\ SETUP_CACHE self = ∅).
  { intros self [HI Hcache]. simpl. split; [|done].
    eapply (primary_inv_step _ _ _ [on_play_start (Play.name play)]);
      [exact HI|done..]. }
  intros ?.
  eapply hoare_bind; [apply hoare_primary_setup|]. intros [play1 rc].
  eapply hoare_bind.
  { destruct (negb _); [apply keeps_secondary_setup|].
    apply (hoare_ret _ (fun _ => primary_inv self0)). }
  intros [play2 rc2].
  eapply hoare_bind.
  { apply keeps_primary_emits.
    eapply emits_impl; [|apply emits_run_tasks].
    apply task_event_not_primary. }
  intros play3.
  eapply hoare_bind.
  { apply keeps_primary_emits.
    eapply emits_impl; [|apply emits_run_handlers].
    apply task_event_not_primary. }
  intros play4. apply (hoare_ret _ (fun _ => primary_inv self0)).
Qed.

Lemma keeps_run_primary self0 playbook :
  keeps (primary_inv self0) (run playbook).
Proof.
  apply keeps_bind.
  { apply keeps_primary_emits. by apply emits_call. }
  intros ?. apply keeps_bind.
  { apply keeps_foldM. intros ? play.
    eapply hoare_bind; [|intros ?; apply hoare_run_play_primary].
    intros self HI. simpl. split; [|done].
    eapply (primary_inv_step _ _ _ []); [exact HI|by rewrite app_nil_r|done..].
  }
  intros ?. apply keeps_bind.
  { apply keeps_primary_emits, emits_get. }
  intros self. apply keeps_ret.
Qed.

(** C3. In a run, the Runner of every primary setup step is given the empty
    setup cache: the cache was reset when the play began and nothing was
    written to it before the step, so no fact of an earlier play is
    visible. *)
Theorem primary_setup_sees_empty_cache playbook self r :
  is_primary_setup (new_calls (run playbook) self) r ->
  Runner.setup_cache r = ∅.
Proof.
  intros Hr.
  pose proof (keeps_run_primary self playbook self (primary_inv_refl self))
    as HI.
  assert (primary_inv self (run playbook self).2) as (es & Hes & Hc & _).
  { by destruct (run playbook self) as [[?|?] ?]. }
  rewrite (new_calls_eq _ _ _ Hes) in Hr.
  rewrite Forall_forall in Hc. apply Hc.
  by apply primary_setup_cache.
Qed.

(** ** Handlers after tasks *)

Lemma run_play_eq play self :
  _run_play play self =
  match before_handlers play self with
  | (Return play', self') =>
      match run_handlers play' self' with
      | (Return _, self'') => (Return tt, self'')
      | (Raise e, self'') => (Raise e, self'')
      end
  | (Raise e, self') => (Raise e, self')
  end.
Proof.
  unfold _run_play, before_handlers, bind.
  destruct (call _ self) as [[[]|e] self1]; [|done].
  destruct (_do_setup_step play None self1) as [[[play1 rc]|e] self2];
    [|done].
  simpl.
  destruct (negb _).
  - destruct (_do_setup_step play1 _ self2) as [[[play2 rc2]|e] self3];
      [|done].
    simpl. destruct (run_tasks play2 self3) as [[play3|e] self4]; [|done].
    by destruct (run_handlers play3 self4) as [[play4|e] self5].
  - simpl. destruct (run_tasks play1 self2) as [[play3|e] self4]; [|done].
    by destruct (run_handlers play3 self4) as [[play4|e] self5].
Qed.

Lemma emits_do_setup_step play vars_files :
  emits not_handler_start (_do_setup_step play vars_files).
Proof.
  intros self. destruct vars_files as [vf|].
  - rewrite do_setup_step_secondary. simpl. eexists. split; [done|].
    by repeat constructor.
  - rewrite do_setup_step_primary. simpl. eexists. split; [done|].
    by repeat constructor.
Qed.

Lemma emits_before_handlers play :
  emits not_handler_start (before_handlers play).
Proof.
  apply emits_bind; [by apply emits_call|]. intros _.
  apply emits_bind; [apply emits_do_setup_step|]. intros [play1 rc].
  apply emits_bind.
  { destruct (negb _); [apply emits_do_setup_step|apply emits_ret]. }
  intros [play2 rc2].
  eapply emits_impl; [|apply emits_run_tasks].
  intros e He. destruct e; try done. simpl in *. by subst.
Qed.

Lemma run_task_play_grows play task is_handler self play' self' :
  _run_task play task is_handler self = (Return play', self') ->
  play_grows play play'.
Proof.
  rewrite run_task_eq.
  destruct (_run_task_internal _ _) as [[results|e] self1]; [|done].
  destruct (merge_facts results self1) as [[[]|e] self2]; [|done].
  pose proof (hoare_flag_handlers play task results _
                (folded results false self2) eq_refl) as Hf.
  intros Heq. rewrite Heq in Hf. apply Hf.
Qed.

Lemma play_grows_length play play' :
  play_grows play play' ->
  length (Play.handlers play') = length (Play.handlers play).
Proof.
  intros (hs & -> & Hall). simpl. symmetry. by eapply Forall2_length.
Qed.

Lemma handlers_run_from k :
  forall i play self,
    i + k = length (Play.handlers play) ->
    handlers_run i play self (foldM run_handler (seq i k) play self).
Proof.
  induction k as [|k IH]; intros i play self Hlen; simpl.
  - apply handlers_done. apply lookup_ge_None. lia.
  - destruct (lookup_lt_is_Some_2 (Play.handlers play) i) as [handler Hh];
      [lia|].
    unfold bind. rewrite run_handler_eq, Hh.
    destruct (Task.notified_by handler) as [|h0 nb] eqn:Hnb.
    + eapply handlers_skip; [exact Hh|exact Hnb|]. apply IH. lia.
    + destruct (_run_task play handler true (restricted (h0 :: nb) self))
        as [[play'|e] self'] eqn:Hrun.
      * eapply handlers_fire; [exact Hh|by rewrite Hnb|by rewrite Hnb|].
        apply IH.
        rewrite (play_grows_length play play'); [lia|].
        by eapply run_task_play_grows.
      * eapply handlers_abort; [exact Hh|by rewrite Hnb|by rewrite Hnb].
Qed.

(** The relation leaves no choice: it has one outcome from a given start. *)
Lemma handlers_run_functional i play self out1 out2 :
  handlers_run i play self out1 -> handlers_run i play self out2 ->
  out1 = out2.
Proof.
  intros H1. revert out2.
  induction H1 as [i play self Hnone
                  |i play self handler out Hh Hnb _ IH
                  |i play self handler play' self' out Hh Hnb Hrun _ IH
                  |i play self handler e self' Hh Hnb Hrun];
    intros out2 H2; inversion H2; subst; try congruence.
  - by apply IH.
  - assert (handler0 = handler) as -> by congruence.
    assert (play'0 = play' /\ self'0 = self') as [-> ->]
      by (split; congruence).
    by apply IH.
Qed.

(** C7. A play first does everything up to and including its last task
    without starting any handler.  If that raises, the play ends there.
    Otherwise the handlers are processed from the resulting state, in
    declaration order: a handler whose [notified_by] is empty when its turn
    comes is passed over; any other is run as a task with
    [is_handler = true], with the inventory restricted to its [notified_by]
    before the run and the restriction lifted after the run returns.  The
    calls of that phase are calls of handlers only. *)
Theorem handlers_after_tasks play self :
  Forall not_handler_start (new_calls (before_handlers play) self)
  /\ match before_handlers play self with
     | (Return play', self') =>
         handlers_run 0 play' self' (run_handlers play' self')
         /\ Forall (task_event true) (new_calls (run_handlers play') self')
         /\ _run_play play self =
            match run_handlers play' self' with
            | (Return _, self'') => (Return tt, self'')
            | (Raise e, self'') => (Raise e, self'')
            end
     | (Raise e, self') => _run_play play self = (Raise e, self')
     end.
Proof.
  split.
  - apply (emits_new_calls _ _ self (emits_before_handlers play)).
  - rewrite run_play_eq.
    destruct (before_handlers play self) as [[play'|e] self']; [|done].
    split; [|split; [|done]].
    + apply handlers_run_from. lia.
    + apply (emits_new_calls _ _ self' (emits_run_handlers play')).
Qed.

(** ** KeyError in the fact merge *)

Lemma needs_entry_exists cache (rs : gmap host Result.t) :
  Exists (needs_entry cache) (map_to_list rs) <->
  exists h r, rs !! h = Some r /\ needs_entry cache (h, r).
Proof.
  rewrite Exists_exists. split.
  - intros ([h r] & Hin%elem_of_map_to_list & Hn). by exists h, r.
  - intros (h & r & Hin & Hn). exists (h, r).
    by rewrite elem_of_map_to_list.
Qed.

Lemma no_new_facts_forall cache results :
  no_new_facts cache results ->
  Forall (fun hr => ~ needs_entry cache hr)
         (map_to_list (Results.contacted results)).
Proof.
  intros Hno. apply Forall_forall. intros [h r] Hin%elem_of_map_to_list.
  by apply Hno.
Qed.

(** C10 (as the code has it). Let a task be dispatched and return
    [results].  If some contacted host has a non-empty [ansible_facts] map
    and no entry in the setup cache, the task raises KeyError for a host
    that has no entry, and the cache still has the same hosts: no entry is
    created.  If every contacted host with non-empty facts has an entry, the
    merge returns and the task raises nothing but the error of an undefined
    handler.  A host whose [ansible_facts] map is empty needs no entry. *)
Theorem fact_merge_key_error play task is_handler self results self1 :
  _run_task_internal task
    (record (on_task_start (Task.name task) is_handler) self)
  = (Return results, self1) ->
  ((exists h r, Results.contacted results !! h = Some r
                /\ needs_entry (SETUP_CACHE self) (h, r)) ->
   exists h' self',
     _run_task play task is_handler self = (Raise (KeyError h'), self')
     /\ merge_facts results self1 = (Raise (KeyError h'), self')
     /\ SETUP_CACHE self !! h' = None
     /\ dom (SETUP_CACHE self') = dom (SETUP_CACHE self))
  /\ (no_new_facts (SETUP_CACHE self) results ->
      (merge_facts results self1).1 = Return tt
      /\ forall e self',
           _run_task play task is_handler self = (Raise e, self') ->
           exists n, e = undefined_handler n).
Proof.
  intros Hint. rewrite run_task_eq, Hint.
  destruct (run_task_internal_frame task
              (record (on_task_start (Task.name task) is_handler) self))
    as (results' & st & w & es & Hframe).
  rewrite Hframe in Hint. injection Hint as <- <-.
  pose proof (merge_loop (map_to_list (Results.contacted results'))
                (moved_on (record (on_task_start (Task.name task) is_handler)
                             self) st w es))
    as (Hsame & Hex & Hall).
  fold (merge_facts results') in *. simpl in *.
  split.
  - intros Hneeds. apply needs_entry_exists in Hneeds.
    destruct (Hex Hneeds) as (h' & Hraise & Hnone).
    destruct (merge_facts results' _) as [out self'] eqn:Hm.
    simpl in *. subst out. exists h', self'.
    repeat split; try done. by destruct Hsame as (_&_&_&_&->).
  - intros Hno. apply no_new_facts_forall in Hno.
    specialize (Hall Hno).
    destruct (merge_facts results' _) as [out self2] eqn:Hm.
    simpl in *. subst out. split; [done|].
    intros e self' Hflag.
    pose proof (hoare_flag_handlers play task results' _
                  (folded results' false self2) eq_refl) as Hf.
    rewrite Hflag in Hf. apply Hf.
Qed.

(** ** The result of a run *)

Lemma foldl_insert_lookup {V} (f : host -> V) (l : list host) :
  forall (init : gmap host V) (h : host),
    foldl (fun m k => <[k := f k]> m) init l !! h =
    if decide (h ∈ l) then Some (f h) else init !! h.
Proof.
  induction l as [|k l IH]; intros init h; simpl; [done|].
  rewrite IH. destruct (decide (h ∈ l)) as [Hl|Hl].
  - rewrite decide_True; [done|by right].
  - destruct (decide (k = h)) as [->|Hne].
    + rewrite lookup_insert_eq, decide_True; [done|left].
    + rewrite lookup_insert_ne by done. rewrite decide_False; [done|].
      intros [->|?]%elem_of_cons; done.
Qed.

Lemma summarize_all_lookup st h :
  summarize_all st !! h =
  if decide (h ∈ Stats.processed st) then Some (Stats.summarize st h)
  else None.
Proof.
  unfold summarize_all. rewrite foldl_insert_lookup, lookup_empty.
  destruct (decide (h ∈ elements (Stats.processed st))) as [Hin|Hin];
    rewrite elem_of_elements in Hin.
  - by rewrite decide_True.
  - by rewrite decide_False.
Qed.

Lemma summarize_all_dom st : dom (summarize_all st) = Stats.processed st.
Proof.
  apply set_eq. intros h. rewrite elem_of_dom, summarize_all_lookup.
  destruct (decide (h ∈ Stats.processed st)) as [Hin|Hin].
  - split; [done|by eexists].
  - split; [by intros [? ?]|done].
Qed.

Lemma ledger_ok_compute results setup st :
  ledger_ok st -> ledger_ok (Stats.compute results setup st).
Proof.
  unfold ledger_ok, excluded, Stats.in_failures, Stats.in_dark, Stats.compute.
  simpl. intros Hok h. rewrite !bool_decide_eq_true, !lookup_bump.
  rewrite !elem_of_union, !elem_of_dom.
  specialize (Hok h). rewrite !bool_decide_eq_true in Hok.
  destruct (Results.contacted results !! h) as [v|];
    [by left; right; eexists|].
  destruct (Results.dark results !! h) as [v|]; [by right; eexists|].
  intros Hst. left. left. by apply Hok.
Qed.

Lemma ledger_ok_replay st es : ledger_ok st -> ledger_ok (replay st es).
Proof.
  revert st. induction es as [|e es IH]; intros st Hok; [done|].
  simpl. apply IH. destruct e; simpl; try done. by apply ledger_ok_compute.
Qed.

Lemma returns_ret {A} (a : A) (Q : A -> Prop) : Q a -> returns (ret a) Q.
Proof. intros HQ self. by exists a, self. Qed.

Lemma returns_bind {A B} (m : M A) (f : A -> M B) Q R :
  returns m Q -> (forall a, Q a -> returns (f a) R) -> returns (bind m f) R.
Proof.
  intros Hm Hf self. destruct (Hm self) as (a & self1 & Hms & HQ).
  unfold bind. rewrite Hms. apply (Hf a HQ).
Qed.

Lemma returns_foldM {A B} (I : B -> Prop) (f : B -> A -> M B) l :
  (forall acc x, x ∈ l -> I acc -> returns (f acc x) I) ->
  forall acc, I acc -> returns (foldM f l acc) I.
Proof.
  induction l as [|x l IH]; intros Hf acc HI; simpl.
  - by apply returns_ret.
  - eapply returns_bind; [apply Hf; [left|done]|].
    intros acc' HI'. apply IH; [|done].
    intros acc'' y Hy. apply Hf. by right.
Qed.

Lemma grows_named n x x' : grows x x' -> named n x' = named n x.
Proof. by intros [extra ->]. Qed.

Lemma play_grows_existsb n play play' :
  play_grows play play' ->
  existsb (named n) (Play.handlers play') =
  existsb (named n) (Play.handlers play).
Proof.
  intros (hs & -> & Hall). simpl. symmetry.
  induction Hall as [|x x' l l' Hx _ IH]; simpl; [done|].
  by rewrite IH, (grows_named n x x' Hx).
Qed.

Lemma defined_in_grows play play' task :
  play_grows play play' -> defined_in play task -> defined_in play' task.
Proof.
  intros Hg Hd n Hn. rewrite (play_grows_existsb _ play play' Hg).
  by apply Hd.
Qed.

Lemma notify_defined_grows play play' :
  play_grows play play' -> notify_defined play -> notify_defined play'.
Proof.
  intros Hg Hd task Hin. eapply defined_in_grows; [exact Hg|].
  destruct Hg as (hs & -> & Hall). simpl in Hin.
  apply elem_of_app in Hin as [Hin|Hin].
  - apply Hd, elem_of_app. by left.
  - apply list_elem_of_lookup in Hin as [i Hi].
    destruct (Forall2_lookup_r _ _ _ _ _ Hall Hi) as (x & Hx & [extra ->]).
    assert (defined_in play x) as Hdx.
    { apply Hd, elem_of_app. right. by eapply list_elem_of_lookup_2. }
    exact Hdx.
Qed.

Lemma returns_notify_one task host0 play n :
  n ∈ Task.notify task -> defined_in play task ->
  returns (notify_one task host0 play n) (play_grows play).
Proof.
  intros Hn Hd self. unfold notify_one, bind.
  rewrite flag_handler_eq, (Hd n Hn). simpl.
  eexists _, _. split; [done|].
  eexists. split; [done|].
  apply Forall2_fmap_r, Forall2_same_length_lookup_2; [done|].
  intros i x y Hx Hy. rewrite Hx in Hy. injection Hy as <-.
  apply grows_flagged.
Qed.

Lemma returns_flag_handlers play task results :
  defined_in play task ->
  returns (flag_handlers play task results) (play_grows play).
Proof.
  intros Hd. unfold flag_handlers.
  destruct (0 <? _)%nat; [|apply returns_ret, play_grows_refl].
  apply (returns_foldM (play_grows play)); [|apply play_grows_refl].
  intros acc [h r] _ Hacc. unfold notify_host.
  destruct (Result.get_truthy _); [|by apply returns_ret].
  apply (returns_foldM (play_grows play)); [|done].
  intros acc' n Hn Hacc'.
  intros self.
  destruct (returns_notify_one task h acc' n Hn
              (defined_in_grows _ _ _ Hacc' Hd) self)
    as (play' & self' & -> & Hg).
  exists play', self'. split; [done|]. by eapply play_grows_trans.
Qed.

Lemma needs_entry_empty cache hr :
  needs_entry cache hr -> needs_entry ∅ hr.
Proof. intros [_ Hfs]. split; [apply lookup_empty|done]. Qed.

Lemma dispatch_no_new_facts task self :
  facts_for_cached ->
  exists results st w es,
    _run_task_internal task self = (Return results, moved_on self st w es)
    /\ no_new_facts (SETUP_CACHE self) results.
Proof.
  intros (Hrun & Hasync & Hpoll).
  destruct (decide (Task.async_seconds task = 0%Z)) as [Hs|Hs].
  - rewrite (run_task_internal_sync task self Hs).
    eexists _, _, _, _. split; [done|].
    by apply (Hrun (dispatch_runner task self) (world self)
                (Task.module_args task)).
  - destruct (decide (0 < Task.async_poll_interval task)%Z) as [Hi|Hi].
    + rewrite (run_task_internal_polled task self Hs Hi).
      eexists _, _, _, _. split; [done|].
      intros h r. rewrite with_timeouts_contacted.
      destruct (bool_decide _).
      * intros [= <-]. by intros (_ & fs & ? & _).
      * intros Hr Hn%needs_entry_empty. by eapply Hpoll.
    + rewrite (run_task_internal_forget task self Hs) by lia.
      eexists _, _, _, _. split; [done|].
      by apply (Hasync (dispatch_runner task self) (Task.async_seconds task)
                  (world self) (Task.module_args task)).
Qed.

Lemma returns_run_task play task is_handler :
  facts_for_cached -> defined_in play task ->
  returns (_run_task play task is_handler) (play_grows play).
Proof.
  intros Hfacts Hd self. rewrite run_task_eq.
  destruct (dispatch_no_new_facts task
              (record (on_task_start (Task.name task) is_handler) self)
              Hfacts)
    as (results & st & w & es & -> & Hno).
  pose proof (merge_loop (map_to_list (Results.contacted results))
                (moved_on (record (on_task_start (Task.name task) is_handler)
                             self) st w es))
    as (_ & _ & Hall).
  fold (merge_facts results) in *. simpl in Hall.
  specialize (Hall (no_new_facts_forall _ _ Hno)).
  destruct (merge_facts results _) as [out self2]. simpl in Hall. subst out.
  apply returns_flag_handlers, Hd.
Qed.

Lemma returns_run_tasks play :
  facts_for_cached -> notify_defined play ->
  returns (run_tasks play) notify_defined.
Proof.
  intros Hfacts Hd.
  assert (returns (run_tasks play)
            (fun acc => notify_defined acc /\ play_grows play acc)) as Hret.
  2:{ intros self. destruct (Hret self) as (a & self' & Heq & Ha & _).
      by exists a, self'. }
  apply (returns_foldM
           (fun acc => notify_defined acc /\ play_grows play acc)).
  - intros acc task Hin [Hacc Hg] self.
    destruct (returns_run_task acc task false Hfacts) with (self := self)
      as (play' & self' & Heq & Hg').
    { eapply defined_in_grows; [exact Hg|].
      apply Hd, elem_of_app. by left. }
    exists play', self'. split; [done|]. split.
    + by eapply notify_defined_grows.
    + by eapply play_grows_trans.
  - split; [done|apply play_grows_refl].
Qed.

Lemma returns_run_handler play i :
  facts_for_cached -> notify_defined play ->
  returns (run_handler play i) notify_defined.
Proof.
  intros Hfacts Hd self. rewrite run_handler_eq.
  destruct (Play.handlers play !! i) as [handler|] eqn:Hh;
    [|by eexists _, _].
  destruct (Task.notified_by handler) as [|h0 nb]; [by eexists _, _|].
  destruct (returns_run_task play handler true Hfacts)
    with (self := restricted (h0 :: nb) self)
    as (play' & self' & -> & Hg).
  { apply Hd, elem_of_app. right. by eapply list_elem_of_lookup_2. }
  eexists _, _. split; [done|]. by eapply notify_defined_grows.
Qed.

Lemma returns_run_handlers play :
  facts_for_cached -> notify_defined play ->
  returns (run_handlers play) notify_defined.
Proof.
  intros Hfacts Hd. apply (returns_foldM notify_defined); [|done].
  intros acc i _ Hacc. by apply returns_run_handler.
Qed.

Lemma returns_do_setup_step play vars_files :
  notify_defined play ->
  returns (_do_setup_step play vars_files)
          (fun pr => notify_defined pr.1
                     /\ Play.vars_files pr.1 = Play.vars_files play).
Proof.
  intros Hd self. destruct vars_files as [vf|].
  - rewrite do_setup_step_secondary. simpl. by eexists _, _.
  - rewrite do_setup_step_primary. simpl. by eexists _, _.
Qed.

Lemma returns_run_play play :
  facts_for_cached -> notify_defined play ->
  returns (_run_play play) (fun _ => True).
Proof.
  intros Hfacts Hd.
  eapply returns_bind with (Q := fun _ => True); [by eexists _, _|].
  intros _ _.
  eapply returns_bind; [by apply returns_do_setup_step|].
  intros [play1 rc] [Hd1 _]. simpl in Hd1.
  eapply returns_bind with (Q := fun pr => notify_defined pr.1).
  { destruct (negb _).
    - intros self.
      destruct (returns_do_setup_step play1 (Some (Play.vars_files play1))
                  Hd1 self) as (pr & self' & -> & Hpr & _).
      by exists pr, self'.
    - by apply returns_ret. }
  intros [play2 rc2] Hd2. simpl in Hd2.
  eapply returns_bind; [by apply returns_run_tasks|].
  intros play3 Hd3.
  eapply returns_bind; [by apply returns_run_handlers|].
  intros play4 _. by apply returns_ret.
Qed.

(** [run] returns when every handler name that is notified is defined and the
    tasks are answered non-empty facts only for hosts that have a cache
    entry *)
Lemma returns_run playbook :
  Forall notify_defined playbook -> facts_for_cached ->
  returns (run playbook) (fun _ => True).
Proof.
  intros Hd Hfacts.
  eapply returns_bind with (Q := fun _ => True); [by eexists _, _|].
  intros _ _.
  eapply returns_bind with (Q := fun _ => True).
  { apply (returns_foldM (fun _ => True)); [|done].
    intros [] play Hin _.
    eapply returns_bind with (Q := fun _ => True); [by eexists _, _|].
    intros _ _. apply returns_run_play; [done|].
    rewrite Forall_forall in Hd. by apply Hd. }
  intros _ _.
  eapply returns_bind with (Q := fun _ => True);
    [intros self0; by exists self0, self0|].
  intros self1 _. by apply returns_ret.
Qed.

End Properties.

(** * Further properties of the orchestrator *)

Section Further.
Context `{Collaborators}.

(** ** Calls of a sequence *)

Lemma appends_emits {A} P (m : M A) : emits P m -> appends m.
Proof. apply emits_impl. done. Qed.

Lemma new_calls_bind {A B} (m : M A) (f : A -> M B) self :
  appends m -> (forall a, appends (f a)) ->
  new_calls (bind m f) self =
  new_calls m self ++
  match m self with
  | (Return a, self') => new_calls (f a) self'
  | (Raise _, _) => []
  end.
Proof.
  intros Hm Hf. unfold new_calls, bind.
  destruct (Hm self) as (es1 & Hes1 & _).
  destruct (m self) as [[a|e] self'] eqn:Hms; simpl in *.
  - destruct (Hf a self') as (es2 & Hes2 & _).
    rewrite Hes2, Hes1, (drop_app_length (calls self ++ es1) es2).
    by rewrite <- app_assoc, !drop_app_length.
  - by rewrite app_nil_r.
Qed.

Lemma new_calls_call e self : new_calls (call e) self = [e].
Proof. apply new_calls_eq. done. Qed.

Lemma new_calls_state {A} (m : M A) self (a : outcome A) self' es :
  m self = (a, self') -> calls self' = calls self ++ es ->
  new_calls m self = es.
Proof. intros Hm Hes. apply new_calls_eq. by rewrite Hm. Qed.

Lemma omap_quiet {X} (f : event -> option X) (P : event -> Prop) es :
  (forall e, P e -> f e = None) -> Forall P es -> omap f es = [].
Proof.
  intros Hf. induction 1 as [|e es He _ IH]; [done|].
  simpl. by rewrite (Hf e He).
Qed.

Lemma foldM_app {A B} (f : B -> A -> M B) l1 l2 acc self :
  foldM f (l1 ++ l2) acc self =
  match foldM f l1 acc self with
  | (Return acc', self') => foldM f l2 acc' self'
  | (Raise e, self') => (Raise e, self')
  end.
Proof.
  revert acc self. induction l1 as [|x l1 IH]; intros acc self; [done|].
  simpl. unfold bind. destruct (f acc x self) as [[acc'|e] self']; [|done].
  apply IH.
Qed.

Lemma foldM_cons {A B} (f : B -> A -> M B) x l acc self :
  foldM f (x :: l) acc self =
  match f acc x self with
  | (Return acc', self') => foldM f l acc' self'
  | (Raise e, self') => (Raise e, self')
  end.
Proof. done. Qed.

(** ** The calls of a dispatch and of a task *)

Lemma run_task_internal_eq task self :
  exists st w,
    _run_task_internal task self =
    (Return (dispatch_results task self),
     moved_on self st w (dispatch_calls task self)).
Proof.
  unfold dispatch_results, dispatch_calls.
  destruct (Task.async_seconds task =? 0)%Z eqn:Hs.
  - apply Z.eqb_eq in Hs. rewrite (run_task_internal_sync _ _ Hs).
    by eexists _, _.
  - apply Z.eqb_neq in Hs.
    destruct (0 <? Task.async_poll_interval task)%Z eqn:Hi.
    + apply Z.ltb_lt in Hi. rewrite (run_task_internal_polled _ _ Hs Hi).
      by eexists _, _.
    + apply Z.ltb_ge in Hi. rewrite (run_task_internal_forget _ _ Hs Hi).
      by eexists _, _.
Qed.

Lemma new_calls_run_task_internal task self :
  new_calls (_run_task_internal task) self = dispatch_calls task self.
Proof.
  destruct (run_task_internal_eq task self) as (st & w & Heq).
  by apply (new_calls_state _ _ _ _ _ Heq).
Qed.

Lemma timeouts_omap {X} (f : event -> option X) pending0 :
  (forall h r, f (on_failed h r) = None) -> omap f (timeouts pending0) = [].
Proof.
  intros Hf. unfold timeouts. induction pending0 as [|h l IH]; [done|].
  simpl. by rewrite Hf.
Qed.

Lemma timeouts_filter (f : event -> bool) pending0 :
  (forall h r, f (on_failed h r) = false) ->
  List.filter f (timeouts pending0) = [].
Proof.
  intros Hf. unfold timeouts. induction pending0 as [|h l IH]; [done|].
  simpl. by rewrite Hf.
Qed.

Lemma dispatch_calls_task_call task self : Forall task_call (dispatch_calls task self).
Proof.
  unfold dispatch_calls. constructor; [done|]. apply Forall_app. split.
  - assert (Hr : exists s,
               Runner.module_args (dispatch_runner task self) = ArgsString s)
      by by eexists.
    destruct (_ =? _)%Z; [by repeat constructor|].
    constructor; [done|]. constructor; [done|].
    destruct (_ <? _)%Z; [|done]. constructor; [done|].
    unfold timeouts. apply Forall_map. by apply Forall_true.
  - by repeat constructor.
Qed.

(** The calls of [_run_task]: the start, the dispatch, then, unless the
    merge of the facts raises, the fold of the results and the
    notifications. *)
Lemma run_task_calls play task is_handler self :
  let self1 := started task is_handler self in
  let results := dispatch_results task self1 in
  exists self2 notes,
    (_run_task_internal task self1).2 = self2
    /\ Forall is_on_notify notes
    /\ new_calls (_run_task play task is_handler) self =
       on_task_start (Task.name task) is_handler
       :: dispatch_calls task self1
       ++ match (merge_facts results self2).1 with
          | Return _ => stats_compute results false :: notes
          | Raise _ => []
          end
    /\ match (merge_facts results self2).1 with
       | Return _ =>
           forall e, (_run_task play task is_handler self).1 = Raise e ->
                     exists n, e = undefined_handler n
       | Raise e =>
           (exists h, e = KeyError h)
           /\ (_run_task play task is_handler self).1 = Raise e
       end.
Proof.
  intros self1 results.
  destruct (run_task_internal_eq task self1) as (st & w & Heq).
  fold results in Heq. set (self2 := moved_on self1 _ _ _) in Heq.
  assert (Hrun : _run_task play task is_handler self =
                 match merge_facts results self2 with
                 | (Return _, self3) =>
                     flag_handlers play task results
                       (folded results false self3)
                 | (Raise e, self3) => (Raise e, self3)
                 end).
  { rewrite run_task_eq. fold (started task is_handler self). fold self1.
    by rewrite Heq. }
  assert (Hc2 : calls self2 =
                calls self ++ on_task_start (Task.name task) is_handler
                :: dispatch_calls task self1).
  { unfold self2, moved_on, self1, started, record, record_all.
    cbn [calls]. by rewrite <- app_assoc. }
  unfold new_calls. rewrite Hrun, Heq. cbn [snd].
  destruct (merge_facts_outcome results self2)
    as (self3 & (_&_&_&Hcalls&_) & [Hm|(h & Hm & _)]); rewrite Hm; cbn [fst].
  - pose proof (emits_flag_handlers is_on_notify play task results
                  (fun _ _ => I) (folded results false self3))
      as (es & Hes & Hnotify).
    exists self2, es. rewrite Hm. cbn [fst]. split; [done|]. split; [done|].
    pose proof (hoare_flag_handlers play task results _
                  (folded results false self3) eq_refl) as Hflag.
    destruct (flag_handlers _ _ _ _) as [out self4] eqn:Hfl.
    cbn [fst snd] in *. rewrite Hes.
    unfold folded, set_stats, record, record_all. cbn [calls].
    rewrite Hcalls, Hc2, <- !app_assoc, drop_app_length.
    split; [done|]. intros e ->. destruct Hflag as [[n ->] _]. by exists n.
  - exists self2, []. rewrite Hm. cbn [fst snd].
    rewrite Hcalls, Hc2, drop_app_length, app_nil_r.
    repeat split; [done|]. by exists h.
Qed.

Lemma dispatch_calls_dispatch task self :
  omap dispatch_of (dispatch_calls task self) = [dispatch_runner task self].
Proof.
  unfold dispatch_calls. destruct (_ =? _)%Z; [done|].
  destruct (_ <? _)%Z; [|done]. simpl.
  rewrite omap_app, timeouts_omap; done.
Qed.

Lemma dispatch_calls_folds task self :
  List.filter is_fold (dispatch_calls task self) =
  if (Task.async_seconds task =? 0)%Z then []
  else [stats_compute (launched task self).1.1 false].
Proof.
  unfold dispatch_calls. destruct (_ =? _)%Z; [done|].
  destruct (_ <? _)%Z; [|done]. simpl.
  rewrite List.filter_app, timeouts_filter; done.
Qed.

Lemma dispatch_calls_waits task self :
  List.filter is_wait (dispatch_calls task self) =
  if (Task.async_seconds task =? 0)%Z then []
  else if (0 <? Task.async_poll_interval task)%Z then
    [poller_wait (Task.async_seconds task) (Task.async_poll_interval task)]
  else [].
Proof.
  unfold dispatch_calls. destruct (_ =? _)%Z; [done|].
  destruct (_ <? _)%Z; [|done]. simpl.
  rewrite List.filter_app, timeouts_filter; done.
Qed.

(** The folds and the waits of any task. *)
Lemma task_folds play task is_handler self :
  let self1 := started task is_handler self in
  let es := new_calls (_run_task play task is_handler) self in
  List.filter is_fold es =
  List.filter is_fold (dispatch_calls task self1)
  ++ match (_run_task play task is_handler self).1 with
     | Raise (KeyError _) => []
     | _ => [stats_compute (dispatch_results task self1) false]
     end
  /\ List.filter is_wait es = List.filter is_wait (dispatch_calls task self1)
  /\ omap dispatch_of es = [dispatch_runner task self1].
Proof.
  intros self1 es.
  destruct (run_task_calls play task is_handler self)
    as (self2 & notes & _ & Hnotes & Hcalls & Hout).
  fold self1 es in Hcalls. rewrite Hcalls.
  change (?a :: ?l ++ ?t) with ([a] ++ l ++ t).
  rewrite !List.filter_app, !omap_app, dispatch_calls_dispatch. simpl.
  set (tail := stats_compute (dispatch_results task self1) false :: notes).
  assert (Hf : List.filter is_fold tail =
               [stats_compute (dispatch_results task self1) false]
               /\ List.filter is_wait tail = []
               /\ omap dispatch_of tail = []).
  { unfold tail. split; [|split].
    - simpl. f_equal. apply (filter_none _ is_on_notify); [|done].
      by intros [].
    - simpl. apply (filter_none _ is_on_notify); [|done]. by intros [].
    - apply (omap_quiet _ (fun e => dispatch_of e = None)); [done|].
      constructor; [done|]. eapply Forall_impl; [exact Hnotes|].
      by intros []. }
  destruct Hf as (Hf1 & Hf2 & Hf3).
  destruct (merge_facts _ self2).1 as [?|e].
  - rewrite Hf1, Hf2, Hf3, app_nil_r. split; [|done]. f_equal.
    destruct (_run_task play task is_handler self).1 as [?|e] eqn:Hr;
      [done|].
    by destruct (Hout e eq_refl) as [n ->].
  - destruct Hout as [[h ->] ->]. by rewrite !app_nil_r.
Qed.


Lemma dispatch_results_cached task is_handler self :
  facts_for_cached ->
  no_new_facts (SETUP_CACHE self)
               (dispatch_results task (started task is_handler self)).
Proof.
  intros Hcached.
  destruct (dispatch_no_new_facts task (started task is_handler self) Hcached)
    as (results & st & w & es & Heq & Hno).
  destruct (run_task_internal_eq task (started task is_handler self))
    as (st' & w' & Heq').
  rewrite Heq' in Heq. by injection Heq as <- _.
Qed.

(** ** Dispatch of a task *)

(** X1. A task with [async_seconds = 0] starts one Runner, never waits on a
    Poller, and the results of that Runner are folded into the ledger
    exactly once, after the fact merge; when the merge raises KeyError they
    are not folded at all. *)
Theorem sync_task_folds_once play task is_handler self :
  Task.async_seconds task = 0%Z ->
  let self1 := started task is_handler self in
  let es := new_calls (_run_task play task is_handler) self in
  omap dispatch_of es = [dispatch_runner task self1]
  /\ List.filter is_wait es = []
  /\ List.filter is_fold es =
     match (_run_task play task is_handler self).1 with
     | Raise (KeyError _) => []
     | _ => [stats_compute (ran task self1).1 false]
     end.
Proof.
  intros Hs self1 es.
  destruct (task_folds play task is_handler self) as (Hf & Hw & Hd).
  fold self1 es in Hf, Hw, Hd.
  rewrite Hf, Hw, Hd, dispatch_calls_folds, dispatch_calls_waits.
  unfold dispatch_results. apply Z.eqb_eq in Hs. by rewrite Hs.
Qed.

(** X2. A task with [async_seconds] not zero and a positive poll interval
    waits on the Poller once; the launch results are folded first, and the
    results of the wait, with every host still pending marked as timed out,
    are folded after the fact merge, unless the merge raises KeyError. *)
Theorem polled_task_folds_twice play task is_handler self :
  Task.async_seconds task <> 0%Z ->
  (0 < Task.async_poll_interval task)%Z ->
  let self1 := started task is_handler self in
  let es := new_calls (_run_task play task is_handler) self in
  List.filter is_wait es =
  [poller_wait (Task.async_seconds task) (Task.async_poll_interval task)]
  /\ List.filter is_fold es =
     stats_compute (launched task self1).1.1 false
     :: match (_run_task play task is_handler self).1 with
        | Raise (KeyError _) => []
        | _ => [stats_compute
                  (with_timeouts (polled task self1).1.1
                                 (pending task self1)) false]
        end.
Proof.
  intros Hs Hi self1 es.
  destruct (task_folds play task is_handler self) as (Hf & Hw & _).
  fold self1 es in Hf, Hw.
  rewrite Hf, Hw, dispatch_calls_folds, dispatch_calls_waits.
  unfold dispatch_results.
  apply Z.eqb_neq in Hs. apply Z.ltb_lt in Hi. by rewrite Hs, Hi.
Qed.

(** X3. When every host the inventory lists is in failures or in dark, the
    working set of a task is empty and its Runner finds no host, yet the
    task is dispatched all the same: [_run_task_internal] starts its one
    Runner and returns what it answers. *)
Theorem dispatch_with_no_host_left task self :
  Forall (excluded (stats self))
         (Inventory.list_hosts (inventory self) "all") ->
  task_hosts self = []
  /\ dispatch_set (dispatch_runner task self) = []
  /\ omap dispatch_of (new_calls (_run_task_internal task) self) =
     [dispatch_runner task self]
  /\ (_run_task_internal task self).1 = Return (dispatch_results task self).
Proof.
  intros Hall.
  assert (Hws : task_hosts self = []).
  { unfold task_hosts. apply (filter_none _ (excluded (stats self))); [|done].
    intros h [Hf|Hd]; rewrite ?Hf, ?Hd; [done|]. by rewrite andb_false_r. }
  split; [done|]. split.
  - apply elem_of_nil_inv. intros h Hin.
    unfold dispatch_set, dispatch_runner, restricted in Hin. simpl in Hin.
    apply list_hosts_restricted in Hin. rewrite Hws in Hin.
    by apply elem_of_nil in Hin.
  - rewrite new_calls_run_task_internal, dispatch_calls_dispatch.
    split; [done|].
    destruct (run_task_internal_eq task self) as (st & w & ->). done.
Qed.

(** X4. [_async_poll] always returns.  In the results it returns, every host
    still listed by the Poller carries the result
    [{failed: 1, rc: None, msg: "timed out"}], whatever the Poller answered
    for it; every other host has the result the Poller answered, and the
    dark hosts are the Poller's.  The ledger, the setup cache and the
    inventory are left alone: the time-outs only reach the ledger when the
    caller folds the results. *)
Theorem async_poll_marks_pending_only poller secs interval self :
  let pw := Poller_wait poller secs interval (world self) in
  exists results self',
    _async_poll poller secs interval self = (Return results, self')
    /\ (forall h,
          Results.contacted results !! h =
          if bool_decide (h ∈ hosts_to_poll pw.1.2) then
            Some {| Result.changed := None; Result.failed := Some (VInt 1);
                    Result.rc := Some VNone;
                    Result.msg := Some (VStr "timed out");
                    Result.ansible_facts := None |}
          else Results.contacted pw.1.1 !! h)
    /\ Results.dark results = Results.dark pw.1.1
    /\ stats self' = stats self
    /\ SETUP_CACHE self' = SETUP_CACHE self
    /\ inventory self' = inventory self
    /\ List.filter is_fold (new_calls (_async_poll poller secs interval) self)
       = [].
Proof.
  intros pw. rewrite async_poll_eq. fold pw. eexists _, _.
  split; [done|]. split; [apply with_timeouts_contacted|].
  split.
  { generalize pw.1.1. induction (hosts_to_poll pw.1.2) as [|h l IH];
      intros results; [done|]. simpl. by rewrite IH. }
  repeat (split; [done|]).
  unfold new_calls. rewrite async_poll_eq. fold pw.
  unfold record_all, set_world, record, record_all. cbn [snd calls].
  rewrite <- app_assoc, drop_app_length. simpl.
  by apply timeouts_filter.
Qed.

(** X5. A handler whose turn comes with a non-empty [notified_by] starts
    one Runner, and every host that Runner finds is a host that notified the
    handler and is neither in failures nor in dark. *)
Theorem handler_dispatched_to_notifiers play i handler self :
  Play.handlers play !! i = Some handler ->
  Task.notified_by handler <> [] ->
  let r :=
    dispatch_runner handler
      (started handler true (restricted (Task.notified_by handler) self)) in
  omap dispatch_of (new_calls (run_handler play i) self) = [r]
  /\ forall h, h ∈ dispatch_set r ->
               h ∈ Task.notified_by handler /\ ~ excluded (stats self) h.
Proof.
  intros Hi Hnb r. split.
  - set (self0 := restricted (Task.notified_by handler) self).
    destruct (task_folds play handler true self0) as (_ & _ & Hd).
    destruct (emits_new_calls _ (_run_task play handler true) self0
                (emits_run_task play handler true)) as [Hc _].
    unfold new_calls at 1. rewrite run_handler_eq, Hi.
    destruct (Task.notified_by handler) as [|h0 nb] eqn:Hnb'; [done|].
    fold self0 in Hc |- *.
    destruct (_run_task play handler true self0) as [[play'|e] self'];
      cbn [snd] in *.
    + unfold lifted, set_inventory, record, record_all. cbn [calls].
      rewrite Hc. unfold self0 at 1, restricted, set_inventory, record,
        record_all. cbn [calls].
      rewrite <- !app_assoc, drop_app_length.
      change (?a :: ?l ++ ?t) with ([a] ++ l ++ t).
      rewrite !omap_app, Hd. done.
    + rewrite Hc. unfold self0 at 1, restricted, set_inventory, record,
        record_all. cbn [calls].
      rewrite <- !app_assoc, drop_app_length.
      change (?a :: ?l) with ([a] ++ l).
      rewrite !omap_app, Hd. done.
  - intros h Hin.
    unfold r, dispatch_set, dispatch_runner, restricted in Hin.
    simpl in Hin. apply list_hosts_restricted in Hin.
    apply (eligible_spec _ _ h) in Hin. destruct Hin as [Hin Hex].
    split; [|done]. by apply list_hosts_restricted in Hin.
Qed.

(** ** The fact merge, exactly *)

Lemma set_SETUP_CACHE_id self : set_SETUP_CACHE (SETUP_CACHE self) self = self.
Proof. by destruct self. Qed.

Lemma foldl_insert_entries (l : list (string * value)) :
  NoDup l.*1 ->
  forall (d : facts) (k : string),
    foldl (fun d kv => <[kv.1 := kv.2]> d) d l !! k =
    match (list_to_map l : facts) !! k with
    | Some v => Some v
    | None => d !! k
    end.
Proof.
  induction l as [|[k0 v0] l IH]; intros Hnd d k; simpl; [done|].
  apply NoDup_cons in Hnd as [Hk Hnd]. rewrite (IH Hnd).
  destruct (decide (k0 = k)) as [->|Hne].
  - by rewrite !lookup_insert_eq, (not_elem_of_list_to_map_1 _ _ Hk).
  - by rewrite !lookup_insert_ne by done.
Qed.

Lemma foldl_insert_union (fs d : facts) :
  foldl (fun d kv => <[kv.1 := kv.2]> d) d (map_to_list fs) = fs ∪ d.
Proof.
  apply map_eq. intros k.
  rewrite foldl_insert_entries by apply NoDup_fst_map_to_list.
  rewrite list_to_map_to_list, lookup_union.
  by destruct (fs !! k), (d !! k).
Qed.

Lemma entry_loop host0 (l : list (string * value)) :
  forall d self,
    SETUP_CACHE self !! host0 = Some d ->
    forM_ l (fun kv => cache_setitem host0 kv.1 kv.2) self =
    (Return tt,
     set_SETUP_CACHE
       (<[host0 := foldl (fun d kv => <[kv.1 := kv.2]> d) d l]>
          (SETUP_CACHE self)) self).
Proof.
  unfold forM_.
  induction l as [|[k v] l IH]; intros d self Hd; simpl.
  - rewrite (insert_id _ _ _ Hd). by rewrite set_SETUP_CACHE_id.
  - unfold bind, cache_setitem at 1. rewrite Hd.
    rewrite (IH (<[k := v]> d)) by apply lookup_insert_eq.
    cbn [SETUP_CACHE set_SETUP_CACHE]. by rewrite insert_insert_eq.
Qed.

Lemma merge_host_exact hr self :
  ~ needs_entry (SETUP_CACHE self) hr ->
  merge_host hr self =
  (Return tt, set_SETUP_CACHE (merge_step (SETUP_CACHE self) hr) self).
Proof.
  destruct hr as [h r]. unfold merge_host, merge_step, needs_entry.
  cbn [fst snd]. intros Hn.
  destruct (Result.ansible_facts r) as [fs|];
    [|by rewrite set_SETUP_CACHE_id].
  destruct (SETUP_CACHE self !! h) as [d|] eqn:Hd.
  - rewrite (entry_loop h _ d self Hd). by rewrite foldl_insert_union.
  - destruct (decide (fs = ∅)) as [->|Hne].
    + rewrite map_to_list_empty. by rewrite set_SETUP_CACHE_id.
    + exfalso. apply Hn. split; [done|]. by exists fs.
Qed.

Lemma merge_step_None cache hr h :
  merge_step cache hr !! h = None <-> cache !! h = None.
Proof.
  unfold merge_step. destruct (Result.ansible_facts hr.2) as [fs|]; [|done].
  destruct (cache !! hr.1) as [d|] eqn:Hd; [|done].
  destruct (decide (hr.1 = h)) as [<-|Hne].
  - rewrite lookup_insert_eq, Hd. done.
  - by rewrite lookup_insert_ne.
Qed.

Lemma needs_entry_merge_step cache hr hr' :
  needs_entry (merge_step cache hr) hr' <-> needs_entry cache hr'.
Proof. unfold needs_entry. by rewrite merge_step_None. Qed.

Lemma merge_loop_exact l :
  forall self,
    Forall (fun hr => ~ needs_entry (SETUP_CACHE self) hr) l ->
    forM_ l merge_host self =
    (Return tt, set_SETUP_CACHE (foldl merge_step (SETUP_CACHE self) l) self).
Proof.
  unfold forM_.
  induction l as [|hr l IH]; intros self Hall; simpl.
  - by rewrite set_SETUP_CACHE_id.
  - apply Forall_cons in Hall as [Hhr Hall].
    unfold bind. rewrite (merge_host_exact hr self Hhr).
    rewrite IH; [by destruct self|].
    eapply Forall_impl; [exact Hall|]. intros x Hx.
    cbn [SETUP_CACHE set_SETUP_CACHE]. by rewrite needs_entry_merge_step.
Qed.

Lemma foldl_merge_step_lookup (l : list (host * Result.t)) :
  NoDup l.*1 ->
  forall (cache : gmap host facts) (h : host),
    foldl merge_step cache l !! h =
    match cache !! h with
    | Some d =>
        Some match (list_to_map l : gmap host Result.t) !! h
                   ≫= Result.ansible_facts with
             | Some fs => fs ∪ d
             | None => d
             end
    | None => None
    end.
Proof.
  induction l as [|[h0 r0] l IH]; intros Hnd cache h; simpl.
  - by destruct (cache !! h).
  - apply NoDup_cons in Hnd as [Hk Hnd]. rewrite (IH Hnd).
    unfold merge_step at 1. cbn [fst snd].
    destruct (decide (h0 = h)) as [->|Hne].
    + rewrite lookup_insert_eq, (not_elem_of_list_to_map_1 _ _ Hk).
      simpl. destruct (Result.ansible_facts r0) as [fs|]; [|done].
      destruct (cache !! h) as [d|] eqn:Hd; [|by rewrite Hd].
      by rewrite lookup_insert_eq.
    + rewrite (lookup_insert_ne _ h0 h) by done.
      destruct (Result.ansible_facts r0) as [fs|]; [|done].
      destruct (cache !! h0) as [d0|]; [|done].
      by rewrite lookup_insert_ne.
Qed.

Lemma lookup_merged rs cache h :
  merged rs cache !! h =
  match cache !! h with
  | Some d => Some match facts_of rs h with
                   | Some fs => fs ∪ d
                   | None => d
                   end
  | None => None
  end.
Proof.
  unfold merged, facts_of.
  rewrite foldl_merge_step_lookup by apply NoDup_fst_map_to_list.
  by rewrite list_to_map_to_list.
Qed.

Lemma merge_facts_exact results self :
  no_new_facts (SETUP_CACHE self) results ->
  merge_facts results self =
  (Return tt,
   set_SETUP_CACHE
     (merged (Results.contacted results) (SETUP_CACHE self)) self).
Proof.
  intros Hno. unfold merge_facts, merged. apply merge_loop_exact.
  by apply no_new_facts_forall.
Qed.

Lemma merged_twice rs cache : merged rs (merged rs cache) = merged rs cache.
Proof.
  apply map_eq. intros h. rewrite !lookup_merged.
  destruct (cache !! h) as [d|]; [|done].
  destruct (facts_of rs h) as [fs|]; [|done].
  by rewrite (assoc_L (∪)), (idemp_L (∪)).
Qed.

Lemma no_new_facts_merged rs cache results :
  no_new_facts (merged rs cache) results <-> no_new_facts cache results.
Proof.
  assert (forall hr, needs_entry (merged rs cache) hr <-> needs_entry cache hr)
    as Hn.
  { intros hr. unfold needs_entry. rewrite lookup_merged.
    destruct (cache !! hr.1); [|done]. split; by intros [? _]. }
  unfold no_new_facts. split; intros Hno h r Hr.
  - rewrite <- Hn. by apply Hno.
  - rewrite Hn. by apply Hno.
Qed.

(** ** What a task does to the setup cache *)

Lemma entries_grow_refl cache : entries_grow cache cache.
Proof. intros h. destruct (cache !! h) as [d|] eqn:Hd; [|done]. by exists d. Qed.

Lemma entries_grow_trans c1 c2 c3 :
  entries_grow c1 c2 -> entries_grow c2 c3 -> entries_grow c1 c3.
Proof.
  intros H12 H23 h. specialize (H12 h). specialize (H23 h).
  destruct (c1 !! h) as [d1|].
  - destruct H12 as (d2 & Hd2 & Hsub). rewrite Hd2 in H23.
    destruct H23 as (d3 & Hd3 & Hsub'). exists d3. split; [done|].
    set_solver.
  - by rewrite H12 in H23.
Qed.

Lemma entries_grow_setitem cache h d k v :
  cache !! h = Some d -> entries_grow cache (<[h := <[k := v]> d]> cache).
Proof.
  intros Hd h'. destruct (decide (h = h')) as [<-|Hne].
  - rewrite Hd, lookup_insert_eq. eexists. split; [done|].
    rewrite dom_insert. set_solver.
  - rewrite lookup_insert_ne by done.
    destruct (cache !! h') as [d'|] eqn:Hd'; [|done]. by exists d'.
Qed.

Lemma entries_grow_dom c c' : entries_grow c c' -> dom c' = dom c.
Proof.
  intros Hg. apply set_eq. intros h. rewrite !elem_of_dom.
  specialize (Hg h). destruct (c !! h) as [d|].
  - destruct Hg as (d' & -> & _). split; by eexists.
  - rewrite Hg. done.
Qed.

Lemma keeps_entries_frame {A} c0 (m : M A) :
  (forall self, SETUP_CACHE (m self).2 = SETUP_CACHE self) ->
  keeps (fun self => entries_grow c0 (SETUP_CACHE self)) m.
Proof. intros Hm. apply keeps_step. intros self. by rewrite Hm. Qed.

Lemma keeps_entries_setitem c0 h k v :
  keeps (fun self => entries_grow c0 (SETUP_CACHE self)) (cache_setitem h k v).
Proof.
  apply keeps_step. intros self Hg. unfold cache_setitem.
  destruct (SETUP_CACHE self !! h) as [d|] eqn:Hd; [|done].
  cbn [snd SETUP_CACHE set_SETUP_CACHE].
  eapply entries_grow_trans; [exact Hg|]. by apply entries_grow_setitem.
Qed.

Lemma keeps_entries_merge_facts c0 results :
  keeps (fun self => entries_grow c0 (SETUP_CACHE self)) (merge_facts results).
Proof.
  apply keeps_foldM. intros [] [h r]. unfold merge_host.
  destruct (Result.ansible_facts r) as [fs|]; [|apply keeps_ret].
  apply keeps_foldM. intros [] [k v]. apply keeps_entries_setitem.
Qed.

Lemma run_task_internal_cache task self :
  SETUP_CACHE (_run_task_internal task self).2 = SETUP_CACHE self.
Proof. by destruct (run_task_internal_eq task self) as (st & w & ->). Qed.

Lemma flag_handlers_cache play task results self :
  SETUP_CACHE (flag_handlers play task results self).2 = SETUP_CACHE self.
Proof.
  pose proof (hoare_flag_handlers play task results self self eq_refl) as Hf.
  destruct (flag_handlers _ _ _ _) as [[play'|e] self'];
    by destruct Hf as [_ (es & -> & _)].
Qed.

Lemma keeps_entries_run_task c0 play task is_handler :
  keeps (fun self => entries_grow c0 (SETUP_CACHE self))
        (_run_task play task is_handler).
Proof.
  apply keeps_bind; [by apply keeps_entries_frame|]. intros _.
  apply keeps_bind;
    [apply keeps_entries_frame, run_task_internal_cache|]. intros results.
  apply keeps_bind; [apply keeps_entries_merge_facts|]. intros _.
  apply keeps_bind; [by apply keeps_entries_frame|]. intros _.
  apply keeps_entries_frame, flag_handlers_cache.
Qed.

Lemma run_task_entries_grow play task is_handler self :
  entries_grow (SETUP_CACHE self)
               (SETUP_CACHE (_run_task play task is_handler self).2).
Proof.
  pose proof (keeps_entries_run_task (SETUP_CACHE self) play task is_handler
                self (entries_grow_refl _)) as Hk.
  by destruct (_run_task _ _ _ _) as [[?|?] ?].
Qed.

Lemma keeps_entries_run_handler c0 play i :
  keeps (fun self => entries_grow c0 (SETUP_CACHE self)) (run_handler play i).
Proof.
  unfold run_handler. destruct (Play.handlers play !! i) as [handler|];
    [|apply keeps_ret].
  destruct (0 <? _)%nat; [|apply keeps_ret].
  apply keeps_bind; [by apply keeps_entries_frame|]. intros _.
  apply keeps_bind; [apply keeps_entries_run_task|]. intros play'.
  apply keeps_bind; [by apply keeps_entries_frame|]. intros _.
  apply keeps_ret.
Qed.

Lemma keeps_entries_secondary c0 play vf :
  keeps (fun self => entries_grow c0 (SETUP_CACHE self))
        (_do_setup_step play (Some vf)).
Proof.
  apply keeps_entries_frame. intros self.
  by rewrite do_setup_step_secondary.
Qed.

(** ** The setup cache across a task and across a play *)

(** X6. When no contacted host brings non-empty facts without having a
    cache entry, the fact merge of a task does not raise, and after the
    task, whether it returns or its notifications raise, a host that had a
    cache entry and whose result brings facts has an entry with every key of
    these facts and every key it had before.  Only keys are stated: they are
    the same whether or not two entries are one object, and whatever the
    order in which the results are iterated. *)
Theorem task_adds_fact_keys play task is_handler self :
  let results := dispatch_results task (started task is_handler self) in
  no_new_facts (SETUP_CACHE self) results ->
  (forall h e, (_run_task play task is_handler self).1 = Raise e ->
               e <> KeyError h)
  /\ forall h d fs,
       SETUP_CACHE self !! h = Some d ->
       facts_of (Results.contacted results) h = Some fs ->
       exists d',
         SETUP_CACHE (_run_task play task is_handler self).2 !! h = Some d'
         /\ dom fs ∪ dom d ⊆ dom d'.
Proof.
  intros results Hno. rewrite run_task_eq.
  fold (started task is_handler self).
  destruct (run_task_internal_eq task (started task is_handler self))
    as (st & w & ->).
  fold results. rewrite merge_facts_exact by done.
  cbn [SETUP_CACHE moved_on].
  set (self3 := folded results false _).
  pose proof (hoare_flag_handlers play task results self3 self3 eq_refl)
    as Hf.
  assert (Hkeys : forall h d fs,
            SETUP_CACHE self !! h = Some d ->
            facts_of (Results.contacted results) h = Some fs ->
            exists d',
              merged (Results.contacted results) (SETUP_CACHE self) !! h
              = Some d' /\ dom fs ∪ dom d ⊆ dom d').
  { intros h d fs Hd Hfs. rewrite lookup_merged, Hd, Hfs.
    eexists. split; [done|]. by rewrite dom_union_L. }
  destruct (flag_handlers _ _ _ _) as [[play'|e] self4]; cbn [fst snd].
  - destruct Hf as [_ (es & -> & _)]. split; [done|]. exact Hkeys.
  - destruct Hf as [[n ->] (es & -> & _)]. split; [by intros h e [= <-]|].
    exact Hkeys.
Qed.

(** X7. Merging the facts of a result set a second time changes nothing:
    the merge returns again and leaves the playbook object as the first
    merge left it. *)
Theorem fact_merge_idempotent results self :
  no_new_facts (SETUP_CACHE self) results ->
  exists self',
    merge_facts results self = (Return tt, self')
    /\ merge_facts results self' = (Return tt, self').
Proof.
  intros Hno. eexists. split; [by apply merge_facts_exact|].
  rewrite merge_facts_exact.
  - cbn [SETUP_CACHE set_SETUP_CACHE]. rewrite merged_twice.
    by destruct self.
  - cbn [SETUP_CACHE set_SETUP_CACHE]. by apply no_new_facts_merged.
Qed.

(** X8. Whatever a task does, and whether it returns or raises, it adds no
    host to the setup cache, removes none, and deletes no key of an entry:
    a host without entry stays without, and the keys of an entry are still
    there afterwards. *)
Theorem task_never_drops_facts play task is_handler self h :
  match SETUP_CACHE self !! h with
  | Some d =>
      exists d',
        SETUP_CACHE (_run_task play task is_handler self).2 !! h = Some d'
        /\ dom d ⊆ dom d'
  | None => SETUP_CACHE (_run_task play task is_handler self).2 !! h = None
  end.
Proof. apply run_task_entries_grow. Qed.

(** X9. After a play, however it ends, the hosts of the setup cache are
    those it had when the play started and those for which the primary
    setup step returned facts: no task, handler or secondary setup step
    adds or removes a host. *)
Theorem cache_hosts_of_play play self h :
  let results :=
    primary_results play (record (on_play_start (Play.name play)) self) in
  is_Some (SETUP_CACHE (_run_play play self).2 !! h) <->
  is_Some (SETUP_CACHE self !! h)
  \/ is_Some (facts_of (Results.contacted results) h).
Proof.
  intros results.
  set (self1 := record (on_play_start (Play.name play)) self).
  set (c1 := loaded (Results.contacted results) (SETUP_CACHE self)).
  set (I := fun s => entries_grow c1 (SETUP_CACHE s)).
  assert (Hrun : hoare (fun s => s = self) (_run_play play)
                   (fun _ => I) (fun _ => I)).
  { eapply hoare_bind with (R := fun _ s => s = self1).
    { by intros s ->. }
    intros _.
    eapply hoare_bind with (R := fun _ => I).
    { intros s ->. rewrite do_setup_step_primary. apply entries_grow_refl. }
    intros [play1 rc1].
    eapply hoare_bind with (R := fun _ => I).
    { destruct (negb _); [apply keeps_entries_secondary|apply keeps_ret]. }
    intros [play2 rc2].
    eapply hoare_bind with (R := fun _ => I).
    { apply keeps_foldM. intros acc task. apply keeps_entries_run_task. }
    intros play3.
    eapply hoare_bind with (R := fun _ => I).
    { apply keeps_foldM. intros acc i. apply keeps_entries_run_handler. }
    intros play4. apply keeps_ret. }
  specialize (Hrun self eq_refl).
  assert (Hg : I (_run_play play self).2).
  { by destruct (_run_play play self) as [[?|?] ?]. }
  apply entries_grow_dom in Hg.
  rewrite <- !elem_of_dom, Hg, elem_of_dom. unfold c1.
  rewrite lookup_loaded, elem_of_dom.
  destruct (facts_of (Results.contacted results) h) as [fs|].
  - split; [intros _; right|]; by eexists.
  - split; [by left|]. intros [?|[? ?]]; done.
Qed.

(** ** Notifications, exactly *)

Lemma appended_nil x : appended [] x = x.
Proof. unfold appended. rewrite app_nil_r. by destruct x. Qed.

Lemma appended_appended e1 e2 x :
  appended e2 (appended e1 x) = appended (e1 ++ e2) x.
Proof. unfold appended. simpl. by rewrite app_assoc. Qed.

Lemma flagged_appended n h x :
  flagged n h x = appended (if named n x then [h] else []) x.
Proof.
  unfold flagged. destruct (named n x); [done|]. by rewrite appended_nil.
Qed.

Lemma set_handlers_id play : Play.set_handlers (Play.handlers play) play = play.
Proof. by destruct play. Qed.

Lemma existsb_named_appended n (g : Task.t -> list host) hs :
  existsb (named n) (map (fun x => appended (g x) x) hs) =
  existsb (named n) hs.
Proof. induction hs as [|x hs IH]; [done|]. simpl. by rewrite IH. Qed.

Lemma set_handlers_ext (g g' : Task.t -> list host) play :
  (forall x, g x = g' x) ->
  Play.set_handlers (map (fun x => appended (g x) x) (Play.handlers play)) play
  = Play.set_handlers
      (map (fun x => appended (g' x) x) (Play.handlers play)) play.
Proof.
  intros Hg.
  assert (map (fun x => appended (g x) x) (Play.handlers play) =
          map (fun x => appended (g' x) x) (Play.handlers play)) as ->; [|done].
  apply map_ext. intros x. by rewrite Hg.
Qed.

Lemma set_handlers_same (g : Task.t -> list host) play :
  (forall x, g x = []) ->
  Play.set_handlers (map (fun x => appended (g x) x) (Play.handlers play)) play
  = play.
Proof.
  intros Hg. rewrite (set_handlers_ext g (fun _ => [])) by done.
  assert (map (fun x => appended [] x) (Play.handlers play) =
          Play.handlers play) as ->; [|apply set_handlers_id].
  rewrite <- (map_id (Play.handlers play)) at 2. apply map_ext.
  intros x. apply appended_nil.
Qed.

Lemma set_handlers_appended (g1 g2 : Task.t -> list host) play :
  (forall e x, g2 (appended e x) = g2 x) ->
  let play1 :=
    Play.set_handlers
      (map (fun x => appended (g1 x) x) (Play.handlers play)) play in
  Play.set_handlers
    (map (fun x => appended (g2 x) x) (Play.handlers play1)) play1
  = Play.set_handlers
      (map (fun x => appended (g1 x ++ g2 x) x) (Play.handlers play)) play.
Proof.
  intros Hg2 play1. unfold play1, Play.set_handlers.
  cbn [Play.name Play.view Play.vars Play.vars_files Play.tasks
       Play.handlers].
  f_equal. rewrite map_map. apply map_ext. intros x.
  by rewrite appended_appended, Hg2.
Qed.

Lemma notifications_on_notify n h hs : Forall is_on_notify (notifications n h hs).
Proof. unfold notifications. apply Forall_map. by apply Forall_true. Qed.

Lemma notify_one_eq task host0 play n self :
  let n' := template n (Task.module_vars task) in
  notify_one task host0 play n self =
  if existsb (named n') (Play.handlers play) then
    (Return (Play.set_handlers
               (map (fun x => appended (if named n' x then [host0] else []) x)
                    (Play.handlers play)) play),
     record_all (notifications n' host0 (Play.handlers play)) self)
  else (Raise (undefined_handler n'), self).
Proof.
  intros n'. unfold notify_one, bind. rewrite flag_handler_eq. fold n'.
  destruct (existsb _ _); [|done]. unfold ret.
  assert (map (flagged n' host0) (Play.handlers play) =
          map (fun x => appended (if named n' x then [host0] else []) x)
              (Play.handlers play)) as ->; [|done].
  apply map_ext. intros x. apply flagged_appended.
Qed.

(** the names a host notifies, all of them defined *)
Lemma names_loop task host0 names :
  forall play self,
    Forall (handler_defined play task) names ->
    exists es,
      Forall is_on_notify es
      /\ foldM (notify_one task host0) names play self =
         (Return
            (Play.set_handlers
               (map (fun x =>
                       appended
                         (replicate
                            (times_named (Task.module_vars task) names x)
                            host0) x)
                    (Play.handlers play)) play),
          record_all es self).
Proof.
  induction names as [|n ns IH]; intros play self Hdef.
  - exists []. split; [done|]. simpl. unfold ret.
    by rewrite record_all_nil, set_handlers_same.
  - apply Forall_cons in Hdef as [Hn Hns]. simpl. unfold bind.
    rewrite notify_one_eq. cbv zeta. unfold handler_defined in Hn.
    rewrite Hn.
    set (play1 := Play.set_handlers _ play).
    destruct (IH play1 (record_all
                          (notifications
                             (template n (Task.module_vars task)) host0
                             (Play.handlers play)) self))
      as (es & Hes & ->).
    { eapply Forall_impl; [exact Hns|]. intros m Hm.
      unfold handler_defined, play1. cbn [Play.handlers Play.set_handlers].
      by rewrite existsb_named_appended. }
    eexists. split; [apply Forall_app; split;
                     [apply notifications_on_notify|exact Hes]|].
    rewrite record_all_app. unfold play1.
    rewrite (set_handlers_appended
               (fun x => if named (template n (Task.module_vars task)) x
                         then [host0] else [])
               (fun x => replicate
                           (times_named (Task.module_vars task) ns x) host0))
      by done.
    f_equal. f_equal. apply set_handlers_ext. intros x.
    unfold times_named. cbn [List.filter]. by destruct (named _ x).
Qed.

Lemma notifiers_cons task h hs x :
  notifiers task (h :: hs) x =
  replicate (times_named (Task.module_vars task) (Task.notify task) x) h
  ++ notifiers task hs x.
Proof. done. Qed.

(** the hosts of a result set, the names they notify all defined *)
Lemma hosts_loop task (l : list (host * Result.t)) :
  forall play self,
    Forall (handler_defined play task) (Task.notify task) ->
    exists es,
      Forall is_on_notify es
      /\ foldM (notify_host task) l play self =
         (Return
            (Play.set_handlers
               (map (fun x =>
                       appended
                         (notifiers task (List.filter reports_change l).*1 x)
                         x)
                    (Play.handlers play)) play),
          record_all es self).
Proof.
  induction l as [|[h r] l IH]; intros play self Hdef.
  - exists []. split; [done|]. simpl. unfold ret.
    by rewrite record_all_nil, set_handlers_same.
  - rewrite foldM_cons.
    change (notify_host task play (h, r) self) with
      ((if reports_change (h, r)
        then foldM (notify_one task h) (Task.notify task) play
        else ret play) self).
    cbn [List.filter]. destruct (reports_change (h, r)).
    + destruct (names_loop task h (Task.notify task) play self Hdef)
        as (es1 & Hes1 & ->).
      set (play1 := Play.set_handlers _ play).
      destruct (IH play1 (record_all es1 self)) as (es2 & Hes2 & ->).
      { eapply Forall_impl; [exact Hdef|]. intros m Hm.
        unfold handler_defined, play1. cbn [Play.handlers Play.set_handlers].
        by rewrite existsb_named_appended. }
      exists (es1 ++ es2). split; [by apply Forall_app|].
      rewrite record_all_app. unfold play1.
      by rewrite (set_handlers_appended
                    (fun x => replicate
                                (times_named (Task.module_vars task)
                                             (Task.notify task) x) h)
                    (fun x => notifiers task
                                (List.filter reports_change l).*1 x)).
    + unfold ret at 1. apply IH. done.
Qed.

Lemma notifiers_unnamed task hs x :
  Task.notify task = [] -> notifiers task hs x = [].
Proof.
  intros Hn. unfold notifiers, times_named. rewrite Hn. simpl.
  by induction hs.
Qed.

Lemma flag_handlers_defined play task results self :
  defined_in play task ->
  exists es,
    Forall is_on_notify es
    /\ flag_handlers play task results self =
       (Return (notified task results play), record_all es self).
Proof.
  intros Hdef. unfold flag_handlers, notified, changed_hosts.
  destruct (Task.notify task) as [|n ns] eqn:Hn.
  - exists []. split; [done|]. simpl. unfold ret.
    rewrite record_all_nil, set_handlers_same; [done|].
    intros x. by apply notifiers_unnamed.
  - cbn [length Nat.ltb Nat.leb]. apply hosts_loop.
    apply Forall_forall. intros m Hm. by apply Hdef.
Qed.

(** a name that is not defined, after names that are *)
Lemma names_loop_undefined task host0 pre n0 post play self :
  Forall (handler_defined play task) pre ->
  ~ handler_defined play task n0 ->
  exists self',
    foldM (notify_one task host0) (pre ++ n0 :: post) play self =
    (Raise (undefined_handler (template n0 (Task.module_vars task))), self').
Proof.
  intros Hpre Hn0. rewrite foldM_app.
  destruct (names_loop task host0 pre play self Hpre) as (es & _ & ->).
  simpl. unfold bind. rewrite notify_one_eq. cbv zeta.
  cbn [Play.handlers Play.set_handlers].
  rewrite existsb_named_appended.
  unfold handler_defined in Hn0. apply not_true_is_false in Hn0.
  rewrite Hn0. by eexists.
Qed.

Lemma hosts_loop_undefined task pre n0 post (l : list (host * Result.t)) :
  Task.notify task = pre ++ n0 :: post ->
  forall play self,
    Forall (handler_defined play task) pre ->
    ~ handler_defined play task n0 ->
    (foldM (notify_host task) l play self).1 =
    if bool_decide ((List.filter reports_change l).*1 = []) then Return play
    else Raise (undefined_handler (template n0 (Task.module_vars task))).
Proof.
  intros Hnotify. induction l as [|[h r] l IH]; intros play self Hpre Hn0.
  - done.
  - rewrite foldM_cons.
    change (notify_host task play (h, r) self) with
      ((if reports_change (h, r)
        then foldM (notify_one task h) (Task.notify task) play
        else ret play) self).
    cbn [List.filter]. destruct (reports_change (h, r)).
    + rewrite Hnotify.
      destruct (names_loop_undefined task h pre n0 post play self Hpre Hn0)
        as (self' & ->).
      done.
    + unfold ret at 1. by apply IH.
Qed.

(** ** Notifications of a task *)

Lemma run_task_flags play task is_handler self :
  let results := dispatch_results task (started task is_handler self) in
  no_new_facts (SETUP_CACHE self) results ->
  exists self',
    _run_task play task is_handler self =
    flag_handlers play task results self'.
Proof.
  intros results Hno. rewrite run_task_eq.
  fold (started task is_handler self).
  destruct (run_task_internal_eq task (started task is_handler self))
    as (st & w & ->).
  fold results. rewrite merge_facts_exact by done. by eexists.
Qed.

Lemma count_listed_app h (l1 l2 : list host) :
  count_listed h (l1 ++ l2) = count_listed h l1 + count_listed h l2.
Proof. unfold count_listed. by rewrite List.filter_app, length_app. Qed.

Lemma count_listed_replicate h h' k :
  count_listed h (replicate k h') = if bool_decide (h' = h) then k else 0.
Proof.
  unfold count_listed. induction k as [|k IH]; simpl.
  - by destruct (bool_decide _).
  - destruct (bool_decide (h' = h)); simpl; by rewrite IH.
Qed.

Lemma count_listed_absent h (l : list host) : h ∉ l -> count_listed h l = 0.
Proof.
  intros Hnin. unfold count_listed.
  rewrite (filter_none _ (fun x => x <> h) l); [done| |].
  - intros x Hx. by apply bool_decide_eq_false.
  - apply Forall_forall. intros x Hx ->. done.
Qed.

Lemma count_listed_cons h h' (l : list host) :
  count_listed h (h' :: l) =
  (if bool_decide (h' = h) then 1 else 0) + count_listed h l.
Proof. unfold count_listed. simpl. by destruct (bool_decide _). Qed.

Lemma count_listed_notifiers task hs x h :
  count_listed h (notifiers task hs x) =
  times_named (Task.module_vars task) (Task.notify task) x
  * count_listed h hs.
Proof.
  induction hs as [|h' hs IH]; [by rewrite Nat.mul_0_r|].
  rewrite notifiers_cons, count_listed_app, count_listed_replicate, IH.
  rewrite count_listed_cons. destruct (bool_decide (h' = h)); lia.
Qed.

Lemma count_listed_changed_hosts results h :
  count_listed h (changed_hosts results) =
  match Results.contacted results !! h with
  | Some r => if Result.get_truthy (Result.changed r) then 1 else 0
  | None => 0
  end.
Proof.
  unfold changed_hosts.
  assert (Hnd : NoDup (List.filter reports_change
                         (map_to_list (Results.contacted results))).*1).
  { pose proof (NoDup_fst_map_to_list (Results.contacted results)) as Hmap.
    revert Hmap. generalize (map_to_list (Results.contacted results)).
    induction l as [|[h' r'] l IH]; [done|]. simpl.
    intros [Hh' Hl]%NoDup_cons.
    destruct (reports_change (h', r')); [|by apply IH].
    simpl. apply NoDup_cons. split; [|by apply IH].
    intros Hin. apply Hh'.
    apply list_elem_of_fmap in Hin as ([h'' r''] & -> & Hin).
    apply list_elem_of_In, List.filter_In in Hin as [Hin _].
    apply list_elem_of_fmap. exists (h'', r''). split; [done|].
    by apply list_elem_of_In. }
  assert (Hin : forall r,
            (h, r) ∈ List.filter reports_change
                       (map_to_list (Results.contacted results)) <->
            Results.contacted results !! h = Some r
            /\ Result.get_truthy (Result.changed r) = true).
  { intros r. rewrite list_elem_of_In, List.filter_In, <- list_elem_of_In,
      elem_of_map_to_list. done. }
  destruct (Results.contacted results !! h) as [r|] eqn:Hr.
  - destruct (Result.get_truthy (Result.changed r)) eqn:Hc.
    + apply count_listed_NoDup; [done|].
      apply list_elem_of_fmap. exists (h, r). split; [done|].
      by apply Hin.
    + apply count_listed_absent. intros Hh.
      apply list_elem_of_fmap in Hh as ([h' r'] & Heq & Hh). simpl in Heq.
      subst h'. apply Hin in Hh as [[= <-] Hc']. congruence.
  - apply count_listed_absent. intros Hh.
    apply list_elem_of_fmap in Hh as ([h' r'] & Heq & Hh). simpl in Heq.
    subst h'. by apply Hin in Hh as [? _].
Qed.

(** X10. When the fact merge does not raise and every name the task
    notifies is the name of a handler of the play, the task returns the play
    with the same handlers in the same order, each with every field as it
    was but for [notified_by], which keeps the hosts already there and gets
    hosts appended after them: a contacted host whose result has a truthy
    [changed] as many times as entries of [task.notify] name the handler,
    any other host never.  The order among the appended hosts, that of the
    iteration of line 209, is not stated. *)
Theorem task_flags_handlers play task is_handler self :
  let results := dispatch_results task (started task is_handler self) in
  no_new_facts (SETUP_CACHE self) results ->
  defined_in play task ->
  exists hs',
    (_run_task play task is_handler self).1 =
    Return {| Play.name := Play.name play; Play.view := Play.view play;
              Play.vars := Play.vars play;
              Play.vars_files := Play.vars_files play;
              Play.tasks := Play.tasks play; Play.handlers := hs' |}
    /\ Forall2
         (fun x x' =>
            same_but_notified_by x x'
            /\ exists extra,
                 Task.notified_by x' = Task.notified_by x ++ extra
                 /\ forall h,
                      count_listed h extra =
                      notifications_due task results x h)
         (Play.handlers play) hs'.
Proof.
  intros results Hno Hdef.
  destruct (run_task_flags play task is_handler self Hno) as (self' & ->).
  subst results.
  set (results := dispatch_results task (started task is_handler self)).
  destruct (flag_handlers_defined play task results self' Hdef)
    as (es & _ & ->).
  eexists. split; [reflexivity|].
  apply Forall2_fmap_r, Forall_Forall2_diag, Forall_forall.
  intros x _. split; [done|].
  exists (notifiers task (changed_hosts results) x). split; [done|].
  intros h. rewrite count_listed_notifiers, count_listed_changed_hosts.
  unfold notifications_due.
  destruct (Results.contacted results !! h) as [r|]; [|lia].
  destruct (Result.get_truthy (Result.changed r)); lia.
Qed.

(** X11. A name in [task.notify] that is not the name of a handler is only
    found out when a host reports a change: if no contacted host does, the
    task returns and the play is as before; if one does, the task raises
    AnsibleError for the first such name. *)
Theorem undefined_handler_needs_change play task is_handler self pre n0 post :
  let results := dispatch_results task (started task is_handler self) in
  no_new_facts (SETUP_CACHE self) results ->
  Task.notify task = pre ++ n0 :: post ->
  Forall (handler_defined play task) pre ->
  ~ handler_defined play task n0 ->
  (_run_task play task is_handler self).1 =
  if bool_decide (changed_hosts results = []) then Return play
  else Raise (AnsibleError
                (String.append "change handler ("
                   (String.append (template n0 (Task.module_vars task))
                                  ") is not defined"))).
Proof.
  intros results Hno Hnotify Hpre Hn0.
  destruct (run_task_flags play task is_handler self Hno) as (self' & ->).
  unfold flag_handlers.
  assert ((0 <? length (Task.notify task))%nat = true) as ->.
  { apply Nat.ltb_lt. rewrite Hnotify, length_app. simpl. lia. }
  by apply (hosts_loop_undefined task pre n0 post).
Qed.

(** ** The calls of a play *)

Lemma emits_task_trace play task is_handler :
  emits task_trace (_run_task play task is_handler).
Proof.
  intros self.
  destruct (run_task_calls play task is_handler self)
    as (self2 & notes & _ & Hnotes & Hcalls & _).
  destruct (emits_new_calls _ (_run_task play task is_handler) self
              (emits_run_task play task is_handler)) as [Hc _].
  eexists. split; [exact Hc|]. rewrite Hcalls.
  constructor; [done|]. apply Forall_app. split.
  - eapply Forall_impl; [apply dispatch_calls_task_call|]. by intros [].
  - destruct (merge_facts _ _).1; [|done]. constructor; [done|].
    eapply Forall_impl; [exact Hnotes|]. by intros [].
Qed.

Lemma emits_task_trace_handler play i :
  emits task_trace (run_handler play i).
Proof.
  unfold run_handler.
  destruct (Play.handlers play !! i) as [handler|]; [|apply emits_ret].
  destruct (0 <? _)%nat; [|apply emits_ret].
  apply emits_bind; [by apply emits_restrict_to|]. intros _.
  apply emits_bind; [apply emits_task_trace|]. intros play'.
  apply emits_bind; [by apply emits_lift_restriction|]. intros _.
  apply emits_ret.
Qed.

Lemma emits_task_trace_tasks play : emits task_trace (run_tasks play).
Proof. apply emits_foldM. intros acc task. apply emits_task_trace. Qed.

Lemma emits_task_trace_handlers play : emits task_trace (run_handlers play).
Proof. apply emits_foldM. intros acc i. apply emits_task_trace_handler. Qed.

Lemma before_handlers_eq play self :
  before_handlers play self =
  run_tasks (tasks_start play self).1 (tasks_start play self).2
  /\ calls (tasks_start play self).2 =
     calls self ++ on_play_start (Play.name play) :: setup_calls play self.
Proof.
  unfold before_handlers, tasks_start, setup_calls, after_primary.
  set (self0 := record (on_play_start (Play.name play)) self).
  unfold bind at 1.
  change (call (on_play_start (Play.name play)) self)
    with (Return tt, self0).
  cbv iota beta. unfold bind at 1.
  rewrite do_setup_step_primary. cbv zeta iota beta. cbn [fst snd].
  set (self1 := Build_PlayBook _ _ _ _ _).
  assert (Hc1 : calls self1 =
                calls self ++ on_play_start (Play.name play)
                :: primary_calls play self0).
  { unfold self1, self0, record, record_all, primary_calls, primary_results.
    cbn [calls]. by rewrite <- app_assoc. }
  unfold bind at 1.
  destruct (bool_decide (Play.vars_files play = [])); cbn [negb fst snd].
  - unfold ret. cbn [fst snd]. rewrite app_nil_r. done.
  - rewrite do_setup_step_secondary. cbv zeta iota beta. cbn [fst snd calls].
    split; [done|]. rewrite Hc1. unfold secondary_calls.
    by rewrite <- app_assoc.
Qed.

Lemma new_calls_before_handlers play self :
  new_calls (before_handlers play) self =
  on_play_start (Play.name play) :: setup_calls play self
  ++ new_calls (run_tasks (tasks_start play self).1) (tasks_start play self).2.
Proof.
  destruct (before_handlers_eq play self) as [Heq Hc].
  destruct (emits_new_calls _ (run_tasks (tasks_start play self).1)
              (tasks_start play self).2
              (emits_task_trace_tasks _)) as [Ht _].
  apply new_calls_eq. rewrite Heq, Ht, Hc, <- app_assoc. done.
Qed.

Lemma new_calls_run_play play self :
  new_calls (_run_play play) self =
  new_calls (before_handlers play) self
  ++ match before_handlers play self with
     | (Return play', self') => new_calls (run_handlers play') self'
     | (Raise _, _) => []
     end.
Proof.
  destruct (emits_new_calls _ (before_handlers play) self
              (emits_before_handlers play)) as [Hb _].
  apply new_calls_eq. rewrite run_play_eq.
  destruct (before_handlers play self) as [[play'|e] self'];
    cbn [snd] in *; [|by rewrite app_nil_r].
  destruct (emits_new_calls _ (run_handlers play') self'
              (emits_task_trace_handlers _)) as [Hh _].
  destruct (run_handlers play' self') as [[?|?] self'']; cbn [snd] in *;
    by rewrite Hh, Hb, <- app_assoc.
Qed.

(** every call of a play after its setup steps is a call of a task or of a
    handler *)
Lemma run_play_trace play self :
  exists es,
    new_calls (_run_play play) self =
    on_play_start (Play.name play) :: setup_calls play self ++ es
    /\ Forall task_trace es.
Proof.
  rewrite new_calls_run_play, new_calls_before_handlers.
  destruct (before_handlers_eq play self) as [Heq _].
  destruct (emits_new_calls _ (run_tasks (tasks_start play self).1)
              (tasks_start play self).2
              (emits_task_trace_tasks _)) as [_ Ht].
  eexists. split.
  { change (?a :: ?l ++ ?t) with ((a :: l) ++ t).
    rewrite <- !app_assoc. cbn [app]. reflexivity. }
  apply Forall_app. split; [done|].
  destruct (before_handlers play self) as [[play'|e] self']; [|done].
  by destruct (emits_new_calls _ (run_handlers play') self'
                 (emits_task_trace_handlers _)) as [_ Hh].
Qed.

Lemma appends_run_play play : appends (_run_play play).
Proof.
  unfold appends, _run_play.
  apply emits_bind; [by apply emits_call|]. intros _.
  apply emits_bind; [apply (appends_emits _ _ (emits_do_setup_step _ _))|].
  intros [play1 rc1]. apply emits_bind.
  { destruct (negb _);
      [apply (appends_emits _ _ (emits_do_setup_step _ _))|apply emits_ret]. }
  intros [play2 rc2].
  apply emits_bind; [apply (appends_emits _ _ (emits_task_trace_tasks _))|].
  intros play3.
  apply emits_bind; [apply (appends_emits _ _ (emits_task_trace_handlers _))|].
  intros _. apply emits_ret.
Qed.

(** ** Order of the plays, the tasks and the handlers *)

Lemma new_calls_ret {A} (a : A) self : new_calls (ret a) self = [].
Proof. apply new_calls_eq. by rewrite app_nil_r. Qed.

Lemma appends_foldM {A B} (f : B -> A -> M B) l acc :
  (forall acc x, appends (f acc x)) -> appends (foldM f l acc).
Proof. intros Hf. by apply emits_foldM. Qed.

(** a loop each turn of which shows one item in a view of the calls *)
Lemma foldM_starts {A B X} (view : event -> option X) (f : B -> A -> M B)
    (tag : A -> X) l :
  (forall acc x, appends (f acc x)) ->
  (forall acc x self, omap view (new_calls (f acc x) self) = [tag x]) ->
  forall acc self,
    match (foldM f l acc self).1 with
    | Return _ => omap view (new_calls (foldM f l acc) self) = map tag l
    | Raise _ =>
        exists done x rest,
          l = done ++ x :: rest
          /\ omap view (new_calls (foldM f l acc) self) = map tag (done ++ [x])
    end.
Proof.
  intros Hf Hview. induction l as [|x l IH]; intros acc self.
  - simpl. by rewrite new_calls_ret.
  - change (foldM f (x :: l) acc) with
      (bind (f acc x) (fun acc' => foldM f l acc')).
    rewrite new_calls_bind; [|apply Hf|intros; by apply appends_foldM].
    rewrite omap_app, Hview. unfold bind.
    destruct (f acc x self) as [[acc'|e] self'] eqn:Hfx.
    + specialize (IH acc' self').
      destruct (foldM f l acc' self').1 as [?|e].
      * by rewrite IH.
      * destruct IH as (done & y & rest & -> & ->).
        by exists (x :: done), y, rest.
    + cbn [fst]. by exists [], x, l.
Qed.

Lemma task_trace_not_play e : task_trace e -> play_start e = None.
Proof. by destruct e. Qed.

Lemma task_trace_filter (f : event -> bool) es :
  (forall e, task_trace e -> f e = false) ->
  Forall task_trace es -> List.filter f es = [].
Proof. intros Hf. by apply filter_none. Qed.

Lemma run_task_starts play task is_handler b self :
  omap (task_start b) (new_calls (_run_task play task is_handler) self) =
  if Bool.eqb is_handler b then [Task.name task] else [].
Proof.
  destruct (run_task_calls play task is_handler self)
    as (self2 & notes & _ & Hnotes & -> & _).
  change (?a :: ?l ++ ?t) with ([a] ++ l ++ t). rewrite !omap_app.
  rewrite (omap_quiet _ task_call (dispatch_calls _ _));
    [|by intros []|apply dispatch_calls_task_call].
  assert (omap (task_start b)
            match (merge_facts
                     (dispatch_results task (started task is_handler self))
                     self2).1 with
            | Return _ =>
                stats_compute
                  (dispatch_results task (started task is_handler self))
                  false :: notes
            | Raise _ => []
            end = []) as ->.
  { destruct (merge_facts _ _).1; [|done].
    apply (omap_quiet _ (fun e => task_start b e = None)); [done|].
    constructor; [done|]. eapply Forall_impl; [exact Hnotes|]. by intros []. }
  simpl. by destruct (Bool.eqb is_handler b).
Qed.

Lemma new_calls_run_handler play i self :
  new_calls (run_handler play i) self =
  match Play.handlers play !! i with
  | Some handler =>
      match Task.notified_by handler with
      | [] => []
      | _ :: _ =>
          let self0 := restricted (Task.notified_by handler) self in
          restrict_to (Task.notified_by handler)
          :: new_calls (_run_task play handler true) self0
          ++ match (_run_task play handler true self0).1 with
             | Return _ => [lift_restriction]
             | Raise _ => []
             end
      end
  | None => []
  end.
Proof.
  apply new_calls_eq. rewrite run_handler_eq.
  destruct (Play.handlers play !! i) as [handler|];
    [|by rewrite app_nil_r].
  destruct (Task.notified_by handler) as [|h0 nb] eqn:Hnb;
    [by rewrite app_nil_r|].
  cbv zeta. set (self0 := restricted (h0 :: nb) self).
  destruct (emits_new_calls _ (_run_task play handler true) self0
              (emits_run_task play handler true)) as [Hc _].
  assert (Hc0 : calls self0 = calls self ++ [restrict_to (h0 :: nb)]) by done.
  destruct (_run_task play handler true self0) as [[play'|e] self'];
    cbn [fst snd] in *.
  - unfold lifted, set_inventory, record, record_all. cbn [calls].
    by rewrite Hc, Hc0, <- !app_assoc.
  - by rewrite Hc, Hc0, app_nil_r, <- !app_assoc.
Qed.

Lemma run_handler_starts play i self :
  omap (task_start true) (new_calls (run_handler play i) self) =
  match Play.handlers play !! i with
  | Some handler =>
      match Task.notified_by handler with
      | [] => []
      | _ :: _ => [Task.name handler]
      end
  | None => []
  end.
Proof.
  rewrite new_calls_run_handler.
  destruct (Play.handlers play !! i) as [handler|]; [|done].
  destruct (Task.notified_by handler) as [|h0 nb]; [done|]. cbv zeta.
  change (?a :: ?l ++ ?t) with ([a] ++ l ++ t).
  rewrite !omap_app, run_task_starts.
  by destruct (_run_task _ _ _ _).1.
Qed.

Lemma play_grows_names play play' :
  play_grows play play' ->
  map Task.name (Play.handlers play') = map Task.name (Play.handlers play).
Proof.
  intros (hs & -> & Hhs). cbn [Play.handlers Play.set_handlers].
  induction Hhs as [|x x' l l' [extra ->] _ IH]; [done|].
  simpl. by rewrite IH.
Qed.

Lemma run_handler_grows play i self play' self' :
  run_handler play i self = (Return play', self') -> play_grows play play'.
Proof.
  rewrite run_handler_eq.
  destruct (Play.handlers play !! i) as [handler|];
    [|intros [= <- _]; apply play_grows_refl].
  destruct (Task.notified_by handler) as [|h0 nb];
    [intros [= <- _]; apply play_grows_refl|].
  destruct (_run_task _ _ _ _) as [[play1|e] self1] eqn:Hrun; [|done].
  intros [= <- _]. by eapply run_task_play_grows.
Qed.

Lemma run_tasks_grows l :
  forall play self play' self',
    foldM (fun play task => _run_task play task false) l play self
    = (Return play', self') ->
    play_grows play play'.
Proof.
  induction l as [|task l IH]; intros play self play' self'.
  - intros [= <- _]. apply play_grows_refl.
  - rewrite foldM_cons.
    destruct (_run_task play task false self) as [[play1|e] self1] eqn:Hrun;
      [|done].
    intros Hl. eapply play_grows_trans; [|by eapply IH].
    by eapply run_task_play_grows.
Qed.

Lemma handler_loop_starts k :
  forall i play self,
    i + k = length (Play.handlers play) ->
    omap (task_start true)
         (new_calls (foldM run_handler (seq i k) play) self)
    `sublist_of` drop i (map Task.name (Play.handlers play)).
Proof.
  induction k as [|k IH]; intros i play self Hlen.
  - simpl. rewrite new_calls_ret. apply sublist_nil_l.
  - change (foldM run_handler (seq i (S k)) play) with
      (bind (run_handler play i)
            (fun play' => foldM run_handler (seq (S i) k) play')).
    rewrite new_calls_bind;
      [|apply (appends_emits _ _ (emits_task_trace_handler play i))
       |intros; apply appends_foldM; intros;
        apply (appends_emits _ _ (emits_task_trace_handler _ _))].
    rewrite omap_app, run_handler_starts.
    destruct (Play.handlers play !! i) as [handler|] eqn:Hi.
    2: { apply lookup_ge_None in Hi. lia. }
    assert (Hd : drop i (map Task.name (Play.handlers play)) =
                 Task.name handler
                 :: drop (S i) (map Task.name (Play.handlers play))).
    { apply drop_S. by rewrite list_lookup_fmap, Hi. }
    rewrite Hd.
    assert (Hrest :
              match run_handler play i self with
              | (Return play', self') =>
                  omap (task_start true)
                    (new_calls (foldM run_handler (seq (S i) k) play') self')
              | (Raise _, _) => []
              end `sublist_of`
              drop (S i) (map Task.name (Play.handlers play))).
    { destruct (run_handler play i self) as [[play'|e] self'] eqn:Hrun;
        [|apply sublist_nil_l].
      pose proof (run_handler_grows _ _ _ _ _ Hrun) as Hg.
      rewrite <- (play_grows_names _ _ Hg). apply IH.
      rewrite (play_grows_length _ _ Hg). lia. }
    assert (Heq : omap (task_start true)
                    match run_handler play i self with
                    | (Return a, self') =>
                        new_calls (foldM run_handler (seq (S i) k) a) self'
                    | (Raise _, _) => []
                    end =
                  match run_handler play i self with
                  | (Return play', self') =>
                      omap (task_start true)
                        (new_calls (foldM run_handler (seq (S i) k) play')
                                   self')
                  | (Raise _, _) => []
                  end).
    { by destruct (run_handler play i self) as [[?|?] ?]. }
    rewrite Heq.
    destruct (Task.notified_by handler);
      [by apply sublist_cons|by apply sublist_skip].
Qed.

(** ** The course of a play and of a run *)

Lemma setup_dispatches_app es1 es2 :
  setup_dispatches (es1 ++ es2) = setup_dispatches es1 ++ setup_dispatches es2.
Proof. unfold setup_dispatches. by rewrite omap_app, List.filter_app. Qed.

Lemma setup_dispatches_tasks es :
  Forall task_trace es -> setup_dispatches es = [].
Proof.
  unfold setup_dispatches.
  induction 1 as [|e es He _ IH]; [done|].
  destruct e; simpl in *; try done.
  - destruct He as [s Hs]. unfold takes_vars. by rewrite Hs.
  - destruct He as [s Hs]. unfold takes_vars. by rewrite Hs.
Qed.

(** X12. Whatever its tasks and handlers do, a play announces the primary
    setup step once, and the secondary setup step once exactly when
    [vars_files] is not empty.  The Runners it starts with variables as
    arguments are those of these steps, in this order: the module [setup]
    with [play.vars] as arguments, then, for the secondary step, the module
    [setup] with the variables of the play once [update_vars_files] is done.
    It folds into the ledger with [setup=True] once per step; no task or
    handler does either. *)
Theorem setup_steps_of_play play self :
  let es := new_calls (_run_play play) self in
  let once := bool_decide (Play.vars_files play = []) in
  List.filter is_setup_mark es =
  on_setup_primary :: (if once then [] else [on_setup_secondary])
  /\ map (fun r => (Runner.module_name r, Runner.module_args r))
         (setup_dispatches es) =
     ("setup", ArgsVars (Play.vars play))
     :: (if once then []
         else [("setup", ArgsVars (secondary_vars play self))])
  /\ length (List.filter is_setup_fold es) = if once then 1 else 2.
Proof.
  intros es once. subst es once.
  destruct (run_play_trace play self) as (es & -> & Hes).
  change (?a :: ?l ++ ?t) with ([a] ++ l ++ t).
  rewrite !List.filter_app, !setup_dispatches_app.
  rewrite (task_trace_filter is_setup_mark es),
    (task_trace_filter is_setup_fold es), (setup_dispatches_tasks es);
    try done.
  - rewrite !app_nil_r. unfold setup_calls.
    rewrite !List.filter_app, setup_dispatches_app.
    destruct (bool_decide (Play.vars_files play = [])); done.
  - by intros [| | | | | | | | | | | |? ? | ? []].
  - by intros [].
Qed.

(** X13. The tasks of a play are started in the order of [play.tasks()],
    each once, as tasks and not as handlers: when the play gets through its
    last task, started are all of them; when a task raises, started are the
    tasks up to that one and none after it. *)
Theorem tasks_in_order play self :
  let es := new_calls (_run_play play) self in
  match (before_handlers play self).1 with
  | Return _ => omap (task_start false) es = map Task.name (Play.tasks play)
  | Raise _ =>
      exists done task rest,
        Play.tasks play = done ++ task :: rest
        /\ omap (task_start false) es = map Task.name (done ++ [task])
  end.
Proof.
  intros es. subst es.
  rewrite new_calls_run_play, new_calls_before_handlers.
  destruct (before_handlers_eq play self) as [Heq _].
  set (play2 := (tasks_start play self).1) in *.
  set (self2 := (tasks_start play self).2) in *.
  assert (Htasks : Play.tasks play2 = Play.tasks play).
  { unfold play2, tasks_start. by destruct (bool_decide _). }
  assert (Hsetup : omap (task_start false) (setup_calls play self) = []).
  { unfold setup_calls. rewrite omap_app.
    by destruct (bool_decide _). }
  assert (Hh : omap (task_start false)
                 match before_handlers play self with
                 | (Return play', self') => new_calls (run_handlers play') self'
                 | (Raise _, _) => []
                 end = []).
  { destruct (before_handlers play self) as [[play'|e] self']; [|done].
    destruct (emits_new_calls _ (run_handlers play') self'
                (emits_run_handlers play')) as [_ Hf].
    apply (omap_quiet _ (task_event true)); [|done]. by intros [| | | |? []| | | | | | | | |]. }
  change (?a :: ?l ++ ?t) with ([a] ++ l ++ t).
  rewrite !omap_app, Hh, Hsetup, app_nil_r. cbn [omap list_omap app].
  pose proof (foldM_starts (task_start false)
                (fun play task => _run_task play task false) Task.name
                (Play.tasks play2)
                (fun acc x =>
                   appends_emits _ _ (emits_task_trace acc x false))
                (fun acc x s => run_task_starts acc x false false s)
                play2 self2) as Hloop.
  rewrite Heq. fold (run_tasks play2) in Hloop.
  by rewrite Htasks in Hloop.
Qed.

(** X14. In a play a handler is started at most once, and the handlers that
    are started are started in the order of [play.handlers()]: a
    notification that reaches a handler after its turn, from a later
    handler or from itself, is not acted on. *)
Theorem handlers_at_most_once play self :
  omap (task_start true) (new_calls (_run_play play) self)
  `sublist_of` map Task.name (Play.handlers play).
Proof.
  rewrite new_calls_run_play, omap_app.
  destruct (emits_new_calls _ (before_handlers play) self
              (emits_before_handlers play)) as [_ Hb].
  rewrite (omap_quiet _ not_handler_start _) by (done || by intros [| | | |? []| | | | | | | | |]).
  destruct (before_handlers_eq play self) as [Heq _].
  destruct (before_handlers play self) as [[play'|e] self'] eqn:Hbefore;
    [|apply sublist_nil_l].
  symmetry in Heq. apply run_tasks_grows in Heq.
  assert (Hnames : map Task.name (Play.handlers play') =
                   map Task.name (Play.handlers play)).
  { rewrite (play_grows_names _ _ Heq). unfold tasks_start.
    by destruct (bool_decide _). }
  rewrite <- Hnames.
  exact (handler_loop_starts (length (Play.handlers play')) 0 play' self'
           eq_refl).
Qed.

(** X15. [run] starts the plays in the order of the playbook, each once:
    when it returns, it has started all of them; when a play raises, it has
    started the plays up to that one and none after it. *)
Theorem plays_in_order playbook self :
  let es := new_calls (run playbook) self in
  match (run playbook self).1 with
  | Return _ => omap play_start es = map Play.name playbook
  | Raise _ =>
      exists done play rest,
        playbook = done ++ play :: rest
        /\ omap play_start es = map Play.name (done ++ [play])
  end.
Proof.
  intros es. subst es.
  set (body := fun (_ : unit) play =>
                 bind (modify (set_SETUP_CACHE ∅))
                      (fun _ => _run_play play)).
  assert (Happ : forall acc play, appends (body acc play)).
  { intros acc play. apply emits_bind; [by apply emits_quiet|]. intros _.
    apply appends_run_play. }
  assert (Hview : forall acc play s,
            omap play_start (new_calls (body acc play) s) = [Play.name play]).
  { intros acc play s. unfold body.
    rewrite new_calls_bind; [|by apply emits_quiet|].
    - cbn [modify]. unfold modify.
      rewrite (new_calls_eq (fun s0 => (Return tt, set_SETUP_CACHE ∅ s0))
                 s []) by (by rewrite app_nil_r).
      cbn [app].
      destruct (run_play_trace play (set_SETUP_CACHE ∅ s))
        as (es & -> & Hes).
      change (?a :: ?l ++ ?t) with ([a] ++ l ++ t). rewrite !omap_app.
      rewrite (omap_quiet _ task_trace es) by (done || by intros []).
      unfold setup_calls. rewrite omap_app.
      by destruct (bool_decide _).
    - intros _. apply appends_run_play. }
  pose proof (foldM_starts play_start body Play.name playbook Happ Hview
                tt (record on_start self)) as Hloop.
  destruct (emits_new_calls _ (foldM body playbook tt) (record on_start self)
              (appends_foldM body playbook tt Happ)) as [Hc _].
  assert (Hrun : run playbook self =
                 match foldM body playbook tt (record on_start self) with
                 | (Return _, self') =>
                     (Return (summarize_all (stats self')), self')
                 | (Raise e, self') => (Raise e, self')
                 end) by done.
  assert (Hcalls : new_calls (run playbook) self =
                   on_start
                   :: new_calls (foldM body playbook tt)
                        (record on_start self)).
  { apply new_calls_eq. rewrite Hrun.
    destruct (foldM body playbook tt (record on_start self))
      as [[?|?] self']; cbn [snd] in *;
      rewrite Hc; unfold record, record_all; cbn [calls];
      by rewrite <- app_assoc. }
  rewrite Hcalls, Hrun.
  destruct (foldM body playbook tt (record on_start self))
    as [[?|?] self']; cbn [fst] in *; exact Hloop.
Qed.

(** ** Edge cases *)

Lemma idle_handlers k :
  forall i play self,
    Forall unnotified (Play.handlers play) ->
    foldM run_handler (seq i k) play self = (Return play, self).
Proof.
  induction k as [|k IH]; intros i play self Hall; [done|].
  change (seq i (S k)) with (i :: seq (S i) k).
  rewrite foldM_cons, run_handler_eq.
  destruct (Play.handlers play !! i) as [handler|] eqn:Hi; [|by apply IH].
  rewrite (Forall_lookup_1 _ _ _ _ Hall Hi). by apply IH.
Qed.

(** X16. A play without tasks whose handlers have not been notified still
    runs its setup steps: it returns, and its calls are [on_play_start]
    followed by the calls of the primary setup step and, when [vars_files]
    is not empty, of the secondary one; no handler is started. *)
Theorem idle_play_only_sets_up play self :
  Play.tasks play = [] ->
  Forall unnotified (Play.handlers play) ->
  (_run_play play self).1 = Return tt
  /\ new_calls (_run_play play) self =
     on_play_start (Play.name play)
     :: primary_calls play (record (on_play_start (Play.name play)) self)
     ++ (if bool_decide (Play.vars_files play = []) then []
         else secondary_calls play (after_primary play self)).
Proof.
  intros Htasks Hidle.
  destruct (before_handlers_eq play self) as [Heq _].
  set (play2 := (tasks_start play self).1) in *.
  set (self2 := (tasks_start play self).2) in *.
  assert (Hp2 : Play.tasks play2 = [] /\ Forall unnotified (Play.handlers play2)).
  { unfold play2, tasks_start. by destruct (bool_decide _). }
  destruct Hp2 as [Ht2 Hh2].
  assert (Hrt : run_tasks play2 self2 = (Return play2, self2)).
  { unfold run_tasks. by rewrite Ht2. }
  assert (Hrh : run_handlers play2 self2 = (Return play2, self2)).
  { unfold run_handlers. by apply idle_handlers. }
  rewrite Hrt in Heq. split.
  - by rewrite run_play_eq, Heq, Hrh.
  - rewrite new_calls_run_play, new_calls_before_handlers, Heq.
    fold play2 self2.
    rewrite (new_calls_state _ _ _ _ [] Hrt), (new_calls_state _ _ _ _ [] Hrh)
      by (by rewrite app_nil_r).
    by rewrite !app_nil_r.
Qed.

(** X17. The orchestrator calls [on_failed] for the hosts a poll leaves
    pending and for no other: a task that is polled calls it once per host
    listed in [hosts_to_poll], in that order and with the timed-out reason;
    a synchronous or fire-and-forget task never calls it. *)
Theorem on_failed_only_for_timeouts play task is_handler self :
  List.filter is_failed_callback
              (new_calls (_run_task play task is_handler) self) =
  if (Task.async_seconds task =? 0)%Z then []
  else if (0 <? Task.async_poll_interval task)%Z then
    map (fun h => on_failed h timed_out)
        (pending task (started task is_handler self))
  else [].
Proof.
  destruct (run_task_calls play task is_handler self)
    as (self2 & notes & _ & Hnotes & -> & _).
  change (?a :: ?l ++ ?t) with ([a] ++ l ++ t).
  rewrite !List.filter_app.
  assert (List.filter is_failed_callback
            match (merge_facts
                     (dispatch_results task (started task is_handler self))
                     self2).1 with
            | Return _ =>
                stats_compute
                  (dispatch_results task (started task is_handler self))
                  false :: notes
            | Raise _ => []
            end = []) as ->.
  { destruct (merge_facts _ _).1; [|done]. simpl.
    apply (filter_none _ is_on_notify); [by intros []|done]. }
  rewrite app_nil_r. cbn [List.filter is_failed_callback app].
  unfold dispatch_calls.
  destruct (_ =? _)%Z; [done|]. destruct (_ <? _)%Z; [|done].
  simpl. rewrite List.filter_app, app_nil_r. unfold timeouts.
  induction (pending task (started task is_handler self)) as [|h l IH];
    [done|].
  simpl. by rewrite IH.
Qed.

(** ** When a run raises *)

Lemma lacks_entry_spec cache hr :
  lacks_entry cache hr = true <-> needs_entry cache hr.
Proof.
  unfold lacks_entry, needs_entry. rewrite andb_true_iff, bool_decide_eq_true.
  split; intros [Hnone Hfs]; (split; [done|]).
  - destruct (Result.ansible_facts hr.2) as [fs|]; [|done].
    exists fs. split; [done|].
    by apply negb_true_iff, bool_decide_eq_false in Hfs.
  - destruct Hfs as (fs & -> & Hne).
    by apply negb_true_iff, bool_decide_eq_false.
Qed.

Lemma merge_stops_true cache results :
  merge_stops cache results = true ->
  Exists (needs_entry cache) (map_to_list (Results.contacted results)).
Proof.
  unfold merge_stops. intros (hr & Hin & Hhr)%existsb_exists.
  apply Exists_exists. exists hr. split; [by apply list_elem_of_In|].
  by apply lacks_entry_spec.
Qed.

Lemma merge_stops_false cache results :
  merge_stops cache results = false -> no_new_facts cache results.
Proof.
  unfold merge_stops. intros Hex h r Hr Hn.
  apply lacks_entry_spec in Hn.
  assert (existsb (lacks_entry cache)
            (map_to_list (Results.contacted results)) = true); [|congruence].
  apply existsb_exists. exists (h, r). split; [|done].
  by apply list_elem_of_In, elem_of_map_to_list.
Qed.

Lemma hosts_loop_unchanged task (l : list (host * Result.t)) play self :
  existsb reports_change l = false ->
  foldM (notify_host task) l play self = (Return play, self).
Proof.
  induction l as [|[h r] l IH]; [done|]. simpl.
  intros [Hc Hl]%orb_false_iff. unfold bind, notify_host at 1.
  unfold reports_change in Hc. simpl in Hc. rewrite Hc. by apply IH.
Qed.

Lemma forallb_false_split {A} (f : A -> bool) l :
  forallb f l = false ->
  exists pre x post,
    l = pre ++ x :: post /\ Forall (fun y => f y = true) pre /\ f x = false.
Proof.
  induction l as [|y l IH]; [done|]. simpl.
  destruct (f y) eqn:Hy.
  - intros (pre & x & post & -> & Hpre & Hx)%IH.
    exists (y :: pre), x, post. by repeat split; [constructor|].
  - intros _. by exists [], y, l.
Qed.

Lemma names_defined_true play task :
  names_defined play task = true -> defined_in play task.
Proof.
  unfold names_defined. intros Hall n Hn.
  rewrite forallb_forall in Hall. by apply Hall, list_elem_of_In.
Qed.

Lemma changed_hosts_existsb (l : list (host * Result.t)) :
  existsb reports_change l = true ->
  bool_decide ((List.filter reports_change l).*1 = []) = false.
Proof.
  intros (hr & Hin & Hhr)%existsb_exists. apply bool_decide_eq_false.
  intros Hnil. apply fmap_nil_inv in Hnil.
  assert (In hr (List.filter reports_change l)) as Hin'
    by by apply List.filter_In.
  by rewrite Hnil in Hin'.
Qed.

Lemma task_stops_spec play task is_handler self :
  match (_run_task play task is_handler self).1 with
  | Return _ => task_stops play task is_handler self = false
  | Raise e =>
      task_stops play task is_handler self = true
      /\ ((exists h, e = KeyError h) \/ exists n, e = undefined_handler n)
  end.
Proof.
  unfold task_stops. cbv zeta.
  set (results := dispatch_results task (started task is_handler self)).
  destruct (merge_stops (SETUP_CACHE self) results) eqn:Hm.
  - apply merge_stops_true in Hm.
    rewrite run_task_eq. fold (started task is_handler self).
    destruct (run_task_internal_eq task (started task is_handler self))
      as (st & w & ->).
    fold results. set (self2 := moved_on _ _ _ _).
    destruct (merge_loop (map_to_list (Results.contacted results)) self2)
      as (_ & Hraise & _).
    destruct (Hraise Hm) as (h & Hh & _).
    unfold merge_facts.
    destruct (forM_ _ merge_host self2) as [out self3]. cbn [fst] in *.
    subst out. cbn [fst]. split; [done|]. left. by exists h.
  - apply merge_stops_false in Hm.
    destruct (run_task_flags play task is_handler self Hm) as (self' & ->).
    fold results. cbn [orb]. unfold notify_stops, flag_handlers.
    destruct (existsb reports_change
                (map_to_list (Results.contacted results))) eqn:Hc.
    + destruct (names_defined play task) eqn:Hd; cbn [andb negb].
      * apply names_defined_true in Hd.
        destruct (flag_handlers_defined play task results self' Hd)
          as (es & _ & Heq).
        unfold flag_handlers in Heq. by rewrite Heq.
      * destruct (forallb_false_split _ _ Hd)
          as (pre & n0 & post & Hnotify & Hpre & Hn0).
        assert ((0 <? length (Task.notify task))%nat = true) as ->.
        { apply Nat.ltb_lt. rewrite Hnotify, length_app. simpl. lia. }
        rewrite (hosts_loop_undefined task pre n0 post _ Hnotify play self');
          [| |].
        -- rewrite (changed_hosts_existsb _ Hc). split; [done|].
           right. by eexists.
        -- eapply Forall_impl; [exact Hpre|]. by intros n Hn.
        -- unfold handler_defined. by rewrite Hn0.
    + cbn [andb]. destruct (0 <? _)%nat; [|done].
      by rewrite hosts_loop_unchanged.
Qed.

Lemma tasks_stop_spec l :
  forall play self,
    match (foldM (fun play task => _run_task play task false) l play self).1
    with
    | Return _ => tasks_stop l play self = false
    | Raise e => tasks_stop l play self = true /\ stopped e
    end.
Proof.
  induction l as [|task l IH]; intros play self; [done|].
  rewrite foldM_cons. cbn [tasks_stop].
  pose proof (task_stops_spec play task false self) as Ht.
  destruct (_run_task play task false self) as [[play'|e] self'];
    cbn [fst] in *.
  - rewrite Ht. cbn [orb]. apply IH.
  - destruct Ht as [-> He]. done.
Qed.

Lemma handler_stops_spec play i self :
  match (run_handler play i self).1 with
  | Return _ => handler_stops play i self = false
  | Raise e => handler_stops play i self = true /\ stopped e
  end.
Proof.
  unfold handler_stops. rewrite run_handler_eq.
  destruct (Play.handlers play !! i) as [handler|]; [|done].
  destruct (Task.notified_by handler) as [|h0 nb] eqn:Hnb; [done|].
  cbn [length Nat.ltb Nat.leb].
  pose proof (task_stops_spec play handler true (restricted (h0 :: nb) self))
    as Ht.
  by destruct (_run_task play handler true _) as [[play'|e] self'].
Qed.

Lemma handlers_stop_spec l :
  forall play self,
    match (foldM run_handler l play self).1 with
    | Return _ => handlers_stop l play self = false
    | Raise e => handlers_stop l play self = true /\ stopped e
    end.
Proof.
  induction l as [|i l IH]; intros play self; [done|].
  rewrite foldM_cons. cbn [handlers_stop].
  pose proof (handler_stops_spec play i self) as Ht.
  destruct (run_handler play i self) as [[play'|e] self']; cbn [fst] in *.
  - rewrite Ht. cbn [orb]. apply IH.
  - destruct Ht as [-> He]. done.
Qed.

Lemma play_stops_spec play self :
  match (_run_play play self).1 with
  | Return _ => play_stops play self = false
  | Raise e => play_stops play self = true /\ stopped e
  end.
Proof.
  unfold play_stops. cbv zeta. rewrite run_play_eq.
  destruct (before_handlers_eq play self) as [-> _].
  set (play2 := (tasks_start play self).1).
  set (self2 := (tasks_start play self).2).
  pose proof (tasks_stop_spec (Play.tasks play2) play2 self2) as Ht.
  fold (run_tasks play2) in Ht.
  destruct (run_tasks play2 self2) as [[play3|e] self3]; cbn [fst] in *.
  - rewrite Ht. cbn [orb].
    pose proof (handlers_stop_spec (seq 0 (length (Play.handlers play3)))
                  play3 self3) as Hh.
    fold (run_handlers play3) in Hh.
    by destruct (run_handlers play3 self3) as [[play4|e] self4].
  - destruct Ht as [-> He]. done.
Qed.

Lemma run_stops_spec playbook :
  forall self,
    match (forM_ playbook
             (fun play => bind (modify (set_SETUP_CACHE ∅))
                               (fun _ => _run_play play)) self).1 with
    | Return _ => run_stops playbook self = false
    | Raise e => run_stops playbook self = true /\ stopped e
    end.
Proof.
  unfold forM_. induction playbook as [|play rest IH]; intros self; [done|].
  rewrite foldM_cons. cbn [run_stops]. unfold bind at 1, modify at 1.
  pose proof (play_stops_spec play (set_SETUP_CACHE ∅ self)) as Hp.
  destruct (_run_play play (set_SETUP_CACHE ∅ self)) as [[[]|e] self'];
    cbn [fst] in *.
  - rewrite Hp. cbn [orb]. apply IH.
  - destruct Hp as [-> He]. done.
Qed.

Lemma existsb_map_to_list (f : host * Result.t -> bool)
    (m : gmap host Result.t) :
  existsb f (map_to_list m) = true <->
  exists h r, m !! h = Some r /\ f (h, r) = true.
Proof.
  rewrite existsb_exists. split.
  - intros ([h r] & Hin & Hf). exists h, r. split; [|done].
    by apply elem_of_map_to_list, list_elem_of_In.
  - intros (h & r & Hr & Hf). exists (h, r). split; [|done].
    by apply list_elem_of_In, elem_of_map_to_list.
Qed.

Lemma existsb_signs (f : host * Result.t -> bool) (m m' : gmap host Result.t) :
  (forall h r r', signs r = signs r' -> f (h, r) = f (h, r')) ->
  signs <$> m = signs <$> m' ->
  existsb f (map_to_list m) = existsb f (map_to_list m').
Proof.
  assert (forall m1 m2 : gmap host Result.t,
            (forall h r r', signs r = signs r' -> f (h, r) = f (h, r')) ->
            signs <$> m1 = signs <$> m2 ->
            existsb f (map_to_list m1) = true ->
            existsb f (map_to_list m2) = true) as Hone.
  { intros m1 m2 Hf Heq (h & r & Hr & Hfr)%existsb_map_to_list.
    apply existsb_map_to_list.
    assert ((signs <$> m2) !! h = Some (signs r)) as Hr2.
    { by rewrite <- Heq, lookup_fmap, Hr. }
    rewrite lookup_fmap in Hr2.
    destruct (m2 !! h) as [r'|] eqn:Hr'; [|done].
    assert (signs r' = signs r) as Hs
      by (simpl in Hr2; by apply (inj Some) in Hr2).
    exists h, r'. split; [done|]. by rewrite (Hf h r' r Hs). }
  intros Hf Heq.
  destruct (existsb f (map_to_list m)) eqn:H1.
  - symmetry. by apply (Hone m m').
  - destruct (existsb f (map_to_list m')) eqn:H2; [|done].
    rewrite (Hone m' m) in H1; done.
Qed.

Lemma stops_signs cache play task results results' :
  signs <$> Results.contacted results = signs <$> Results.contacted results' ->
  merge_stops cache results = merge_stops cache results'
  /\ notify_stops play task results = notify_stops play task results'.
Proof.
  intros Heq. unfold merge_stops, notify_stops. split.
  - apply existsb_signs; [|done]. intros h r r' [= Hf _].
    unfold lacks_entry. simpl. by rewrite Hf.
  - f_equal. apply existsb_signs; [|done]. by intros h r r' [= _ Hc].
Qed.

(** C8. Whenever [run] returns, its result gives a summary to exactly the
    hosts in [stats.processed], the summary the ledger holds for each at the
    end of the run; when every host in failures or dark was a processed host
    at the start, every host in failures or dark at the end has a summary.
    Whether [run] returns is told by [run_stops]: it returns exactly when no
    task or handler, at its turn, is answered non-empty facts for a host
    without a cache entry (the subscript of line 199) or a change while it
    notifies a name that no handler has (line 230), and when it raises, it
    raises the KeyError of the first or the AnsibleError of the second.
    Neither test reads [failed], [rc], [msg] or [dark]: two result sets that
    agree, host by host, on [ansible_facts] and on the truth of [changed]
    stop the same tasks, so a host that fails or cannot be reached stops
    nothing.  The Runner and the Poller are taken to answer a result set and
    not to raise: an answer of None would raise TypeError at line 196,
    before the test of lines 203-205 is reached. *)
Theorem run_returns_summaries playbook self :
  (forall results self',
     run playbook self = (Return results, self') ->
     dom results = Stats.processed (stats self')
     /\ (forall h, h ∈ Stats.processed (stats self') ->
                   results !! h = Some (Stats.summarize (stats self') h))
     /\ (ledger_ok (stats self) ->
         forall h, excluded (stats self') h -> is_Some (results !! h)))
  /\ match (run playbook self).1 with
     | Return _ => run_stops playbook (record on_start self) = false
     | Raise e =>
         run_stops playbook (record on_start self) = true
         /\ ((exists h, e = KeyError h)
             \/ exists n,
                  e = AnsibleError
                        (String.append "change handler ("
                           (String.append n ") is not defined")))
     end
  /\ (forall cache play task results results',
        signs <$> Results.contacted results
        = signs <$> Results.contacted results' ->
        merge_stops cache results = merge_stops cache results'
        /\ notify_stops play task results
           = notify_stops play task results').
Proof.
  split; [|split; [|apply stops_signs]].
  - intros results self' Hrun.
    assert (results = summarize_all (stats self')) as ->.
    { revert Hrun. unfold run, bind.
      destruct (call on_start self) as [[[]|?] self1]; [|done].
      destruct (forM_ _ _ self1) as [[[]|?] self2]; [|done].
      simpl. by intros [= <- <-]. }
    split; [apply summarize_all_dom|]. split.
    + intros h Hh. by rewrite summarize_all_lookup, decide_True.
    + intros Hok h Hex.
      pose proof (keeps_run self playbook self (exclusion_inv_refl self))
        as HI.
      rewrite Hrun in HI. destruct HI as (es & _ & _ & Hst).
      rewrite summarize_all_lookup, decide_True; [done|].
      rewrite Hst in *. by apply ledger_ok_replay.
  - pose proof (run_stops_spec playbook (record on_start self)) as Hs.
    unfold run, bind at 1.
    change (call on_start self) with (Return tt, record on_start self).
    cbv iota beta. unfold bind at 1.
    destruct (forM_ playbook _ (record on_start self)) as [[[]|e] self'];
      cbn [fst] in *; done.
Qed.

End Further.

(** * The properties on the concrete fleet *)

Section OnCarefulModules.
#[local] Existing Instance Demo.strict.

(** C1 on the run of [main_play] twice: the handler of the first play was
    notified by [h1] and [h2]; [h2] has failed since, and the handler is
    dispatched to [h1] alone. *)
Lemma working_set_excludes_failed_witness :
  (new_calls (run [Demo.main_play; Demo.main_play]) Demo.start_strict =
   take 27 Demo.log ++ runner_run Demo.restart_runner :: drop 28 Demo.log
   /\ dispatch_of (runner_run Demo.restart_runner)
      = Some Demo.restart_runner)
  /\ (working_set Demo.restart_runner =
      Some (eligible (replay (stats Demo.start_strict) (take 27 Demo.log))
                     (listing Demo.restart_runner))
      /\ (forall h es0 es0',
            take 27 Demo.log = es0 ++ es0' ->
            excluded (replay (stats Demo.start_strict) es0) h ->
            h ∉ dispatch_set Demo.restart_runner)
      /\ stats (run [Demo.main_play; Demo.main_play] Demo.start_strict).2 =
         replay (stats Demo.start_strict)
           (new_calls (run [Demo.main_play; Demo.main_play])
                      Demo.start_strict)).
Proof.
  assert (new_calls (run [Demo.main_play; Demo.main_play]) Demo.start_strict
          = take 27 Demo.log ++ runner_run Demo.restart_runner
                                :: drop 28 Demo.log) as Hlog.
  { vm_compute. reflexivity. }
  split; [split; [exact Hlog|reflexivity]|].
  exact (working_set_excludes_failed
           [Demo.main_play; Demo.main_play] Demo.start_strict
           (take 27 Demo.log) (runner_run Demo.restart_runner)
           (drop 28 Demo.log) Demo.restart_runner Hlog eq_refl).
Defined.

(** Scenarios 2 and 3 of the specification on [main_play]: after [h2] failed
    in the second task, the third task and the handler are dispatched to
    [h1] alone, though [h2] notified the handler. *)
Example failed_host_left_out :
  map (fun r => (Runner.module_name r, working_set r))
      (omap dispatch_of (new_calls (run [Demo.main_play]) Demo.start_strict))
  = [("setup", Some ["h1"; "h2"; "h3"]); ("touch", Some ["h1"; "h2"]);
     ("fail_h2", Some ["h1"; "h2"]); ("ping", Some ["h1"]);
     ("touch", Some ["h1"])].
Proof. vm_compute. reflexivity. Qed.

(** C2 on the fire-and-forget task of [async_play]. *)
Lemma fire_and_forget_folds_witness :
  (Task.async_seconds Demo.forget <> 0%Z
   /\ (Task.async_poll_interval Demo.forget <= 0)%Z)
  /\ (let initial :=
        (launched Demo.forget
           (record (on_task_start (Task.name Demo.forget) false)
                   Demo.ready)).1.1 in
      let es :=
        new_calls (_run_task Demo.async_play Demo.forget false) Demo.ready in
      List.filter is_wait es = []
      /\ List.filter is_fold es =
         match (_run_task Demo.async_play Demo.forget false Demo.ready).1
         with
         | Raise (KeyError _) => [stats_compute initial false]
         | _ => [stats_compute initial false; stats_compute initial false]
         end).
Proof.
  assert (Task.async_seconds Demo.forget <> 0%Z) as H1 by done.
  assert (Task.async_poll_interval Demo.forget <= 0)%Z as H2 by done.
  split; [exact (conj H1 H2)|].
  exact (fire_and_forget_folds Demo.async_play Demo.forget false Demo.ready
           H1 H2).
Defined.

(** C2 as stated fails on the fire-and-forget task of [async_play]: its
    launch results are folded twice, not once. *)
Lemma fire_and_forget_not_folded_once :
  ~ folded_once Demo.async_play Demo.forget false Demo.ready.
Proof.
  intros [_ Hfolds]. apply (f_equal length) in Hfolds.
  vm_compute in Hfolds. discriminate.
Qed.

(** the calls of that task, by kind, and what the two folds do to the
    ledger: one launch on [h1] counts as two ok and two changed *)
Example fire_and_forget_calls :
  let out := _run_task Demo.async_play Demo.forget false Demo.ready in
  map (fun e => (is_fold e, is_wait e))
      (new_calls (_run_task Demo.async_play Demo.forget false) Demo.ready)
  = [(false, false); (false, false); (false, false); (true, false);
     (false, false); (true, false)]
  /\ Stats.ok (stats Demo.ready) !! "h1" = None
  /\ Stats.ok (stats out.2) !! "h1" = Some 2
  /\ Stats.changed (stats out.2) !! "h1" = Some 2.
Proof. vm_compute. done. Qed.

(** C3 on the run of [main_play] twice: the primary setup of the second
    play gets the empty cache, though the first play filled it. *)
Lemma primary_setup_sees_empty_cache_witness :
  is_primary_setup
    (new_calls (run [Demo.main_play; Demo.main_play]) Demo.start_strict)
    Demo.second_setup_runner
  /\ Runner.setup_cache Demo.second_setup_runner = ∅.
Proof.
  assert (is_primary_setup
            (new_calls (run [Demo.main_play; Demo.main_play])
                       Demo.start_strict)
            Demo.second_setup_runner) as Hr.
  { exists (take 32 Demo.log), ["h1"], (drop 35 Demo.log).
    vm_compute. reflexivity. }
  split; [exact Hr|].
  exact (primary_setup_sees_empty_cache _ _ _ Hr).
Defined.

(** C5 on the polled task of [async_play]: the Poller never hears from
    [h1]. *)
Lemma async_timeout_recorded_witness :
  (Task.async_seconds Demo.slow <> 0%Z
   /\ (0 < Task.async_poll_interval Demo.slow)%Z
   /\ "h1" ∈ pending Demo.slow Demo.ready)
  /\ (let reason :=
        {| Result.changed := None; Result.failed := Some (VInt 1);
           Result.rc := Some VNone; Result.msg := Some (VStr "timed out");
           Result.ansible_facts := None |} in
      exists results self',
        _run_task_internal Demo.slow Demo.ready = (Return results, self')
        /\ Results.contacted results !! "h1" = Some reason
        /\ new_calls (_run_task_internal Demo.slow) Demo.ready =
           [restrict_to (task_hosts Demo.ready);
            runner_run_async (dispatch_runner Demo.slow Demo.ready)
                             (Task.async_seconds Demo.slow);
            stats_compute (launched Demo.slow Demo.ready).1.1 false;
            poller_wait (Task.async_seconds Demo.slow)
                        (Task.async_poll_interval Demo.slow)]
           ++ map (fun h' => on_failed h' reason)
                  (pending Demo.slow Demo.ready)
           ++ [lift_restriction]
        /\ List.filter (is_on_failed "h1")
                       (new_calls (_run_task_internal Demo.slow) Demo.ready)
           = replicate (count_listed "h1" (pending Demo.slow Demo.ready))
                       (on_failed "h1" reason)
        /\ (NoDup (pending Demo.slow Demo.ready) ->
            List.filter (is_on_failed "h1")
                        (new_calls (_run_task_internal Demo.slow) Demo.ready)
            = [on_failed "h1" reason])).
Proof.
  assert (Task.async_seconds Demo.slow <> 0%Z) as H1 by done.
  assert (0 < Task.async_poll_interval Demo.slow)%Z as H2 by done.
  assert ("h1" ∈ pending Demo.slow Demo.ready) as H3.
  { apply (bool_decide_unpack _). vm_compute. exact I. }
  split; [exact (conj H1 (conj H2 H3))|].
  exact (async_timeout_recorded Demo.slow Demo.ready "h1" H1 H2 H3).
Defined.

(** Scenario 4 of the specification: the Poller of the concrete fleet lists
    each pending host once, and [on_failed] is called once for [h1]. *)
Example slow_task_times_out_once :
  NoDup (pending Demo.slow Demo.ready)
  /\ count_on_failed "h1"
       (new_calls (_run_task_internal Demo.slow) Demo.ready) = 1.
Proof. split; [apply (bool_decide_unpack _)|]; vm_compute; done. Qed.

(** C6 on the handlers of [main_play]: [h1] lands in [notified_by] of the
    handler called [restart]; no handler is called [reload]. *)
Lemma flag_handler_spec_witness :
  (exists hs,
     (_flag_handler (Play.handlers Demo.main_play) "restart" "h1"
        Demo.start_strict).1 = Return hs
     /\ map Task.name hs = ["restart"]
     /\ map Task.notified_by hs = [["h1"]])
  /\ new_calls (_flag_handler (Play.handlers Demo.main_play) "restart" "h1")
               Demo.start_strict = [on_notify "h1" "restart"]
  /\ (_flag_handler (Play.handlers Demo.main_play) "reload" "h1"
        Demo.start_strict).1 =
     Raise (AnsibleError "change handler (reload) is not defined").
Proof.
  unfold new_calls.
  rewrite (flag_handler_spec (Play.handlers Demo.main_play) "restart" "h1"
             Demo.start_strict).
  rewrite (flag_handler_spec (Play.handlers Demo.main_play) "reload" "h1"
             Demo.start_strict).
  split; [eexists; split; [reflexivity|split; reflexivity]|].
  split; reflexivity.
Defined.

Lemma lookup_results_of strict0 r h r0 :
  Results.contacted (Demo.results_of strict0 r) !! h = Some r0 ->
  r0 = Demo.module_result strict0 r h.
Proof.
  unfold Demo.results_of. simpl. intros Hin%elem_of_list_to_map_2.
  apply list_elem_of_fmap in Hin as (h' & [= -> ->] & _). done.
Qed.

Lemma careful_module_result r s h :
  Runner.module_args r = ArgsString s ->
  ~ needs_entry (Runner.setup_cache r) (h, Demo.module_result true r h).
Proof.
  intros Hargs [Hnone (fs & Hfs & Hne)]. simpl in *.
  unfold Demo.module_result in Hfs. rewrite Hargs, Hnone in Hfs.
  repeat (match type of Hfs with
          | context [String.eqb ?a ?b] => destruct (String.eqb a b)
          end; simpl in Hfs; try discriminate).
  injection Hfs as <-. done.
Qed.

Lemma strict_facts_for_cached : facts_for_cached.
Proof.
  split; [|split].
  - intros r w s Hargs h r0 Hr0. simpl in Hr0.
    apply lookup_results_of in Hr0 as ->. by eapply careful_module_result.
  - intros r secs w s Hargs h r0 Hr0. simpl in Hr0.
    apply lookup_results_of in Hr0 as ->. by eapply careful_module_result.
  - intros p secs interval w h r0 Hr0. simpl in Hr0.
    by rewrite lookup_empty in Hr0.
Qed.

(** the summaries of that run: the failed host and the unreachable host
    have theirs *)
Example main_play_summaries :
  (run [Demo.main_play] Demo.start_strict).1 =
  Return {[ "h1" := {| Stats.s_ok := 4; Stats.s_changed := 2;
                       Stats.s_failed := 0; Stats.s_unreachable := 0 |};
            "h2" := {| Stats.s_ok := 1; Stats.s_changed := 1;
                       Stats.s_failed := 1; Stats.s_unreachable := 0 |};
            "h3" := {| Stats.s_ok := 0; Stats.s_changed := 0;
                       Stats.s_failed := 0; Stats.s_unreachable := 1 |} ]}.
Proof. vm_compute. reflexivity. Qed.

(** C9 on a run of [main_play]: it returns, and the stack is as it was. *)
Lemma restriction_balance_witness :
  exists results self',
    run [Demo.main_play] Demo.start_strict = (Return results, self')
    /\ inventory self' = inventory Demo.start_strict.
Proof.
  pose proof main_play_summaries as Hsum.
  destruct (run [Demo.main_play] Demo.start_strict)
    as [[results|e] self'] eqn:Hrun; [|discriminate].
  exists results, self'. split; [reflexivity|].
  exact (proj2 (proj2 (proj2 (proj2 restriction_balance)))
           [Demo.main_play] Demo.start_strict results self' Hrun).
Defined.

(** C9 as stated fails on [bad_play]: its handler notifies a handler that
    does not exist, the run ends by the AnsibleError and the restriction
    the handler ran under stays pushed. *)
Lemma restriction_left_on_error :
  ~ lifted_on_every_exit [Demo.bad_play] Demo.start_strict.
Proof.
  intros Heq. apply (f_equal Inventory.depth) in Heq.
  vm_compute in Heq. discriminate.
Qed.

(** Scenario 5 of the specification: the run aborts and names the handler;
    the stack, empty at the start, is left with the restriction to the
    hosts that notified the handler.  Whatever the inventory makes of them,
    the calls do not pair: four restrictions, three lifts. *)
Example undefined_handler_aborts :
  let es := new_calls (run [Demo.bad_play]) Demo.start_strict in
  (run [Demo.bad_play] Demo.start_strict).1 =
  Raise (AnsibleError "change handler (restart-xyz) is not defined")
  /\ Inventory.restriction (inventory Demo.start_strict) = []
  /\ Inventory.restriction
       (inventory (run [Demo.bad_play] Demo.start_strict).2)
     = [["h1"; "h2"]]
  /\ length (List.filter
               (fun e => match e with restrict_to _ => true | _ => false end)
               es) = 4
  /\ length (List.filter
               (fun e => match e with lift_restriction => true | _ => false
                         end)
               es) = 3.
Proof. vm_compute. done. Qed.

End OnCarefulModules.

Section OnAStutteringPoller.
#[local] Existing Instance Cases.stuttering.

(** C5 as stated fails when the Poller lists a pending host twice:
    [on_failed] is called for it twice. *)
Lemma timed_out_twice_when_listed_twice :
  ~ timed_out_once Demo.slow (Demo.start Cases.stuttering tt).
Proof.
  intros Hall.
  destruct (Hall "h1") as (results & self' & _ & _ & Hcount).
  { apply (bool_decide_unpack _). vm_compute. exact I. }
  vm_compute in Hcount. discriminate.
Qed.

(** the polled task on that Poller: [h1] and [h2] are each listed twice, and
    [on_failed] is called for each entry *)
Example stuttering_poller_calls :
  pending Demo.slow (Demo.start Cases.stuttering tt)
  = ["h1"; "h2"; "h1"; "h2"]
  /\ map (fun e => match e with on_failed h _ => h | _ => "" end)
         (List.filter is_failed_callback
            (new_calls (_run_task_internal Demo.slow)
                       (Demo.start Cases.stuttering tt)))
     = ["h1"; "h2"; "h1"; "h2"].
Proof. vm_compute. done. Qed.

End OnAStutteringPoller.

Section OnCarelessModules.
#[local] Existing Instance Demo.lax.

(** C10 on the task of [report_play], which reports facts: no host has a
    cache entry. *)
Lemma fact_merge_key_error_witness :
  (Demo.dispatched Demo.report
   = (Return Demo.reported, (Demo.dispatched Demo.report).2)
   /\ exists h r, Results.contacted Demo.reported !! h = Some r
                  /\ needs_entry (SETUP_CACHE Demo.bare) (h, r))
  /\ exists h' self',
      _run_task Demo.report_play Demo.report false Demo.bare
      = (Raise (KeyError h'), self')
      /\ merge_facts Demo.reported (Demo.dispatched Demo.report).2
         = (Raise (KeyError h'), self')
      /\ SETUP_CACHE Demo.bare !! h' = None
      /\ dom (SETUP_CACHE self') = dom (SETUP_CACHE Demo.bare).
Proof.
  assert (Demo.dispatched Demo.report
          = (Return Demo.reported, (Demo.dispatched Demo.report).2)) as H1.
  { vm_compute. reflexivity. }
  assert (exists h r, Results.contacted Demo.reported !! h = Some r
                      /\ needs_entry (SETUP_CACHE Demo.bare) (h, r)) as H2.
  { exists "h1", (Demo.with_facts {["k" := VInt 1]}).
    split; [vm_compute; reflexivity|].
    split; [vm_compute; reflexivity|].
    eexists. split; [reflexivity|]. apply insert_non_empty. }
  split; [exact (conj H1 H2)|].
  exact (proj1 (fact_merge_key_error Demo.report_play Demo.report false
                  Demo.bare Demo.reported (Demo.dispatched Demo.report).2 H1)
               H2).
Defined.

(** C10 as stated fails on the task of [probe_play], which reports an empty
    facts map: no host has a cache entry and nothing is raised. *)
Lemma empty_facts_do_not_raise :
  ~ raises_without_entry Demo.probe_play Demo.probe false Demo.bare.
Proof.
  intros Hclaim.
  destruct (Hclaim
              (match (Demo.dispatched Demo.probe).1 with
               | Return results => results
               | Raise _ => {| Results.contacted := ∅; Results.dark := ∅ |}
               end)
              (Demo.dispatched Demo.probe).2 "h1" (Demo.with_facts ∅))
    as (h' & self' & Hraise).
  - vm_compute. reflexivity.
  - vm_compute. reflexivity.
  - by eexists.
  - vm_compute. reflexivity.
  - assert (match (_run_task Demo.probe_play Demo.probe false Demo.bare).1
            with
            | Return _ => true
            | Raise _ => false
            end = true) as Hret by (vm_compute; reflexivity).
    rewrite Hraise in Hret. discriminate.
Qed.

(** the two runs side by side: empty facts for hosts without entry go
    through and leave the cache empty; facts with one key raise KeyError *)
Example empty_and_non_empty_facts :
  SETUP_CACHE Demo.bare = ∅
  /\ (run [Demo.probe_play] Demo.start_lax).1
     = Return {[ "h1" := {| Stats.s_ok := 1; Stats.s_changed := 0;
                            Stats.s_failed := 0; Stats.s_unreachable := 0 |};
                 "h2" := {| Stats.s_ok := 1; Stats.s_changed := 0;
                            Stats.s_failed := 0; Stats.s_unreachable := 0 |};
                 "h3" := {| Stats.s_ok := 0; Stats.s_changed := 0;
                            Stats.s_failed := 0; Stats.s_unreachable := 1 |} ]}
  /\ SETUP_CACHE (run [Demo.probe_play] Demo.start_lax).2 = ∅
  /\ exists h, (run [Demo.report_play] Demo.start_lax).1
               = Raise (KeyError h).
Proof.
  split; [vm_compute; reflexivity|]. split; [vm_compute; reflexivity|].
  split; [vm_compute; reflexivity|]. eexists. vm_compute. reflexivity.
Qed.

(** C8 on a run with the careless modules: [h3] is unreachable, [h2] fails
    in the first task, and the second task reports a fact for [h1], which
    has a cache entry; no task stops, the run returns, and the failed and
    the unreachable host have their summaries. *)
Lemma run_returns_summaries_witness :
  run_stops [Cases.report_after_failure] (record on_start Demo.start_lax)
  = false
  /\ exists results self',
       run [Cases.report_after_failure] Demo.start_lax
       = (Return results, self')
       /\ dom results = Stats.processed (stats self')
       /\ (forall h, excluded (stats self') h -> is_Some (results !! h)).
Proof.
  assert (run_stops [Cases.report_after_failure]
                    (record on_start Demo.start_lax) = false) as Hs.
  { vm_compute. reflexivity. }
  split; [exact Hs|].
  destruct (run_returns_summaries [Cases.report_after_failure]
              Demo.start_lax) as (Hshape & Hout & _).
  destruct (run [Cases.report_after_failure] Demo.start_lax)
    as [[results|e] self'] eqn:Hrun; cbn [fst] in Hout.
  - exists results, self'. split; [reflexivity|].
    destruct (Hshape results self' eq_refl) as (Hdom & _ & Hex).
    split; [exact Hdom|]. apply Hex.
    intros h [Hh|Hh]; vm_compute in Hh; discriminate.
  - destruct Hout as [Hstop _]. rewrite Hs in Hstop. discriminate.
Defined.

Example report_after_failure_summaries :
  (run [Cases.report_after_failure] Demo.start_lax).1 =
  Return {[ "h1" := {| Stats.s_ok := 2; Stats.s_changed := 0;
                       Stats.s_failed := 0; Stats.s_unreachable := 0 |};
            "h2" := {| Stats.s_ok := 0; Stats.s_changed := 0;
                       Stats.s_failed := 1; Stats.s_unreachable := 0 |};
            "h3" := {| Stats.s_ok := 0; Stats.s_changed := 0;
                       Stats.s_failed := 0; Stats.s_unreachable := 1 |} ]}
  /\ run_stops [Demo.report_play] (record on_start Demo.start_lax) = true.
Proof. vm_compute. done. Qed.

End OnCarelessModules.

(** * The further properties on the fleet *)

Section FurtherOnCarefulModules.
#[local] Existing Instance Demo.strict.

(** X1 on the first task of [main_play]. *)
Lemma sync_task_folds_once_witness :
  Task.async_seconds Cases.touch = 0%Z
  /\ (let self1 := started Cases.touch false Demo.ready in
      let es :=
        new_calls (_run_task Demo.main_play Cases.touch false) Demo.ready in
      omap dispatch_of es = [dispatch_runner Cases.touch self1]
      /\ List.filter is_wait es = []
      /\ List.filter is_fold es =
         match (_run_task Demo.main_play Cases.touch false Demo.ready).1 with
         | Raise (KeyError _) => []
         | _ => [stats_compute (ran Cases.touch self1).1 false]
         end).
Proof.
  split; [reflexivity|].
  exact (sync_task_folds_once Demo.main_play Cases.touch false Demo.ready
           eq_refl).
Defined.

(** X2 on the polled task of [async_play]. *)
Lemma polled_task_folds_twice_witness :
  (Task.async_seconds Demo.slow <> 0%Z
   /\ (0 < Task.async_poll_interval Demo.slow)%Z)
  /\ (let self1 := started Demo.slow false Demo.ready in
      let es :=
        new_calls (_run_task Demo.async_play Demo.slow false) Demo.ready in
      List.filter is_wait es =
      [poller_wait (Task.async_seconds Demo.slow)
                   (Task.async_poll_interval Demo.slow)]
      /\ List.filter is_fold es =
         stats_compute (launched Demo.slow self1).1.1 false
         :: match (_run_task Demo.async_play Demo.slow false Demo.ready).1
            with
            | Raise (KeyError _) => []
            | _ => [stats_compute
                      (with_timeouts (polled Demo.slow self1).1.1
                                     (pending Demo.slow self1)) false]
            end).
Proof.
  assert (Task.async_seconds Demo.slow <> 0%Z) as H1 by done.
  assert (0 < Task.async_poll_interval Demo.slow)%Z as H2 by done.
  split; [exact (conj H1 H2)|].
  exact (polled_task_folds_twice Demo.async_play Demo.slow false Demo.ready
           H1 H2).
Defined.

(** X3 after a run on the inventory of [h2] and [h3]: [h2] has failed and
    [h3] is unreachable, and a task is dispatched to nobody. *)
Lemma dispatch_with_no_host_left_witness :
  Forall (excluded (stats Cases.stranded))
         (Inventory.list_hosts (inventory Cases.stranded) "all")
  /\ (task_hosts Cases.stranded = []
      /\ dispatch_set (dispatch_runner Cases.touch Cases.stranded) = []
      /\ omap dispatch_of
              (new_calls (_run_task_internal Cases.touch) Cases.stranded) =
         [dispatch_runner Cases.touch Cases.stranded]
      /\ (_run_task_internal Cases.touch Cases.stranded).1 =
         Return (dispatch_results Cases.touch Cases.stranded)).
Proof.
  assert (Inventory.list_hosts (inventory Cases.stranded) "all"
          = ["h2"; "h3"]) as Hl by (vm_compute; reflexivity).
  assert (Forall (excluded (stats Cases.stranded))
                 (Inventory.list_hosts (inventory Cases.stranded) "all"))
    as H1.
  { rewrite Hl. constructor; [left; vm_compute; reflexivity|].
    constructor; [right; vm_compute; reflexivity|]. constructor. }
  exact (conj H1 (dispatch_with_no_host_left Cases.touch Cases.stranded H1)).
Defined.

Example nobody_left_to_touch :
  Stats.in_failures (stats Cases.stranded) "h2" = true
  /\ Stats.in_dark (stats Cases.stranded) "h3" = true
  /\ map working_set
         (omap dispatch_of
               (new_calls (_run_task_internal Cases.touch) Cases.stranded))
     = [Some []].
Proof. vm_compute. done. Qed.

(** X5 on the handler of [handler_play], notified by [h1] and [h2]. *)
Lemma handler_dispatched_to_notifiers_witness :
  (Play.handlers Cases.handler_play !! 0 = Some Cases.notified_restart
   /\ Task.notified_by Cases.notified_restart <> [])
  /\ (let r :=
        dispatch_runner Cases.notified_restart
          (started Cases.notified_restart true
             (restricted (Task.notified_by Cases.notified_restart)
                         Demo.ready)) in
      omap dispatch_of
           (new_calls (run_handler Cases.handler_play 0) Demo.ready) = [r]
      /\ forall h, h ∈ dispatch_set r ->
                   h ∈ Task.notified_by Cases.notified_restart
                   /\ ~ excluded (stats Demo.ready) h).
Proof.
  assert (Play.handlers Cases.handler_play !! 0 = Some Cases.notified_restart)
    as H1 by reflexivity.
  assert (Task.notified_by Cases.notified_restart <> []) as H2 by done.
  split; [exact (conj H1 H2)|].
  exact (handler_dispatched_to_notifiers Cases.handler_play 0
           Cases.notified_restart Demo.ready H1 H2).
Defined.

(** X6 on the task [report] dispatched from [ready]. *)
Lemma task_adds_fact_keys_witness :
  no_new_facts (SETUP_CACHE Demo.ready) Cases.facts_reported
  /\ ((forall h e,
         (_run_task Demo.report_play Demo.report false Demo.ready).1 = Raise e
         -> e <> KeyError h)
      /\ forall h d fs,
           SETUP_CACHE Demo.ready !! h = Some d ->
           facts_of (Results.contacted Cases.facts_reported) h = Some fs ->
           exists d',
             SETUP_CACHE
               (_run_task Demo.report_play Demo.report false Demo.ready).2
             !! h = Some d'
             /\ dom fs ∪ dom d ⊆ dom d').
Proof.
  assert (no_new_facts (SETUP_CACHE Demo.ready) Cases.facts_reported) as H1.
  { apply dispatch_results_cached, strict_facts_for_cached. }
  exact (conj H1 (task_adds_fact_keys Demo.report_play Demo.report
                    false Demo.ready H1)).
Defined.

Example report_adds_a_fact :
  let cache :=
    SETUP_CACHE (_run_task Demo.report_play Demo.report false Demo.ready).2 in
  SETUP_CACHE Demo.ready !! "h1" = Some {["ansible_os" := VStr "linux"]}
  /\ cache !! "h1" = Some {["ansible_os" := VStr "linux"; "k" := VInt 1]}
  /\ cache !! "h3" = None.
Proof. vm_compute. done. Qed.

(** X7 on the facts of the task [report]. *)
Lemma fact_merge_idempotent_witness :
  no_new_facts (SETUP_CACHE Demo.ready) Cases.facts_reported
  /\ exists self',
       merge_facts Cases.facts_reported Demo.ready = (Return tt, self')
       /\ merge_facts Cases.facts_reported self' = (Return tt, self').
Proof.
  assert (no_new_facts (SETUP_CACHE Demo.ready) Cases.facts_reported) as H1.
  { apply dispatch_results_cached, strict_facts_for_cached. }
  exact (conj H1 (fact_merge_idempotent Cases.facts_reported Demo.ready H1)).
Defined.

(** X10 on the first task of [main_play]. *)
Lemma task_flags_handlers_witness :
  (no_new_facts (SETUP_CACHE Demo.ready)
     (dispatch_results Cases.touch (started Cases.touch false Demo.ready))
   /\ defined_in Demo.main_play Cases.touch)
  /\ exists hs',
       (_run_task Demo.main_play Cases.touch false Demo.ready).1 =
       Return {| Play.name := Play.name Demo.main_play;
                 Play.view := Play.view Demo.main_play;
                 Play.vars := Play.vars Demo.main_play;
                 Play.vars_files := Play.vars_files Demo.main_play;
                 Play.tasks := Play.tasks Demo.main_play;
                 Play.handlers := hs' |}
       /\ Forall2
            (fun x x' =>
               same_but_notified_by x x'
               /\ exists extra,
                    Task.notified_by x' = Task.notified_by x ++ extra
                    /\ forall h,
                         count_listed h extra =
                         notifications_due Cases.touch
                           (dispatch_results Cases.touch
                              (started Cases.touch false Demo.ready)) x h)
            (Play.handlers Demo.main_play) hs'.
Proof.
  assert (no_new_facts (SETUP_CACHE Demo.ready)
            (dispatch_results Cases.touch
               (started Cases.touch false Demo.ready))) as H1.
  { apply dispatch_results_cached, strict_facts_for_cached. }
  assert (defined_in Demo.main_play Cases.touch) as H2.
  { intros n Hn. apply list_elem_of_singleton in Hn as ->. reflexivity. }
  split; [exact (conj H1 H2)|].
  exact (task_flags_handlers Demo.main_play Cases.touch false Demo.ready
           H1 H2).
Defined.

Example touch_notifies_restart :
  match (_run_task Demo.main_play Cases.touch false Demo.ready).1 with
  | Return play' =>
      map Task.notified_by (Play.handlers play') = [["h1"; "h2"]]
  | Raise _ => False
  end.
Proof. vm_compute. done. Qed.

(** X11 on a task that notifies the undefined [restart-xyz]: its module
    reports a change, and the task raises. *)
Lemma undefined_handler_needs_change_witness :
  (no_new_facts (SETUP_CACHE Demo.ready)
     (dispatch_results Cases.dangling
        (started Cases.dangling false Demo.ready))
   /\ Task.notify Cases.dangling = [] ++ "restart-xyz" :: []
   /\ Forall (handler_defined Demo.bad_play Cases.dangling) []
   /\ ~ handler_defined Demo.bad_play Cases.dangling "restart-xyz")
  /\ (_run_task Demo.bad_play Cases.dangling false Demo.ready).1 =
     if bool_decide
          (changed_hosts
             (dispatch_results Cases.dangling
                (started Cases.dangling false Demo.ready)) = [])
     then Return Demo.bad_play
     else Raise (AnsibleError
                   (String.append "change handler ("
                      (String.append
                         (template "restart-xyz"
                                   (Task.module_vars Cases.dangling))
                         ") is not defined"))).
Proof.
  assert (no_new_facts (SETUP_CACHE Demo.ready)
            (dispatch_results Cases.dangling
               (started Cases.dangling false Demo.ready))) as H1.
  { apply dispatch_results_cached, strict_facts_for_cached. }
  assert (Task.notify Cases.dangling = [] ++ "restart-xyz" :: [])
    as H2 by reflexivity.
  assert (Forall (handler_defined Demo.bad_play Cases.dangling) [])
    as H3 by constructor.
  assert (~ handler_defined Demo.bad_play Cases.dangling "restart-xyz")
    as H4 by (unfold handler_defined; vm_compute; discriminate).
  split; [exact (conj H1 (conj H2 (conj H3 H4)))|].
  exact (undefined_handler_needs_change Demo.bad_play Cases.dangling false
           Demo.ready [] "restart-xyz" [] H1 H2 H3 H4).
Defined.

Example dangling_notification_raises :
  (_run_task Demo.bad_play Cases.dangling false Demo.ready).1 =
  Raise (AnsibleError "change handler (restart-xyz) is not defined").
Proof. vm_compute. reflexivity. Qed.

(** X16 on a play without tasks, with one handler nobody notified. *)
Lemma idle_play_only_sets_up_witness :
  (Play.tasks Cases.idle_play = []
   /\ Forall unnotified (Play.handlers Cases.idle_play))
  /\ ((_run_play Cases.idle_play Demo.start_strict).1 = Return tt
      /\ new_calls (_run_play Cases.idle_play) Demo.start_strict =
         on_play_start (Play.name Cases.idle_play)
         :: primary_calls Cases.idle_play
              (record (on_play_start (Play.name Cases.idle_play))
                      Demo.start_strict)
         ++ (if bool_decide (Play.vars_files Cases.idle_play = []) then []
             else secondary_calls Cases.idle_play
                    (after_primary Cases.idle_play Demo.start_strict))).
Proof.
  assert (Play.tasks Cases.idle_play = []) as H1 by reflexivity.
  assert (Forall unnotified (Play.handlers Cases.idle_play)) as H2.
  { constructor; [reflexivity|constructor]. }
  split; [exact (conj H1 H2)|].
  exact (idle_play_only_sets_up Cases.idle_play Demo.start_strict H1 H2).
Defined.

End FurtherOnCarefulModules.
